(** * OpenSCAD builtin functions (src/func.cc): a shallow embedding

    The builtin function library of the OpenSCAD expression language:
    every builtin reads its already evaluated arguments by position,
    checks arity and variants itself and returns a [Value].

    Numbers are IEEE-754 binary64 values, modelled by Rocq's primitive
    floats, so that every comparison and arithmetic step of the source is
    the one the machine does.  What the source takes from other libraries
    is a parameter of the model: the transcendental functions of libm
    ([math.Libm]), the boost generators ([Generator]), the printing of
    values and the version macros of the build ([Host]), and the stack of
    [Module], which [builtin_parent_module] takes as an argument.

    Sizes and counters ([size_t], [unsigned int matchCount]) are natural
    numbers: no argument list or vector of the model reaches 2^32
    elements. *)

From Stdlib Require Import ZArith List Bool Lia Sorted.
From Stdlib Require Import Floats Uint63.
Import ListNotations.

Set Implicit Arguments.
Set Warnings "-register-all".

(* ================================================================= *)
(** * Part I: definitions *)
(* ================================================================= *)

(** ** binary64 helpers *)

Module Double.

Local Open Scope float_scope.

(** [#define TRIG_HUGE_VAL ((1L<<26)*360.0*(1L<<26))] *)
Definition TRIG_HUGE_VAL : float := 67108864 * 360 * 67108864.

(** [M_PI] and [M_SQRT1_2] of <math.h>, as the doubles they denote. *)
Definition M_PI : float := 0x1.921fb54442d18p+1.
Definition M_SQRT1_2 : float := 0x1.6a09e667f3bcdp-1.

(** [std::numeric_limits<double>::quiet_NaN()] *)
Definition quiet_NaN : float := nan.

(** The integer [z], |z| < 2^63, as a double. *)
Definition of_Z (z : Z) : float :=
  if (z <? 0)%Z then - of_uint63 (Uint63.of_Z (- z)) else of_uint63 (Uint63.of_Z z).

(** [double(j)] for an index [j]. *)
Definition of_nat (n : nat) : float := of_Z (Z.of_nat n).

(** Integer part of a double, rounded toward zero; [None] for NaN and
    the infinities. *)
Definition SFtrunc (f : spec_float) : option Z :=
  match f with
  | S754_zero _ => Some 0%Z
  | S754_finite s m e =>
      let a := if (0 <=? e)%Z then Z.shiftl (Zpos m) e
               else Z.shiftr (Zpos m) (- e) in
      Some (if s then (- a)%Z else a)
  | _ => None
  end.

Definition truncZ (x : float) : option Z := SFtrunc (Prim2SF x).

(** [floor] of <math.h>: the largest integral double not above [x];
    integral doubles, zeros, infinities and NaN are returned as they
    are. *)
Definition floor (x : float) : float :=
  match Prim2SF x with
  | S754_finite s m e =>
      if (0 <=? e)%Z then x
      else
        let q := Z.shiftr (Zpos m) (- e) in
        let exact := (Z.shiftl q (- e) =? Zpos m)%Z in
        if s then (if exact then of_Z (- q) else of_Z (- q - 1))
        else of_Z q
  | _ => x
  end.

(** [trunc] of <math.h>. *)
Definition trunc (x : float) : float :=
  match Prim2SF x with
  | S754_finite s m e =>
      if (0 <=? e)%Z then x
      else
        let q := Z.shiftr (Zpos m) (- e) in
        if s then - of_Z q else of_Z q
  | _ => x
  end.

(** [fabs] and [sqrt] are primitive operations of binary64. *)
Definition fabs (x : float) : float := abs x.

(** [static_cast<int>(x)]: the value rounded toward zero.  Outside the
    range of [int] (and for NaN) C++ leaves the result open; the model
    takes the x86 conversion's answer, [INT_MIN]. *)
Definition INT_MIN : Z := (- 2147483648)%Z.
Definition INT_MAX : Z := 2147483647%Z.

Definition to_int (x : float) : Z :=
  match truncZ x with
  | Some z => if ((INT_MIN <=? z) && (z <=? INT_MAX))%Z then z else INT_MIN
  | None => INT_MIN
  end.

(** [(unsigned int) x]: the value rounded toward zero, for [x] in
    range; outside it the model takes the low 32 bits of the x86-64
    conversion to a 64-bit integer (0 when that one overflows too). *)
Definition to_uint (x : float) : Z :=
  match truncZ x with
  | Some z =>
      if ((- 9223372036854775808 <=? z) && (z <=? 9223372036854775807))%Z
      then (z mod 4294967296)%Z else 0%Z
  | None => 0%Z
  end.

(** An order-preserving integer key of a double that is not NaN: the
    sign-magnitude reading of its bits.  Both zeros have key 0. *)
Definition key_inf : Z := 27021597764222976000%Z.

Definition SFkey (f : spec_float) : option Z :=
  match f with
  | S754_nan => None
  | S754_zero _ => Some 0%Z
  | S754_infinity s => Some (if s then (- key_inf)%Z else key_inf)
  | S754_finite s m e =>
      let k := ((e + 1075) * 9007199254740992 + Zpos m)%Z in
      Some (if s then (- k)%Z else k)
  end.

Definition key (x : float) : option Z := SFkey (Prim2SF x).

End Double.

(** ** The value model *)

(** A code point of a text.  [Value] holds a text as its code points:
    the UTF-8 bytes and glib's decoding of them ([g_utf8_strlen],
    [g_utf8_offset_to_pointer], [g_utf8_get_char]) are read as the
    length of, and the access into, this sequence.  The terminating NUL
    is not a code point of the text. *)
Definition glyph := positive.

(** Modelled from the spec: value.h and value.cc are not among the
    sources.  A value is [Undefined], a [Number] (a binary64 double, NaN
    and the infinities included), a [String] or a [Vector] of values. *)
Inductive Value : Type :=
| Undefined
| Number (d : float)
| String (s : list glyph)
| Vector (l : list Value).

Inductive ValueType : Type := UNDEFINED | NUMBER | STRING | VECTOR.

Module Val.

Local Open Scope float_scope.

Definition type (v : Value) : ValueType :=
  match v with
  | Undefined => UNDEFINED
  | Number _ => NUMBER
  | String _ => STRING
  | Vector _ => VECTOR
  end.

Definition ValueType_eqb (a b : ValueType) : bool :=
  match a, b with
  | UNDEFINED, UNDEFINED | NUMBER, NUMBER | STRING, STRING | VECTOR, VECTOR => true
  | _, _ => false
  end.

(** Modelled from the spec: [getDouble] succeeds on a [Number] only. *)
Definition getDouble (v : Value) : option float :=
  match v with Number d => Some d | _ => None end.

(** Modelled from the spec: [toDouble] is the number of a [Number];
    on another variant the double it hands back is 0. *)
Definition toDouble (v : Value) : float :=
  match getDouble v with Some d => d | None => 0 end.

(** Modelled from the spec: the vector view of a [Vector] is its
    elements; the view of another variant has no element. *)
Definition toVector (v : Value) : list Value :=
  match v with Vector l => l | _ => [] end.

(** Modelled from the spec: [getVec2] and [getVec3] succeed only on a
    [Vector] of exactly 2, or 3, [Number]s. *)
Definition getVec2 (v : Value) : option (float * float) :=
  match v with
  | Vector [Number x; Number y] => Some (x, y)
  | _ => None
  end.

Definition getVec3 (v : Value) : option (float * float * float) :=
  match v with
  | Vector [Number x; Number y; Number z] => Some (x, y, z)
  | _ => None
  end.

Fixpoint glyphs_eqb (s t : list glyph) : bool :=
  match s, t with
  | [], [] => true
  | a :: s', b :: t' => Pos.eqb a b && glyphs_eqb s' t'
  | _, _ => false
  end.

Fixpoint glyphs_ltb (s t : list glyph) : bool :=
  match s, t with
  | _, [] => false
  | [], _ :: _ => true
  | a :: s', b :: t' => Pos.ltb a b || (Pos.eqb a b && glyphs_ltb s' t')
  end.

(** Modelled from the spec: [operator==] compares values of the same
    variant (numbers as doubles, texts and vectors element by
    element); values of different variants are not equal. *)
Fixpoint eqb (a b : Value) : bool :=
  match a, b with
  | Undefined, Undefined => true
  | Number x, Number y => x =? y
  | String s, String t => glyphs_eqb s t
  | Vector l, Vector m =>
      (fix all2 (l m : list Value) : bool :=
         match l, m with
         | [], [] => true
         | x :: l', y :: m' => eqb x y && all2 l' m'
         | _, _ => false
         end) l m
  | _, _ => false
  end.

(** Modelled from the spec: [operator<] and [operator>] order values
    of the same variant (numbers as doubles, texts and vectors
    lexicographically); values of different variants are
    incomparable.  [ltgt a b] is the pair [(a < b, b < a)]. *)
Fixpoint ltgt (a b : Value) : bool * bool :=
  match a, b with
  | Number x, Number y => (x <? y, y <? x)
  | String s, String t => (glyphs_ltb s t, glyphs_ltb t s)
  | Vector l, Vector m =>
      (fix lex (l m : list Value) : bool * bool :=
         match l, m with
         | [], [] => (false, false)
         | [], _ :: _ => (true, false)
         | _ :: _, [] => (false, true)
         | x :: l', y :: m' =>
             let (lt, gt) := ltgt x y in
             if lt then (true, false)
             else if gt then (false, true)
             else lex l' m'
         end) l m
  | _, _ => (false, false)
  end.

Definition ltb (a b : Value) : bool := fst (ltgt a b).
Definition gtb (a b : Value) : bool := snd (ltgt a b).

Definition is_number (v : Value) : bool := ValueType_eqb (type v) NUMBER.
Definition is_vector (v : Value) : bool := ValueType_eqb (type v) VECTOR.
Definition is_string (v : Value) : bool := ValueType_eqb (type v) STRING.

End Val.

(** ** The call context *)

(** The evaluated arguments of one call, in order. *)
Definition EvalContext := list Value.

Definition numArgs (evalctx : EvalContext) : nat := length evalctx.

(** [getArgValue(i)]; every call of the source is below [numArgs()]. *)
Definition getArgValue (evalctx : EvalContext) (i : nat) : Value :=
  nth i evalctx Undefined.

(** ** Diagnostics and outcomes *)

(** The messages of [PRINT] and [PRINTB], one constructor for each text
    of the source, with the values it prints. *)
Inductive Diagnostic : Type :=
| WarnSearchTermNotFound (term : Value)
| WarnSearchNonePerformed (input : Value)
| WarnParentModuleNegative (n : Z)
| WarnParentModuleTooLarge (n : Z)
| WarnNormIncorrectArguments
| WarnCrossInvalidNumber
| WarnCrossInvalidType
| WarnCrossInvalidSize
| WarnCrossInvalidValue
| WarnCrossNaN
| WarnCrossInf.

(** What a call does: it returns a value, having printed [log], or it
    indexes a vector outside its bounds. *)
Inductive Outcome : Type :=
| Returns (v : Value) (log : list Diagnostic)
| OutOfBounds.

Definition silently (v : Value) : Outcome := Returns v [].

(** ** What the source takes from elsewhere *)

(** The functions of <math.h> that have no exact binary64 definition. *)
Module math.
Class Libm : Type := {
  sin : float -> float;
  cos : float -> float;
  asin : float -> float;
  acos : float -> float;
  tan : float -> float;
  atan : float -> float;
  atan2 : float -> float -> float;
  pow : float -> float -> float;
  round : float -> float;
  ceil : float -> float;
  exp : float -> float;
  log : float -> float
}.
End math.

(** [boost::mt19937] and [boost::uniform_real<>]: a generator state, its
    seeding and one draw from the distribution over [min, max). *)
Class Generator : Type := {
  mt19937 : Type;
  seed : Z -> mt19937;
  uniform_real : float -> float -> mt19937 -> float * mt19937
}.

(** The two generators of the process. *)
Record RngState {G : Generator} : Type := {
  deterministic_rng : mt19937;
  lessdeterministic_rng : mt19937
}.

(** The printing of a value that is not a text ([Value::toString] of
    value.cc) and the build's version macros. *)
Class Host : Type := {
  print_value : Value -> list glyph;
  OPENSCAD_YEAR : Z;
  OPENSCAD_MONTH : Z;
  OPENSCAD_DAY : option Z
}.

(** [Value::toString]: a text is its own printing. *)
Definition toString {H : Host} (v : Value) : list glyph :=
  match v with String s => s | _ => print_value v end.

(** ** The builtins *)

Import Val.

Section Scalar.

Context {M : math.Libm}.
Local Open Scope float_scope.

Definition deg2rad (x : float) : float := x * Double.M_PI / 180.
Definition rad2deg (x : float) : float := x * 180 / Double.M_PI.

Definition builtin_abs (evalctx : EvalContext) : Value :=
  if (numArgs evalctx =? 1)%nat then
    let v := getArgValue evalctx 0 in
    if is_number v then Number (Double.fabs (toDouble v)) else Undefined
  else Undefined.

Definition builtin_sign (evalctx : EvalContext) : Value :=
  if (numArgs evalctx =? 1)%nat then
    let v := getArgValue evalctx 0 in
    if is_number v then
      let x := toDouble v in
      Number (if x <? 0 then -1 else if 0 <? x then 1 else 0)
    else Undefined
  else Undefined.

(** [for (i = 1; i < n; ++i)] of [builtin_min], over the arguments
    after the first: a non-number leaves through [goto quit]. *)
Fixpoint min_scan (val : float) (rest : list Value) : Value :=
  match rest with
  | [] => Number val
  | v :: rest' =>
      if negb (is_number v) then Undefined
      else
        let x := toDouble v in
        min_scan (if x <? val then x else val) rest'
  end.

(** The loop of the single-vector mode of [builtin_min]. *)
Fixpoint min_element (min : Value) (rest : list Value) : Value :=
  match rest with
  | [] => min
  | v :: rest' => min_element (if Val.ltb v min then v else min) rest'
  end.

Definition builtin_min (evalctx : EvalContext) : Value :=
  let n := numArgs evalctx in
  if (1 <=? n)%nat then
    let v0 := getArgValue evalctx 0 in
    match (n =? 1)%nat && is_vector v0, toVector v0 with
    | true, first :: others => min_element first others
    | _, _ =>
        if is_number v0 then min_scan (toDouble v0) (tl evalctx)
        else Undefined
    end
  else Undefined.

Fixpoint max_scan (val : float) (rest : list Value) : Value :=
  match rest with
  | [] => Number val
  | v :: rest' =>
      if negb (is_number v) then Undefined
      else
        let x := toDouble v in
        max_scan (if val <? x then x else val) rest'
  end.

Fixpoint max_element (max : Value) (rest : list Value) : Value :=
  match rest with
  | [] => max
  | v :: rest' => max_element (if Val.gtb v max then v else max) rest'
  end.

Definition builtin_max (evalctx : EvalContext) : Value :=
  let n := numArgs evalctx in
  if (1 <=? n)%nat then
    let v0 := getArgValue evalctx 0 in
    match (n =? 1)%nat && is_vector v0, toVector v0 with
    | true, first :: others => max_element first others
    | _, _ =>
        if is_number v0 then max_scan (toDouble v0) (tl evalctx)
        else Undefined
    end
  else Undefined.

(** The domain reduction that [builtin_sin] and [builtin_cos] both
    spell out: an argument in [0, 360) stays, another one below
    [TRIG_HUGE_VAL] in magnitude loses its whole revolutions, and
    [None] stands for the [return Value(quiet_NaN)] of the last
    branch. *)
Definition reduce_degrees (x : float) : option float :=
  if (x <? 360) && (0 <=? x) then Some x
  else if (x <? Double.TRIG_HUGE_VAL) && (- Double.TRIG_HUGE_VAL <? x) then
    let revolutions := Double.floor (x / 360) in
    Some (x - 360 * revolutions)
  else None.

(** [builtin_sin] after the reduction. *)
Definition sin_reduced (x : float) : float :=
  let oppose := 180 <=? x in
  let x := if oppose then x - 180 else x in
  let x := if 90 <? x then 180 - x else x in
  let x :=
    if x <? 45 then
      if x =? 30 then 0.5 else math.sin (deg2rad x)
    else if x =? 45 then Double.M_SQRT1_2
    else math.cos (deg2rad (90 - x)) in
  if oppose then - x else x.

Definition builtin_sin (evalctx : EvalContext) : Value :=
  if (numArgs evalctx =? 1)%nat then
    let v := getArgValue evalctx 0 in
    if is_number v then
      match reduce_degrees (toDouble v) with
      | Some x => Number (sin_reduced x)
      | None => Number Double.quiet_NaN
      end
    else Undefined
  else Undefined.

(** [builtin_cos] after the reduction. *)
Definition cos_reduced (x : float) : float :=
  let oppose := 180 <=? x in
  let x := if oppose then x - 180 else x in
  let '(x, oppose) := if 90 <? x then (180 - x, negb oppose) else (x, oppose) in
  let x :=
    if 45 <? x then
      if x =? 60 then 0.5 else math.sin (deg2rad (90 - x))
    else if x =? 45 then Double.M_SQRT1_2
    else math.cos (deg2rad x) in
  if oppose then - x else x.

Definition builtin_cos (evalctx : EvalContext) : Value :=
  if (numArgs evalctx =? 1)%nat then
    let v := getArgValue evalctx 0 in
    if is_number v then
      match reduce_degrees (toDouble v) with
      | Some x => Number (cos_reduced x)
      | None => Number Double.quiet_NaN
      end
    else Undefined
  else Undefined.

(** The builtins of one number that hand it to one function. *)
Definition unary (f : float -> float) (evalctx : EvalContext) : Value :=
  if (numArgs evalctx =? 1)%nat then
    let v := getArgValue evalctx 0 in
    if is_number v then Number (f (toDouble v)) else Undefined
  else Undefined.

Definition builtin_asin := unary (fun x => rad2deg (math.asin x)).
Definition builtin_acos := unary (fun x => rad2deg (math.acos x)).
Definition builtin_tan := unary (fun x => math.tan (deg2rad x)).
Definition builtin_atan := unary (fun x => rad2deg (math.atan x)).
Definition builtin_round := unary math.round.
Definition builtin_ceil := unary math.ceil.
Definition builtin_floor := unary Double.floor.
Definition builtin_sqrt := unary PrimFloat.sqrt.
Definition builtin_exp := unary math.exp.
Definition builtin_ln := unary math.log.

Definition builtin_atan2 (evalctx : EvalContext) : Value :=
  if (numArgs evalctx =? 2)%nat then
    let v0 := getArgValue evalctx 0 in
    let v1 := getArgValue evalctx 1 in
    if is_number v0 && is_number v1
    then Number (rad2deg (math.atan2 (toDouble v0) (toDouble v1)))
    else Undefined
  else Undefined.

Definition builtin_pow (evalctx : EvalContext) : Value :=
  if (numArgs evalctx =? 2)%nat then
    let v0 := getArgValue evalctx 0 in
    let v1 := getArgValue evalctx 1 in
    if is_number v0 && is_number v1
    then Number (math.pow (toDouble v0) (toDouble v1))
    else Undefined
  else Undefined.

Definition builtin_log (evalctx : EvalContext) : Value :=
  let n := numArgs evalctx in
  if (n =? 1)%nat || (n =? 2)%nat then
    let v0 := getArgValue evalctx 0 in
    if is_number v0 then
      let x := 10 in
      let y := toDouble v0 in
      if (1 <? n)%nat then
        let v1 := getArgValue evalctx 1 in
        if negb (is_number v1) then Undefined
        else
          let x := y in
          let y := toDouble v1 in
          Number (math.log y / math.log x)
      else Number (math.log y / math.log x)
    else Undefined
  else Undefined.

End Scalar.

Section Randomness.

Context {G : Generator}.
Local Open Scope float_scope.

(** The drawing loop of [builtin_rands]: [numresults] draws from the
    chosen generator, each one advancing it. *)
Fixpoint draw (numresults : nat) (min max : float) (deterministic : bool)
         (rng : RngState) : list Value * RngState :=
  match numresults with
  | O => ([], rng)
  | S k =>
      if deterministic then
        let (x, g) := uniform_real min max (deterministic_rng rng) in
        let (vec, rng') :=
          draw k min max deterministic
            {| deterministic_rng := g;
               lessdeterministic_rng := lessdeterministic_rng rng |} in
        (Number x :: vec, rng')
      else
        let (x, g) := uniform_real min max (lessdeterministic_rng rng) in
        let (vec, rng') :=
          draw k min max deterministic
            {| deterministic_rng := deterministic_rng rng;
               lessdeterministic_rng := g |} in
        (Number x :: vec, rng')
  end.

(** [builtin_rands], with the two generators of the process passed in
    and out. *)
Definition builtin_rands (evalctx : EvalContext) (rng : RngState)
  : Value * RngState :=
  let n := numArgs evalctx in
  if (n =? 3)%nat || (n =? 4)%nat then
    let v0 := getArgValue evalctx 0 in
    if negb (is_number v0) then (Undefined, rng) else
    let min := toDouble v0 in
    let v1 := getArgValue evalctx 1 in
    if negb (is_number v1) then (Undefined, rng) else
    let max := toDouble v1 in
    let '(min, max) := if max <? min then (max, min) else (min, max) in
    let v2 := getArgValue evalctx 2 in
    if negb (is_number v2) then (Undefined, rng) else
    let numresults := Z.to_nat (Z.max 0 (Double.to_int (toDouble v2))) in
    let v3 := getArgValue evalctx 3 in
    if (3 <? n)%nat && negb (is_number v3) then (Undefined, rng) else
    let rng :=
      if (3 <? n)%nat
      then {| deterministic_rng := seed (Double.to_uint (toDouble v3));
              lessdeterministic_rng := lessdeterministic_rng rng |}
      else rng in
    let deterministic := (3 <? n)%nat in
    if min =? max then
      (Vector (repeat (Number min) numresults), rng)
    else
      let (vec, rng') := draw numresults min max deterministic rng in
      (Vector vec, rng')
  else (Undefined, rng).

End Randomness.

Section Collections.

Context {H : Host}.
Local Open Scope float_scope.

Definition builtin_length (evalctx : EvalContext) : Value :=
  if (numArgs evalctx =? 1)%nat then
    let v := getArgValue evalctx 0 in
    if is_vector v then Number (Double.of_nat (length (toVector v)))
    else if is_string v then Number (Double.of_nat (length (toString v)))
    else Undefined
  else Undefined.

Definition builtin_str (evalctx : EvalContext) : Value :=
  String (flat_map toString evalctx).

Definition builtin_concat (evalctx : EvalContext) : Value :=
  Vector (flat_map (fun v => if is_vector v then toVector v else [v]) evalctx).

Definition builtin_version (evalctx : EvalContext) : Value :=
  Vector (Number (Double.of_Z OPENSCAD_YEAR)
          :: Number (Double.of_Z OPENSCAD_MONTH)
          :: match OPENSCAD_DAY with
             | Some day => [Number (Double.of_Z day)]
             | None => []
             end).

Definition builtin_version_num (evalctx : EvalContext) : Value :=
  let val := if (numArgs evalctx =? 0)%nat then builtin_version evalctx
             else getArgValue evalctx 0 in
  match getVec3 val with
  | Some (y, m, d) => Number (y * 10000 + m * 100 + d)
  | None =>
      match getVec2 val with
      | Some (y, m) => Number (y * 10000 + m * 100 + 0)
      | None => Undefined
      end
  end.

End Collections.

(** [builtin_parent_module], with the stack of [Module] passed in:
    [stack_size()] is its length and [stack_element(i)] its [i]-th
    name. *)
Definition builtin_parent_module (stack : list (list glyph)) (evalctx : EvalContext)
  : Outcome :=
  let s := Z.of_nat (length stack) in
  let with_index (d : float) : Outcome :=
    let n := Double.to_int (Double.trunc d) in
    if (n <? 0)%Z then Returns Undefined [WarnParentModuleNegative n]
    else if (s <=? n)%Z then Returns Undefined [WarnParentModuleTooLarge n]
    else
      match nth_error stack (Z.to_nat (s - 1 - n)) with
      | Some name => silently (String name)
      | None => OutOfBounds
      end in
  if (numArgs evalctx =? 0)%nat then with_index 1%float
  else if (numArgs evalctx =? 1)%nat then
    let v := getArgValue evalctx 0 in
    if negb (is_number v) then silently Undefined
    else with_index (toDouble v)
  else silently Undefined.

Section Vectors.

Local Open Scope float_scope.

(** The loop of [builtin_norm]: the sum of the squares, or [None] at
    the first element that is not a number. *)
Fixpoint norm_sum (sum : float) (v : list Value) : option float :=
  match v with
  | [] => Some sum
  | e :: v' =>
      if is_number e then
        let x := toDouble e in
        norm_sum (sum + x * x) v'
      else None
  end.

Definition builtin_norm (evalctx : EvalContext) : Value * list Diagnostic :=
  if (numArgs evalctx =? 1)%nat then
    let val := getArgValue evalctx 0 in
    if is_vector val then
      match norm_sum 0 (toVector val) with
      | Some sum => (Number (PrimFloat.sqrt sum), [])
      | None => (Undefined, [WarnNormIncorrectArguments])
      end
    else (Undefined, [])
  else (Undefined, []).

(** The checking loop of [builtin_cross] over the three components:
    the diagnostic of the first component that is refused. *)
Fixpoint cross_check (v0 v1 : list Value) : option Diagnostic :=
  match v0, v1 with
  | e0 :: v0', e1 :: v1' =>
      if negb (is_number e0) || negb (is_number e1)
      then Some WarnCrossInvalidValue
      else
        let d0 := toDouble e0 in
        let d1 := toDouble e1 in
        if is_nan d0 || is_nan d1 then Some WarnCrossNaN
        else if is_infinity d0 || is_infinity d1 then Some WarnCrossInf
        else cross_check v0' v1'
  | _, _ => None
  end.

Definition builtin_cross (evalctx : EvalContext) : Value * list Diagnostic :=
  if negb (numArgs evalctx =? 2)%nat then (Undefined, [WarnCrossInvalidNumber])
  else
    let arg0 := getArgValue evalctx 0 in
    let arg1 := getArgValue evalctx 1 in
    if negb (is_vector arg0) || negb (is_vector arg1)
    then (Undefined, [WarnCrossInvalidType])
    else
      let v0 := toVector arg0 in
      let v1 := toVector arg1 in
      if negb (length v0 =? 3)%nat || negb (length v1 =? 3)%nat
      then (Undefined, [WarnCrossInvalidSize])
      else
        match cross_check v0 v1 with
        | Some w => (Undefined, [w])
        | None =>
            let c (v : list Value) (i : nat) := toDouble (nth i v Undefined) in
            let x := c v0 1%nat * c v1 2%nat - c v0 2%nat * c v1 1%nat in
            let y := c v0 2%nat * c v1 0%nat - c v0 0%nat * c v1 2%nat in
            let z := c v0 0%nat * c v1 1%nat - c v0 1%nat * c v1 0%nat in
            (Vector [Number x; Number y; Number z], [])
        end.

End Vectors.

Section Lookup.

Local Open Scope float_scope.

(** The four locals [low_p], [low_v], [high_p], [high_v]. *)
Record Bracket : Type := {
  low_p : float; low_v : float;
  high_p : float; high_v : float
}.

(** One turn of the loop of [builtin_lookup] on the row [row]. *)
Definition lookup_step (p : float) (b : Bracket) (row : Value) : Bracket :=
  match getVec2 row with
  | Some (this_p, this_v) =>
      let b :=
        if (this_p <=? p) && ((low_p b <? this_p) || (p <? low_p b))
        then {| low_p := this_p; low_v := this_v;
                high_p := high_p b; high_v := high_v b |}
        else b in
      if (p <=? this_p) && ((this_p <? high_p b) || (high_p b <? p))
      then {| low_p := low_p b; low_v := low_v b;
              high_p := this_p; high_v := this_v |}
      else b
  | None => b
  end.

(** [for (i = 1; i < size; i++)], over the rows after the first. *)
Fixpoint lookup_scan (p : float) (b : Bracket) (rows : list Value) : Bracket :=
  match rows with
  | [] => b
  | row :: rows' => lookup_scan p (lookup_step p b row) rows'
  end.

Definition builtin_lookup (evalctx : EvalContext) : Outcome :=
  if (numArgs evalctx <? 2)%nat then silently Undefined
  else
    match getDouble (getArgValue evalctx 0) with
    | None => silently Undefined
    | Some p =>
        let table := toVector (getArgValue evalctx 1) in
        match nth_error table 0 with
        | None => OutOfBounds
        | Some row0 =>
            if (length (toVector row0) <? 2)%nat then silently Undefined
            else
              match getVec2 row0 with
              | None => silently Undefined
              | Some (p0, v0) =>
                  let b := lookup_scan p
                             {| low_p := p0; low_v := v0;
                                high_p := p0; high_v := v0 |}
                             (tl table) in
                  if p <=? low_p b then silently (Number (high_v b))
                  else if high_p b <=? p then silently (Number (low_v b))
                  else
                    let f := (p - low_p b) / (high_p b - low_p b) in
                    silently (Number (high_v b * f + low_v b * (1 - f)))
              end
        end
    end.

End Lookup.

Section Search.

Context {H : Host}.
Local Open Scope float_scope.

(** The inner [for (j ...)] loop that the two [search] functions and
    the vector-needle branch of [builtin_search] spell out alike.
    [test] tells whether the table's element matches; it is [None]
    when the comparison indexes a vector outside its bounds.  The
    result is [matchCount], [resultvec] and [returnvec] at the loop's
    end. *)
Fixpoint match_loop {A : Type} (test : A -> option bool)
         (num_returns_per_match : nat) (table : list A) (j : nat)
         (matchCount : nat) (resultvec returnvec : list Value)
  : option (nat * list Value * list Value) :=
  match table with
  | [] => Some (matchCount, resultvec, returnvec)
  | e :: table' =>
      match test e with
      | None => None
      | Some false =>
          match_loop test num_returns_per_match table' (S j)
            matchCount resultvec returnvec
      | Some true =>
          let matchCount := S matchCount in
          if (num_returns_per_match =? 1)%nat then
            Some (matchCount, resultvec, returnvec ++ [Number (Double.of_nat j)])
          else
            let resultvec := resultvec ++ [Number (Double.of_nat j)] in
            if (1 <? num_returns_per_match)%nat
               && (num_returns_per_match <=? matchCount)%nat
            then Some (matchCount, resultvec, returnvec)
            else
              match_loop test num_returns_per_match table' (S j)
                matchCount resultvec returnvec
      end
  end.

(** The outer [for (i ...)] loop of the two [search] functions, over
    the code points of [find]. *)
Fixpoint search_glyphs {A : Type} (test : glyph -> A -> option bool)
         (num_returns_per_match : nat) (find : list glyph) (table : list A)
         (returnvec : list Value) (log : list Diagnostic)
  : option (list Value * list Diagnostic) :=
  match find with
  | [] => Some (returnvec, log)
  | g :: find' =>
      match match_loop (test g) num_returns_per_match table 0 0 [] returnvec with
      | None => None
      | Some (matchCount, resultvec, returnvec) =>
          let log :=
            if (matchCount =? 0)%nat
            then log ++ [WarnSearchTermNotFound (String [g])]
            else log in
          let returnvec :=
            if (num_returns_per_match =? 0)%nat || (1 <? num_returns_per_match)%nat
            then returnvec ++ [Vector resultvec]
            else returnvec in
          search_glyphs test num_returns_per_match find' table returnvec log
      end
  end.

(** [search(const std::string &find, const std::string &table, ...)] *)
Definition search_str (find table : list glyph)
           (num_returns_per_match index_col_num : nat)
  : option (list Value * list Diagnostic) :=
  search_glyphs (fun g c => Some (Pos.eqb g c))
                num_returns_per_match find table [] [].

(** The comparison of the vector-table [search]: the first code point
    of the printing of [table[j].toVector()[index_col_num]]. *)
Definition first_glyph_matches (index_col_num : nat) (g : glyph) (row : Value)
  : option bool :=
  match nth_error (toVector row) index_col_num with
  | None => None
  | Some cell =>
      match toString cell with
      | [] => Some false
      | c :: _ => Some (Pos.eqb g c)
      end
  end.

(** [search(const std::string &find, const Value::VectorType &table, ...)] *)
Definition search_vec (find : list glyph) (table : list Value)
           (num_returns_per_match index_col_num : nat)
  : option (list Value * list Diagnostic) :=
  search_glyphs (first_glyph_matches index_col_num)
                num_returns_per_match find table [] [].

(** The comparison of the number and vector needles:
    [index_col_num == 0 && find == e ||
     index_col_num < e.toVector().size() && find == e.toVector()[index_col_num]]. *)
Definition element_matches (index_col_num : nat) (find_value : Value)
           (search_element : Value) : option bool :=
  if (index_col_num =? 0)%nat && Val.eqb find_value search_element then Some true
  else if (index_col_num <? length (toVector search_element))%nat then
    match nth_error (toVector search_element) index_col_num with
    | Some cell => Some (Val.eqb find_value cell)
    | None => None
    end
  else Some false.

(** The loop of the number needle. *)
Fixpoint number_loop (findThis : Value) (num_returns_per_match index_col_num : nat)
         (table : list Value) (j : nat) (matchCount : nat)
         (returnvec : list Value) : option (list Value) :=
  match table with
  | [] => Some returnvec
  | search_element :: table' =>
      match element_matches index_col_num findThis search_element with
      | None => None
      | Some false =>
          number_loop findThis num_returns_per_match index_col_num table' (S j)
            matchCount returnvec
      | Some true =>
          let returnvec := returnvec ++ [Number (Double.of_nat j)] in
          let matchCount := S matchCount in
          if negb (num_returns_per_match =? 0)%nat
             && (num_returns_per_match <=? matchCount)%nat
          then Some returnvec
          else
            number_loop findThis num_returns_per_match index_col_num table' (S j)
              matchCount returnvec
      end
  end.

(** The outer loop of the vector needle. *)
Fixpoint vector_loop (find : list Value) (num_returns_per_match index_col_num : nat)
         (table : list Value) (returnvec : list Value) (log : list Diagnostic)
  : option (list Value * list Diagnostic) :=
  match find with
  | [] => Some (returnvec, log)
  | find_value :: find' =>
      match match_loop (element_matches index_col_num find_value)
              num_returns_per_match table 0 0 [] returnvec with
      | None => None
      | Some (matchCount, resultvec, returnvec) =>
          let unmatched := (num_returns_per_match =? 1)%nat && (matchCount =? 0)%nat in
          let log :=
            if unmatched && (is_number find_value || is_string find_value)
            then log ++ [WarnSearchTermNotFound find_value]
            else log in
          let returnvec :=
            if unmatched then returnvec ++ [Vector resultvec] else returnvec in
          let returnvec :=
            if (num_returns_per_match =? 0)%nat || (1 <? num_returns_per_match)%nat
            then returnvec ++ [Vector resultvec]
            else returnvec in
          vector_loop find' num_returns_per_match index_col_num table returnvec log
      end
  end.

(** The locals [num_returns_per_match] and [index_col_num] of
    [builtin_search]: the third and fourth arguments as [unsigned int],
    1 and 0 when they are absent. *)
Definition returns_per_match_arg (evalctx : EvalContext) : nat :=
  if (2 <? numArgs evalctx)%nat
  then Z.to_nat (Double.to_uint (toDouble (getArgValue evalctx 2)))
  else 1%nat.

Definition index_col_arg (evalctx : EvalContext) : nat :=
  if (3 <? numArgs evalctx)%nat
  then Z.to_nat (Double.to_uint (toDouble (getArgValue evalctx 3)))
  else 0%nat.

(** [return Value(returnvec)], or the fault of the loop. *)
Definition search_result (r : option (list Value * list Diagnostic)) : Outcome :=
  match r with
  | Some (returnvec, log) => Returns (Vector returnvec) log
  | None => OutOfBounds
  end.

Definition builtin_search (evalctx : EvalContext) : Outcome :=
  if (numArgs evalctx <? 2)%nat then silently Undefined
  else
    let findThis := getArgValue evalctx 0 in
    let searchTable := getArgValue evalctx 1 in
    let num_returns_per_match := returns_per_match_arg evalctx in
    let index_col_num := index_col_arg evalctx in
    match findThis with
    | Number _ =>
        search_result
          (option_map (fun returnvec => (returnvec, []))
             (number_loop findThis num_returns_per_match index_col_num
                (toVector searchTable) 0 0 []))
    | String find =>
        match searchTable with
        | String table =>
            search_result (search_str find table num_returns_per_match index_col_num)
        | _ =>
            search_result (search_vec find (toVector searchTable)
                             num_returns_per_match index_col_num)
        end
    | Vector find =>
        search_result (vector_loop find num_returns_per_match index_col_num
                         (toVector searchTable) [] [])
    | Undefined => Returns Undefined [WarnSearchNonePerformed findThis]
    end.

End Search.

(** ** The registry *)

(** The names [register_builtin_functions] registers, [len] being the
    name of [builtin_length]. *)
Inductive Builtin : Type :=
| f_abs | f_sign | f_rands | f_min | f_max | f_sin | f_cos | f_asin | f_acos
| f_tan | f_atan | f_atan2 | f_round | f_ceil | f_floor | f_pow | f_sqrt
| f_exp | f_len | f_log | f_ln | f_str | f_concat | f_lookup | f_search
| f_version | f_version_num | f_norm | f_cross | f_parent_module.

Section Registry.

Context {M : math.Libm} {G : Generator} {H : Host}.

(** [BuiltinFunction::evaluate]: the call of the registered function,
    in the process's state: the module stack, which no builtin
    changes, and the two generators. *)
Definition evaluate (f : Builtin) (stack : list (list glyph))
           (evalctx : EvalContext) (rng : RngState) : Outcome * RngState :=
  let pure (v : Value) := (silently v, rng) in
  let printing (r : Value * list Diagnostic) := (Returns (fst r) (snd r), rng) in
  match f with
  | f_abs => pure (builtin_abs evalctx)
  | f_sign => pure (builtin_sign evalctx)
  | f_rands =>
      let (v, rng') := builtin_rands evalctx rng in (silently v, rng')
  | f_min => pure (builtin_min evalctx)
  | f_max => pure (builtin_max evalctx)
  | f_sin => pure (builtin_sin evalctx)
  | f_cos => pure (builtin_cos evalctx)
  | f_asin => pure (builtin_asin evalctx)
  | f_acos => pure (builtin_acos evalctx)
  | f_tan => pure (builtin_tan evalctx)
  | f_atan => pure (builtin_atan evalctx)
  | f_atan2 => pure (builtin_atan2 evalctx)
  | f_round => pure (builtin_round evalctx)
  | f_ceil => pure (builtin_ceil evalctx)
  | f_floor => pure (builtin_floor evalctx)
  | f_pow => pure (builtin_pow evalctx)
  | f_sqrt => pure (builtin_sqrt evalctx)
  | f_exp => pure (builtin_exp evalctx)
  | f_len => pure (builtin_length evalctx)
  | f_log => pure (builtin_log evalctx)
  | f_ln => pure (builtin_ln evalctx)
  | f_str => pure (builtin_str evalctx)
  | f_concat => pure (builtin_concat evalctx)
  | f_lookup => (builtin_lookup evalctx, rng)
  | f_search => (builtin_search evalctx, rng)
  | f_version => pure (builtin_version evalctx)
  | f_version_num => pure (builtin_version_num evalctx)
  | f_norm => printing (builtin_norm evalctx)
  | f_cross => printing (builtin_cross evalctx)
  | f_parent_module => (builtin_parent_module stack evalctx, rng)
  end.

End Registry.

(** ** Instances for the examples *)

(** A host that prints every value that is not a text as the empty
    text, built in March 2014. *)
Definition plain_host : Host :=
  {| print_value := fun _ => [];
     OPENSCAD_YEAR := 2014; OPENSCAD_MONTH := 3; OPENSCAD_DAY := None |}.

(** A generator whose state is the number of draws since its seeding;
    every draw hands back the lower bound. *)
Definition counting : Generator :=
  {| mt19937 := nat;
     seed := fun _ => O;
     uniform_real := fun min _ draws => (min, S draws) |}.

(** A libm whose functions hand their argument back. *)
Definition identity_libm : math.Libm :=
  {| math.sin := fun x => x; math.cos := fun x => x;
     math.asin := fun x => x; math.acos := fun x => x;
     math.tan := fun x => x; math.atan := fun x => x;
     math.atan2 := fun y _ => y; math.pow := fun x _ => x;
     math.round := fun x => x; math.ceil := fun x => x;
     math.exp := fun x => x; math.log := fun x => x |}.

(** ** Notions of the specification *)

(** No double of the list is NaN. *)
Definition no_nan (xs : list float) : Prop :=
  forall x, In x xs -> is_nan x = false.

(** The numbers of a list of arguments that are all numbers. *)
Definition numbers (args : list Value) : list float := map toDouble args.

(** A row of a lookup table that [getVec2] accepts: a vector of exactly
    two numbers. *)
Definition is_pair (row : Value) : bool :=
  match getVec2 row with Some _ => true | None => false end.

(** The optional fourth argument of [rands]. *)
Definition seed_argument (s : option float) : list Value :=
  match s with Some d => [Number d] | None => [] end.

(** The generators after the reseeding, if any, of a call of [rands]. *)
Definition reseeded {G : Generator} (s : option float) (rng : RngState) : RngState :=
  match s with
  | Some d => {| deterministic_rng := seed (Double.to_uint d);
                 lessdeterministic_rng := lessdeterministic_rng rng |}
  | None => rng
  end.

(** The two generators of [counting], by their draw counts. *)
Definition counters (deterministic less : nat) : @RngState counting :=
  @Build_RngState counting deterministic less.

(** *** The signatures of the builtins

    The signature of each builtin as the specification writes it: the
    scalar functions take exactly one number ([atan2] and [pow] two,
    [log] one or two); [min] and [max] take either one vector or one
    or more numbers; [norm] takes one vector and [cross] two;
    [search(needle, haystack, returnsPerMatch=1, indexColumn=0)] takes
    two to four arguments, the last two numbers;
    [lookup(position, table)] takes a number and a vector;
    [rands(min, max, count, seed?)] takes three or four numbers;
    [version()] and [version_num()] take no argument;
    [parent_module(n=1)] takes at most one number; [concat] takes any
    arguments.  The specification gives no signature for [len] and
    [str]: [len] is taken with one text or vector, [str] with any
    arguments. *)

Definition arity_ok (f : Builtin) (n : nat) : bool :=
  match f with
  | f_abs | f_sign | f_sin | f_cos | f_asin | f_acos | f_tan | f_atan
  | f_round | f_ceil | f_floor | f_sqrt | f_exp | f_ln | f_len | f_norm =>
      (n =? 1)%nat
  | f_atan2 | f_pow | f_cross | f_lookup => (n =? 2)%nat
  | f_log => (n =? 1)%nat || (n =? 2)%nat
  | f_rands => (n =? 3)%nat || (n =? 4)%nat
  | f_min | f_max => (1 <=? n)%nat
  | f_search => (2 <=? n)%nat && (n <=? 4)%nat
  | f_parent_module => (n <=? 1)%nat
  | f_version | f_version_num => (n =? 0)%nat
  | f_str | f_concat => true
  end.

(** The needle and haystack variants that [search] pairs: a number
    with a vector, a text with a text or a vector, a vector with a
    vector. *)
Definition haystack_ok (needle table : Value) : bool :=
  (is_number needle && is_vector table)
  || (is_string needle && (is_string table || is_vector table))
  || (is_vector needle && is_vector table).

Definition types_ok (f : Builtin) (args : list Value) : bool :=
  let a0 := nth 0 args Undefined in
  let a1 := nth 1 args Undefined in
  match f with
  | f_abs | f_sign | f_sin | f_cos | f_asin | f_acos | f_tan | f_atan
  | f_round | f_ceil | f_floor | f_sqrt | f_exp | f_ln => is_number a0
  | f_atan2 | f_pow | f_log | f_rands | f_parent_module => forallb is_number args
  | f_min | f_max =>
      ((length args =? 1)%nat && is_vector a0) || forallb is_number args
  | f_len => is_vector a0 || is_string a0
  | f_norm => is_vector a0
  | f_cross => is_vector a0 && is_vector a1
  | f_lookup => is_number a0 && is_vector a1
  | f_search => haystack_ok a0 a1 && forallb is_number (skipn 2 args)
  | f_str | f_concat | f_version | f_version_num => true
  end.

(** A call within the contract: neither an arity mismatch nor a type
    mismatch. *)
Definition well_typed (f : Builtin) (args : list Value) : bool :=
  arity_ok f (length args) && types_ok f args.




(** *** The result shape of search *)

(** The positions, from [j] on, of the elements of [table] that
    [test] accepts. *)
Fixpoint positions {A : Type} (test : A -> bool) (table : list A) (j : nat) : list nat :=
  match table with
  | [] => []
  | e :: table' =>
      if test e then j :: positions test table' (S j) else positions test table' (S j)
  end.

(** At most [num_returns_per_match] of the matches, all of them at 0. *)
Definition cap (num_returns_per_match : nat) (matches : list nat) : list nat :=
  if (num_returns_per_match =? 0)%nat then matches
  else firstn num_returns_per_match matches.

(** Positions as the numbers of a result. *)
Definition indices (matches : list nat) : list Value :=
  map (fun j => Number (Double.of_nat j)) matches.

(** The result shape policy of the specification, from the matches of
    each needle element: at 1 a flat sequence, one index for each
    needle element that has a match; otherwise one sub-sequence for
    each needle element, capped, and present even when empty. *)
Definition search_shape (num_returns_per_match : nat) (per_needle : list (list nat))
  : list Value :=
  if (num_returns_per_match =? 1)%nat
  then flat_map (fun matches => indices (firstn 1 matches)) per_needle
  else map (fun matches => Vector (indices (cap num_returns_per_match matches))) per_needle.

(** The shape of the vector needle's result: as [search_shape], but at
    1 a needle element without a match leaves an empty vector. *)
Definition vector_needle_shape (num_returns_per_match : nat)
           (per_needle : list (list nat)) : list Value :=
  if (num_returns_per_match =? 1)%nat
  then flat_map (fun matches =>
                   match matches with
                   | [] => [Vector []]
                   | j :: _ => [Number (Double.of_nat j)]
                   end) per_needle
  else search_shape num_returns_per_match per_needle.

(** The shape of the number needle's result: the capped matches of the
    one needle, flat at every [num_returns_per_match]. *)
Definition number_needle_shape (num_returns_per_match : nat) (matches : list nat)
  : list Value :=
  indices (cap num_returns_per_match matches).

(** The comparison of [element_matches], where it is defined. *)
Definition element_test (index_col_num : nat) (find_value search_element : Value) : bool :=
  ((index_col_num =? 0)%nat && Val.eqb find_value search_element)
  || ((index_col_num <? length (toVector search_element))%nat
      && Val.eqb find_value (nth index_col_num (toVector search_element) Undefined)).

(** The comparison of [first_glyph_matches], where it is defined. *)
Definition first_glyph_test {H : Host} (index_col_num : nat) (g : glyph) (row : Value)
  : bool :=
  match toString (nth index_col_num (toVector row) Undefined) with
  | [] => false
  | c :: _ => Pos.eqb g c
  end.

(** The warnings of the two text searches: one for each code point of
    the needle without a match. *)
Definition glyph_warnings (find : list glyph) (per_needle : list (list nat))
  : list Diagnostic :=
  flat_map (fun gm => match snd gm with
                      | [] => [WarnSearchTermNotFound (String [fst gm])]
                      | _ :: _ => []
                      end)
           (combine find per_needle).

(** The warnings of the vector needle: at 1, one for each number or
    text of the needle without a match. *)
Definition element_warnings (num_returns_per_match : nat) (find : list Value)
           (per_needle : list (list nat)) : list Diagnostic :=
  flat_map (fun vm => match snd vm with
                      | [] =>
                          if (num_returns_per_match =? 1)%nat
                             && (is_number (fst vm) || is_string (fst vm))
                          then [WarnSearchTermNotFound (fst vm)]
                          else []
                      | _ :: _ => []
                      end)
           (combine find per_needle).

(** *** The table of lookup *)

(** A row of a table: a position and the value at it. *)
Abbreviation Row := (float * float)%type.

Definition row_value (r : Row) : Value := Vector [Number (fst r); Number (snd r)].

(** The first row of lowest position, and the first row of highest
    position, of the table [first :: rest]. *)
Definition lower (best r : Row) : Row :=
  if (fst r <? fst best)%float then r else best.

Definition higher (best r : Row) : Row :=
  if (fst best <? fst r)%float then r else best.

Definition lowest (first : Row) (rest : list Row) : Row := fold_left lower rest first.
Definition highest (first : Row) (rest : list Row) : Row := fold_left higher rest first.

(** The bracketing rows of [p]: the first row of highest position
    among those at or below [p], and the first row of lowest position
    among those at or above [p]. *)
Definition nearest_below (p : float) (rows : list Row) : option Row :=
  match filter (fun r => (fst r <=? p)%float) rows with
  | [] => None
  | x :: xs => Some (highest x xs)
  end.

Definition nearest_above (p : float) (rows : list Row) : option Row :=
  match filter (fun r => (p <=? fst r)%float) rows with
  | [] => None
  | x :: xs => Some (lowest x xs)
  end.

(** The first row whose position is [p]. *)
Definition at_position (p : float) (rows : list Row) : option Row :=
  find (fun r => (fst r =? p)%float) rows.

(** [high_v * f + low_v * (1 - f)] with [f = (p - low_p) / (high_p - low_p)]. *)
Definition interpolate (p : float) (low high : Row) : float :=
  let f := ((p - fst low) / (fst high - fst low))%float in
  (snd high * f + snd low * (1 - f))%float.

(** The bracket of [p] in the rows [rows], with the row [first]
    standing in for a side on which [rows] has no row. *)
Definition bracket_of (first : Row) (p : float) (rows : list Row) : Bracket :=
  let l := match nearest_below p rows with Some r => r | None => first end in
  let h := match nearest_above p rows with Some r => r | None => first end in
  {| low_p := fst l; low_v := snd l; high_p := fst h; high_v := snd h |}.

(** A row whose position is a number that compares: not NaN. *)
Definition has_position (r : Row) : bool := negb (is_nan (fst r)).

(** *** The integer degrees

    The whole numbers of degrees on which the reduction of [sin] and
    [cos] is checked one by one. *)
Definition degree_bound : Z := 100000.

(** [f] holds on the [p] integers from [b] on. *)
Fixpoint all_range (p : positive) (f : Z -> bool) (b : Z) : bool :=
  match p with
  | xH => f b
  | xO p' => all_range p' f b && all_range p' f (b + Zpos p')
  | xI p' => f b && all_range p' f (b + 1) && all_range p' f (b + 1 + Zpos p')
  end.

(** The reduction of [n] degrees is the double [n mod 360], and that
    one is in [0, 360). *)
Definition reduced_ok (n : Z) : bool :=
  match reduce_degrees (Double.of_Z n) with
  | Some r =>
      PrimFloat.Leibniz.eqb r (Double.of_Z (n mod 360))
      && (0 <=? r)%float && (r <? 360)%float
  | None => false
  end.

(** ** Notions of the further properties *)

(** A double that is neither NaN nor an infinity. *)
Definition finite (d : float) : bool := negb (is_nan d) && negb (is_infinity d).

Definition finite_number (v : Value) : bool :=
  match v with Number d => finite d | _ => false end.

(** The operands [cross] accepts: two vectors of three finite numbers. *)
Definition cross_operands (evalctx : EvalContext)
  : option ((float * float * float) * (float * float * float)) :=
  match evalctx with
  | [Vector [Number a0; Number a1; Number a2]; Vector [Number b0; Number b1; Number b2]] =>
      if forallb finite [a0; a1; a2; b0; b1; b2]
      then Some ((a0, a1, a2), (b0, b1, b2)) else None
  | _ => None
  end.

(** The cross product of two triples, each operation rounded. *)
Definition cross_product (a b : float * float * float) : Value :=
  let '(a0, a1, a2) := a in
  let '(b0, b1, b2) := b in
  Vector [Number (a1 * b2 - a2 * b1)%float;
          Number (a2 * b0 - a0 * b2)%float;
          Number (a0 * b1 - a1 * b0)%float].

(** The number of elements an argument adds to the result of [concat]. *)
Definition concat_size (v : Value) : nat :=
  if is_vector v then length (toVector v) else 1%nat.

(** The index a call of [parent_module] asks for: its argument cut to
    an [int], 1 without an argument; [None] for a call outside the
    contract. *)
Definition parent_index (evalctx : EvalContext) : option Z :=
  match evalctx with
  | [] => Some (Double.to_int (Double.trunc 1))
  | [Number d] => Some (Double.to_int (Double.trunc d))
  | _ => None
  end.

(** The number of results a call of [rands] asks for: the third
    argument cut to an [int], and 0 when that is negative. *)
Definition rands_count (count : float) : nat :=
  Z.to_nat (Z.max 0 (Double.to_int count)).

(** The variant of the result of the builtins that, within their
    contract, return a value of one variant. *)
Definition result_type (f : Builtin) : option ValueType :=
  match f with
  | f_abs | f_sign | f_sin | f_cos | f_asin | f_acos | f_tan | f_atan | f_atan2
  | f_round | f_ceil | f_floor | f_pow | f_sqrt | f_exp | f_log | f_ln | f_len =>
      Some NUMBER
  | f_str => Some STRING
  | f_rands | f_concat | f_version => Some VECTOR
  | _ => None
  end.

(* ================================================================= *)
(** * Part II: lemmas and theorems *)
(* ================================================================= *)


(** ** The order of binary64 *)

Module DoubleFacts.

Import Double.
Local Open Scope Z_scope.

Lemma digits2_pos_bound (m : positive) :
  Zpos m < 2 ^ Zpos (digits2_pos m).
Proof.
  induction m as [m IH | m IH | ]; cbn [digits2_pos];
    try (rewrite Pos2Z.inj_succ, Z.pow_succ_r by lia); lia.
Qed.

(** A valid finite double has a mantissa below 2^53 and an exponent
    between -1074 and 971. *)
Lemma valid_finite_bounds (s : bool) (m : positive) (e : Z) :
  valid_binary (S754_finite s m e) = true ->
  Zpos m < 9007199254740992 /\ -1074 <= e <= 971.
Proof.
  cbn [valid_binary]. unfold bounded, canonical_mantissa, fexp, emin, prec, emax.
  intros Hv. apply andb_true_iff in Hv as [Hc He].
  apply Z.eqb_eq in Hc. apply Z.leb_le in He.
  pose proof (digits2_pos_bound m) as Hd.
  assert (Hle : Zpos (digits2_pos m) <= 53) by lia.
  assert (Hp : 2 ^ Zpos (digits2_pos m) <= 2 ^ 53)
    by (apply Z.pow_le_mono_r; lia).
  change (2 ^ 53) with 9007199254740992 in Hp. lia.
Qed.

(** On valid doubles the comparison of the standard is the comparison
    of the keys. *)
Lemma SFcompare_key (x y : spec_float) :
  valid_binary x = true -> valid_binary y = true ->
  SFcompare x y =
    match SFkey x, SFkey y with
    | Some a, Some b => Some (a ?= b)
    | _, _ => None
    end.
Proof.
  intros Hx Hy.
  destruct x as [sx | sx | | sx mx ex], y as [sy | sy | | sy my ey];
    try reflexivity;
    try (apply valid_finite_bounds in Hx); try (apply valid_finite_bounds in Hy);
    cbn [SFcompare SFkey]; unfold key_inf;
    repeat match goal with
           | s : bool |- _ => destruct s
           end;
    try (f_equal; symmetry;
         first [ apply Z.compare_eq_iff | apply Z.compare_lt_iff | apply Z.compare_gt_iff ];
         lia).
  - (* both negative *)
    f_equal. change (PosDef.Pos.compare_cont Eq mx my) with (Pos.compare mx my).
    destruct (Z.compare_spec ex ey) as [E | E | E]; symmetry.
    + subst ey. rewrite Pos2Z.inj_compare.
      destruct (Z.compare_spec (Zpos mx) (Zpos my)) as [F | F | F]; cbn [CompOpp];
        first [ apply Z.compare_eq_iff | apply Z.compare_lt_iff | apply Z.compare_gt_iff ];
        lia.
    + apply Z.compare_gt_iff. lia.
    + apply Z.compare_lt_iff. lia.
  - (* both positive *)
    f_equal. change (PosDef.Pos.compare_cont Eq mx my) with (Pos.compare mx my).
    destruct (Z.compare_spec ex ey) as [E | E | E]; symmetry.
    + subst ey. rewrite Pos2Z.inj_compare.
      destruct (Z.compare_spec (Zpos mx) (Zpos my)) as [F | F | F];
        first [ apply Z.compare_eq_iff | apply Z.compare_lt_iff | apply Z.compare_gt_iff ];
        lia.
    + apply Z.compare_lt_iff. lia.
    + apply Z.compare_gt_iff. lia.
Qed.

Lemma compare_key (x y : float) :
  SFcompare (Prim2SF x) (Prim2SF y) =
    match key x, key y with
    | Some a, Some b => Some (a ?= b)
    | _, _ => None
    end.
Proof. apply SFcompare_key; apply Prim2SF_valid. Qed.

Lemma ltb_key (x y : float) :
  (x <? y)%float =
    match key x, key y with
    | Some a, Some b => a <? b
    | _, _ => false
    end.
Proof.
  rewrite FloatAxioms.ltb_spec. unfold SFltb. rewrite compare_key.
  destruct (key x) as [a |], (key y) as [b |]; try reflexivity.
  all: unfold Z.ltb; destruct (a ?= b); reflexivity.
Qed.

Lemma leb_key (x y : float) :
  (x <=? y)%float =
    match key x, key y with
    | Some a, Some b => a <=? b
    | _, _ => false
    end.
Proof.
  rewrite FloatAxioms.leb_spec. unfold SFleb. rewrite compare_key.
  destruct (key x) as [a |], (key y) as [b |]; try reflexivity.
  all: unfold Z.leb; destruct (a ?= b); reflexivity.
Qed.

Lemma eqb_key (x y : float) :
  (x =? y)%float =
    match key x, key y with
    | Some a, Some b => a =? b
    | _, _ => false
    end.
Proof.
  rewrite FloatAxioms.eqb_spec. unfold SFeqb. rewrite compare_key.
  destruct (key x) as [a |], (key y) as [b |]; try reflexivity.
  all: destruct (Z.compare_spec a b) as [E | E | E];
    [ subst b; rewrite Z.eqb_refl; reflexivity
    | symmetry; apply Z.eqb_neq; lia
    | symmetry; apply Z.eqb_neq; lia ].
Qed.

Lemma is_nan_key (x : float) : is_nan x = true <-> key x = None.
Proof.
  unfold is_nan. rewrite eqb_key.
  destruct (key x) as [a |]; [ rewrite Z.eqb_refl | ]; cbn; split; congruence.
Qed.

Lemma not_nan_key (x : float) :
  is_nan x = false -> exists a, key x = Some a.
Proof.
  intros Hn. destruct (key x) as [a |] eqn:E; [ eauto | ].
  apply is_nan_key in E. congruence.
Qed.

End DoubleFacts.

(** Float comparisons as comparisons of keys: every double known not to
    be NaN gets its key, and the boolean tests become facts of [Z]. *)
Ltac key_facts :=
  repeat match goal with
         | H : is_nan ?x = false |- _ =>
             let a := fresh "k" in
             apply DoubleFacts.not_nan_key in H; destruct H as [a H]
         end;
  rewrite ?DoubleFacts.ltb_key, ?DoubleFacts.leb_key, ?DoubleFacts.eqb_key in *;
  repeat match goal with
         | H : Double.key ?x = Some _ |- _ => rewrite H in *
         end.

Ltac z_bools :=
  repeat match goal with
         | H : context [(?a <? ?b)%Z] |- _ => destruct (Z.ltb_spec a b)
         | H : context [(?a <=? ?b)%Z] |- _ => destruct (Z.leb_spec a b)
         | H : context [(?a =? ?b)%Z] |- _ => destruct (Z.eqb_spec a b)
         | |- context [(?a <? ?b)%Z] => destruct (Z.ltb_spec a b)
         | |- context [(?a <=? ?b)%Z] => destruct (Z.leb_spec a b)
         | |- context [(?a =? ?b)%Z] => destruct (Z.eqb_spec a b)
         end.

Ltac float_order :=
  key_facts;
  repeat match goal with
         | |- context [Double.key ?x] => destruct (Double.key x)
         | H : context [Double.key ?x] |- _ => destruct (Double.key x)
         end;
  z_bools; cbn in *; try discriminate; try reflexivity; try lia.

(** The same for a goal with many tests: the tests of the goal are
    split one at a time, and a branch is left as soon as its facts
    contradict each other. *)
Ltac z_hyps :=
  repeat match goal with
         | H : (_ <=? _)%Z = true |- _ => apply Z.leb_le in H
         | H : (_ <=? _)%Z = false |- _ => apply Z.leb_gt in H
         | H : (_ <? _)%Z = true |- _ => apply Z.ltb_lt in H
         | H : (_ <? _)%Z = false |- _ => apply Z.ltb_ge in H
         | H : (_ =? _)%Z = true |- _ => apply Z.eqb_eq in H
         | H : (_ =? _)%Z = false |- _ => apply Z.eqb_neq in H
         end.

Ltac z_split :=
  repeat (match goal with
          | |- context [(?a <=? ?b)%Z] => destruct (Z.leb_spec a b)
          | |- context [(?a <? ?b)%Z] => destruct (Z.ltb_spec a b)
          | |- context [(?a =? ?b)%Z] => destruct (Z.eqb_spec a b)
          end; try lia).

Ltac key_goal :=
  rewrite ?DoubleFacts.ltb_key, ?DoubleFacts.leb_key, ?DoubleFacts.eqb_key;
  repeat match goal with
         | H : Double.key ?x = Some _ |- _ => rewrite H
         end.

Ltac order_cases :=
  key_facts; cbv beta iota in *; z_hyps;
  repeat (progress (cbn [fst snd low_p low_v high_p high_v andb orb negb];
                    key_goal; cbv beta iota; z_split));
  try reflexivity; try lia.

Module OrderFacts.

Local Open Scope float_scope.

Lemma leb_trans (x y z : float) :
  (x <=? y) = true -> (y <=? z) = true -> (x <=? z) = true.
Proof. intros Hxy Hyz. float_order. Qed.

Lemma leb_refl (x : float) : is_nan x = false -> (x <=? x) = true.
Proof. intros Hx. float_order. Qed.

Lemma ltb_leb (x y : float) : (x <? y) = true -> (x <=? y) = true.
Proof. intros Hxy. float_order. Qed.

Lemma eqb_leb (x y : float) : (x =? y) = true -> (x <=? y) = true.
Proof. intros Hxy. float_order. Qed.

Lemma not_ltb_leb (x y : float) :
  is_nan x = false -> is_nan y = false -> (x <? y) = false -> (y <=? x) = true.
Proof. intros Hx Hy Hxy. float_order. Qed.

Lemma ltb_not_nan (x y : float) :
  (x <? y) = true -> is_nan x = false /\ is_nan y = false.
Proof.
  intros Hxy. split.
  - destruct (is_nan x) eqn:E; [ | reflexivity ].
    apply DoubleFacts.is_nan_key in E. rewrite DoubleFacts.ltb_key, E in Hxy. discriminate.
  - destruct (is_nan y) eqn:E; [ | reflexivity ].
    apply DoubleFacts.is_nan_key in E. rewrite DoubleFacts.ltb_key, E in Hxy.
    destruct (Double.key x); discriminate.
Qed.

End OrderFacts.

(** ** min and max *)

Module MinMax.

Local Open Scope float_scope.

Lemma builtin_max_number (d0 : float) (rest : list Value) :
  builtin_max (Number d0 :: rest) = max_scan d0 rest.
Proof.
  unfold builtin_max. cbn. rewrite andb_false_r. reflexivity.
Qed.

Lemma builtin_min_number (d0 : float) (rest : list Value) :
  builtin_min (Number d0 :: rest) = min_scan d0 rest.
Proof.
  unfold builtin_min. cbn. rewrite andb_false_r. reflexivity.
Qed.

Lemma max_scan_non_number (rest : list Value) :
  forall val, (exists v, In v rest /\ is_number v = false) ->
              max_scan val rest = Undefined.
Proof.
  induction rest as [| v rest IH]; intros val [w [Hin Hw]]; [ destruct Hin | ].
  cbn [max_scan]. destruct (is_number v) eqn:Hv; [ | reflexivity ].
  cbn [negb]. apply IH. destruct Hin as [-> | Hin]; [ congruence | eauto ].
Qed.

Lemma min_scan_non_number (rest : list Value) :
  forall val, (exists v, In v rest /\ is_number v = false) ->
              min_scan val rest = Undefined.
Proof.
  induction rest as [| v rest IH]; intros val [w [Hin Hw]]; [ destruct Hin | ].
  cbn [min_scan]. destruct (is_number v) eqn:Hv; [ | reflexivity ].
  cbn [negb]. apply IH. destruct Hin as [-> | Hin]; [ congruence | eauto ].
Qed.

Lemma no_nan_cons (x : float) (xs : list float) :
  no_nan (x :: xs) -> is_nan x = false /\ no_nan xs.
Proof.
  intros Hn. split; [ apply Hn; left; reflexivity | ].
  intros y Hy. apply Hn. right. exact Hy.
Qed.

(** Over numbers the scan of [max] ends in one of them, which none of
    them exceeds when none is NaN. *)
Lemma max_scan_numbers (rest : list Value) :
  forall val, Forall (fun v => is_number v = true) rest ->
    exists m, max_scan val rest = Number m
              /\ In m (val :: numbers rest)
              /\ (no_nan (val :: numbers rest) ->
                  forall x, In x (val :: numbers rest) -> (x <=? m) = true).
Proof.
  induction rest as [| v rest IH]; intros val Hall.
  - exists val. cbn. split; [ reflexivity | split; [ auto | ] ].
    intros Hn x [<- | []]. apply OrderFacts.leb_refl. apply Hn. left. reflexivity.
  - inversion Hall as [| ? ? Hv Hrest]; subst.
    cbn [max_scan numbers map]. rewrite Hv. cbn [negb].
    set (x := toDouble v).
    destruct (IH (if val <? x then x else val) Hrest) as [m [Hm [Hin Hup]]].
    exists m. split; [ exact Hm | split ].
    + destruct Hin as [Hin | Hin]; [ | right; right; exact Hin ].
      destruct (val <? x); [ right; left | left ]; exact Hin.
    + intros Hn y Hy.
      apply no_nan_cons in Hn as [Hval Hn].
      apply no_nan_cons in Hn as [Hx Hn].
      assert (Hn' : no_nan ((if val <? x then x else val) :: numbers rest)).
      { intros z [<- | Hz]; [ destruct (val <? x); assumption | apply Hn; exact Hz ]. }
      specialize (Hup Hn').
      assert (Hstep : (val <=? (if val <? x then x else val)) = true
                      /\ (x <=? (if val <? x then x else val)) = true).
      { destruct (val <? x) eqn:E; split.
        - apply OrderFacts.ltb_leb; exact E.
        - apply OrderFacts.leb_refl; exact Hx.
        - apply OrderFacts.leb_refl; exact Hval.
        - apply OrderFacts.not_ltb_leb; assumption. }
      destruct Hstep as [Hs1 Hs2].
      assert (Hseed : ((if val <? x then x else val) <=? m) = true)
        by (apply Hup; left; reflexivity).
      destruct Hy as [<- | [<- | Hy]].
      * eapply OrderFacts.leb_trans; eassumption.
      * eapply OrderFacts.leb_trans; eassumption.
      * apply Hup. right. exact Hy.
Qed.

(** The same for the scan of [min]. *)
Lemma min_scan_numbers (rest : list Value) :
  forall val, Forall (fun v => is_number v = true) rest ->
    exists m, min_scan val rest = Number m
              /\ In m (val :: numbers rest)
              /\ (no_nan (val :: numbers rest) ->
                  forall x, In x (val :: numbers rest) -> (m <=? x) = true).
Proof.
  induction rest as [| v rest IH]; intros val Hall.
  - exists val. cbn. split; [ reflexivity | split; [ auto | ] ].
    intros Hn x [<- | []]. apply OrderFacts.leb_refl. apply Hn. left. reflexivity.
  - inversion Hall as [| ? ? Hv Hrest]; subst.
    cbn [min_scan numbers map]. rewrite Hv. cbn [negb].
    set (x := toDouble v).
    destruct (IH (if x <? val then x else val) Hrest) as [m [Hm [Hin Hlow]]].
    exists m. split; [ exact Hm | split ].
    + destruct Hin as [Hin | Hin]; [ | right; right; exact Hin ].
      destruct (x <? val); [ right; left | left ]; exact Hin.
    + intros Hn y Hy.
      apply no_nan_cons in Hn as [Hval Hn].
      apply no_nan_cons in Hn as [Hx Hn].
      assert (Hn' : no_nan ((if x <? val then x else val) :: numbers rest)).
      { intros z [<- | Hz]; [ destruct (x <? val); assumption | apply Hn; exact Hz ]. }
      specialize (Hlow Hn').
      assert (Hstep : ((if x <? val then x else val) <=? val) = true
                      /\ ((if x <? val then x else val) <=? x) = true).
      { destruct (x <? val) eqn:E; split.
        - apply OrderFacts.ltb_leb; exact E.
        - apply OrderFacts.leb_refl; exact Hx.
        - apply OrderFacts.leb_refl; exact Hval.
        - apply OrderFacts.not_ltb_leb; assumption. }
      destruct Hstep as [Hs1 Hs2].
      assert (Hseed : (m <=? (if x <? val then x else val)) = true)
        by (apply Hlow; left; reflexivity).
      destruct Hy as [<- | [<- | Hy]].
      * eapply OrderFacts.leb_trans; eassumption.
      * eapply OrderFacts.leb_trans; eassumption.
      * apply Hlow. right. exact Hy.
Qed.

End MinMax.

(** C1, as the source has it.  A call of [min] or [max] whose first
    argument is a number scans the arguments from left to right.  At the
    first argument that is not a number the scan is left through
    [goto quit] and the call returns [Undefined]; when every argument is
    a number the call returns one of them, the largest for [max] and the
    smallest for [min] when none is NaN. *)
Theorem min_max_number_scan (d0 : float) (rest : list Value) :
  ((exists v, In v rest /\ is_number v = false) ->
   builtin_max (Number d0 :: rest) = Undefined
   /\ builtin_min (Number d0 :: rest) = Undefined)
  /\
  (Forall (fun v => is_number v = true) rest ->
   exists hi lo,
     builtin_max (Number d0 :: rest) = Number hi
     /\ builtin_min (Number d0 :: rest) = Number lo
     /\ In hi (d0 :: numbers rest) /\ In lo (d0 :: numbers rest)
     /\ (no_nan (d0 :: numbers rest) ->
         forall x, In x (d0 :: numbers rest) ->
                   (x <=? hi)%float = true /\ (lo <=? x)%float = true)).
Proof.
  rewrite MinMax.builtin_max_number, MinMax.builtin_min_number. split.
  - intros Hbad. split.
    + apply MinMax.max_scan_non_number; exact Hbad.
    + apply MinMax.min_scan_non_number; exact Hbad.
  - intros Hall.
    destruct (MinMax.max_scan_numbers d0 Hall) as [hi [Hhi [Hin_hi Hup]]].
    destruct (MinMax.min_scan_numbers d0 Hall) as [lo [Hlo [Hin_lo Hlow]]].
    exists hi, lo. repeat split; auto.
Qed.

(** max(1, 2, "x", 5) is [Undefined], and max(1, 2, 5) is 5. *)
Lemma min_max_number_scan_witness :
  (builtin_max [Number 1; Number 2; String [120%positive]; Number 5] = Undefined
   /\ builtin_min [Number 1; Number 2; String [120%positive]; Number 5] = Undefined)
  /\ exists hi lo,
      builtin_max [Number 1; Number 2; Number 5] = Number hi
      /\ builtin_min [Number 1; Number 2; Number 5] = Number lo
      /\ In hi (1 :: numbers [Number 2; Number 5])%float
      /\ In lo (1 :: numbers [Number 2; Number 5])%float
      /\ (no_nan (1 :: numbers [Number 2; Number 5])%float ->
          forall x, In x (1 :: numbers [Number 2; Number 5])%float ->
                    (x <=? hi)%float = true /\ (lo <=? x)%float = true).
Proof.
  split.
  - apply (proj1 (min_max_number_scan 1 [Number 2; String [120%positive]; Number 5])).
    exists (String [120%positive]). split; [ right; left; reflexivity | reflexivity ].
  - apply (proj2 (min_max_number_scan 1 [Number 2; Number 5])).
    repeat constructor.
Defined.

(** C1 as the specification words it fails on its own example: the
    call max(1, 2, "x", 5) is not 2. *)
Lemma max_stops_counterexample :
  builtin_max [Number 1; Number 2; String [120%positive]; Number 5] = Undefined
  /\ builtin_max [Number 1; Number 2; String [120%positive]; Number 5] <> Number 2.
Proof.
  split; [ reflexivity | cbv; discriminate ].
Qed.

(** ** norm *)

Module Norm.

Local Open Scope float_scope.

Lemma norm_sum_none (v : list Value) :
  forall sum, norm_sum sum v = None <-> exists e, In e v /\ is_number e = false.
Proof.
  induction v as [| e v IH]; intros sum; cbn [norm_sum].
  - split; [ discriminate | intros [e [[] _]] ].
  - destruct (is_number e) eqn:He.
    + rewrite IH. split.
      * intros [w [Hin Hw]]. exists w. split; [ right; exact Hin | exact Hw ].
      * intros [w [[<- | Hin] Hw]]; [ congruence | eauto ].
    + split; [ intros _; exists e; split; [ left; reflexivity | exact He ] | reflexivity ].
Qed.

Lemma single_argument (evalctx : EvalContext) :
  (numArgs evalctx =? 1)%nat = true -> evalctx = [getArgValue evalctx 0].
Proof.
  destruct evalctx as [| v [| w rest]]; cbn; intros E; try discriminate; reflexivity.
Qed.

End Norm.

(** C10.  [norm] of the empty vector is the number 0 and prints
    nothing; [norm] prints its warning, and then returns [Undefined],
    exactly when its single argument is a vector one of whose elements
    is not a number. *)
Theorem norm_empty_vector_and_warning :
  builtin_norm [Vector []] = (Number 0, [])
  /\ forall evalctx,
      snd (builtin_norm evalctx) <> [] <->
      exists v, evalctx = [Vector v]
                /\ (exists e, In e v /\ is_number e = false)
                /\ builtin_norm evalctx = (Undefined, [WarnNormIncorrectArguments]).
Proof.
  split; [ reflexivity | ].
  intros evalctx. split.
  - unfold builtin_norm.
    destruct (numArgs evalctx =? 1)%nat eqn:Hn; [ | intros F; exfalso; apply F; reflexivity ].
    apply Norm.single_argument in Hn.
    destruct (getArgValue evalctx 0) as [| d | s | v] eqn:Hv;
      try (intros F; exfalso; apply F; reflexivity).
    cbn [is_vector type ValueType_eqb toVector].
    destruct (norm_sum 0 v) as [sum |] eqn:Hs;
      [ intros F; exfalso; apply F; reflexivity | ].
    intros _. exists v. split; [ exact Hn | split; [ | reflexivity ] ].
    apply (Norm.norm_sum_none v 0). exact Hs.
  - intros [v [-> [_ Hr]]]. rewrite Hr. discriminate.
Qed.

(** norm([1, "a"]) takes the warning path. *)
Lemma norm_empty_vector_and_warning_witness :
  exists v, [Vector [Number 1; String [97%positive]]] = [Vector v]
            /\ (exists e, In e v /\ is_number e = false)
            /\ builtin_norm [Vector [Number 1; String [97%positive]]]
               = (Undefined, [WarnNormIncorrectArguments]).
Proof.
  apply (proj2 norm_empty_vector_and_warning [Vector [Number 1; String [97%positive]]]).
  cbv. discriminate.
Defined.

(** ** lookup: the rows *)

Module LookupRows.

Local Open Scope float_scope.

Lemma lookup_step_malformed (p : float) (b : Bracket) (row : Value) :
  is_pair row = false -> lookup_step p b row = b.
Proof.
  unfold is_pair, lookup_step. destruct (getVec2 row); [ discriminate | reflexivity ].
Qed.

Lemma lookup_scan_filter (p : float) (rows : list Value) :
  forall b, lookup_scan p b rows = lookup_scan p b (filter is_pair rows).
Proof.
  induction rows as [| row rows IH]; intros b; [ reflexivity | ].
  cbn [lookup_scan filter]. destruct (is_pair row) eqn:E.
  - cbn [lookup_scan]. apply IH.
  - rewrite lookup_step_malformed by exact E. apply IH.
Qed.

Lemma getVec2_length (row : Value) (xy : float * float) :
  getVec2 row = Some xy -> length (toVector row) = 2%nat.
Proof.
  destruct row as [| d | s | [| [| x | s | l] [| [| y | s' | l'] [| z v]]]];
    cbn; intros E; try discriminate; reflexivity.
Qed.

(** With a well-formed first row the call returns a number: the one the
    final bracket gives. *)
Lemma builtin_lookup_scan (p p0 v0 : float) (row0 : Value) (rows rest : list Value) :
  getVec2 row0 = Some (p0, v0) ->
  builtin_lookup (Number p :: Vector (row0 :: rows) :: rest) =
    let b := lookup_scan p {| low_p := p0; low_v := v0; high_p := p0; high_v := v0 |} rows in
    silently (Number (if p <=? low_p b then high_v b
                      else if high_p b <=? p then low_v b
                      else high_v b * ((p - low_p b) / (high_p b - low_p b))
                           + low_v b * (1 - (p - low_p b) / (high_p b - low_p b)))).
Proof.
  intros E. unfold builtin_lookup.
  cbn [numArgs length Nat.ltb Nat.leb getArgValue nth getDouble toVector nth_error tl].
  rewrite (getVec2_length _ E), E. cbn [Nat.ltb Nat.leb].
  cbv zeta.
  destruct (p <=? low_p _); [ reflexivity | ].
  destruct (high_p _ <=? p); reflexivity.
Qed.

End LookupRows.

(** C8, as the source has it.  When the first row of the table is not a
    vector of two numbers the call returns [Undefined]; a later row that
    is not one is passed over, so that with a well-formed first row
    the call returns the number it returns on the table without its
    malformed rows. *)
Theorem lookup_malformed_rows (p : float) (row0 : Value) (rows rest : list Value) :
  (is_pair row0 = false ->
   builtin_lookup (Number p :: Vector (row0 :: rows) :: rest) = silently Undefined)
  /\
  (is_pair row0 = true ->
   builtin_lookup (Number p :: Vector (row0 :: rows) :: rest)
   = builtin_lookup (Number p :: Vector (row0 :: filter is_pair rows) :: rest)
   /\ exists d, builtin_lookup (Number p :: Vector (row0 :: rows) :: rest)
                = silently (Number d)).
Proof.
  unfold is_pair at 1 2. split.
  - intros E. unfold builtin_lookup.
    cbn [numArgs length Nat.ltb Nat.leb getArgValue nth getDouble toVector nth_error].
    destruct (getVec2 row0); [ discriminate | ].
    destruct (Nat.leb _ _); reflexivity.
  - destruct (getVec2 row0) as [[p0 v0] |] eqn:E; [ intros _ | discriminate ].
    rewrite !(LookupRows.builtin_lookup_scan p row0 _ rest E).
    rewrite <- LookupRows.lookup_scan_filter. split; [ reflexivity | eauto ].
Qed.

(** lookup(1, [[0,0], "x", [2,2]]) is lookup(1, [[0,0], [2,2]]); and
    lookup(1, ["x", [2,2]]) is [Undefined]. *)
Lemma lookup_malformed_rows_witness :
  builtin_lookup [Number 1; Vector [String [120%positive]; Vector [Number 2; Number 2]]]
  = silently Undefined
  /\ (builtin_lookup [Number 1; Vector [Vector [Number 0; Number 0]; String [120%positive];
                                        Vector [Number 2; Number 2]]]
      = builtin_lookup [Number 1; Vector (Vector [Number 0; Number 0]
                                          :: filter is_pair [String [120%positive];
                                                             Vector [Number 2; Number 2]])]
      /\ exists d,
          builtin_lookup [Number 1; Vector [Vector [Number 0; Number 0]; String [120%positive];
                                            Vector [Number 2; Number 2]]]
          = silently (Number d)).
Proof.
  split.
  - apply (proj1 (lookup_malformed_rows 1 (String [120%positive])
                    [Vector [Number 2; Number 2]] [])).
    reflexivity.
  - apply (proj2 (lookup_malformed_rows 1 (Vector [Number 0; Number 0])
                    [String [120%positive]; Vector [Number 2; Number 2]] [])).
    reflexivity.
Defined.

(** C8 as the specification words it fails: the table [[0,0], "x",
    [2,2]] has a row that is not a pair of numbers, and lookup(1, ...)
    on it is the number 1. *)
Lemma lookup_malformed_row_counterexample :
  is_pair (String [120%positive]) = false
  /\ builtin_lookup [Number 1; Vector [Vector [Number 0; Number 0]; String [120%positive];
                                       Vector [Number 2; Number 2]]]
     = silently (Number 1)
  /\ silently (Number 1) <> silently Undefined.
Proof.
  split; [ reflexivity | split; [ reflexivity | cbv; discriminate ] ].
Qed.

(** C9 fails on the source: with an empty table the call reads
    [toVector()[0]] of a vector that has no element. *)
Theorem lookup_empty_table_out_of_bounds (p : float) (rest : list Value) :
  builtin_lookup (Number p :: Vector [] :: rest) = OutOfBounds.
Proof. reflexivity. Qed.

(** ** rands *)

Section RandsFacts.

Context {G : Generator}.
Local Open Scope float_scope.

(** Drawing from the deterministic generator reads and changes that
    generator only. *)
Lemma draw_deterministic (numresults : nat) (min max : float) :
  forall rng1 rng2 : RngState,
    deterministic_rng rng1 = deterministic_rng rng2 ->
    fst (draw numresults min max true rng1) = fst (draw numresults min max true rng2)
    /\ deterministic_rng (snd (draw numresults min max true rng1))
       = deterministic_rng (snd (draw numresults min max true rng2)).
Proof.
  induction numresults as [| k IH]; intros rng1 rng2 E; cbn [draw].
  - split; [ reflexivity | exact E ].
  - rewrite E. destruct (uniform_real min max (deterministic_rng rng2)) as [x g].
    specialize (IH {| deterministic_rng := g;
                      lessdeterministic_rng := lessdeterministic_rng rng1 |}
                   {| deterministic_rng := g;
                      lessdeterministic_rng := lessdeterministic_rng rng2 |}
                   eq_refl).
    destruct (draw k min max true _) as [vec1 r1], (draw k min max true _) as [vec2 r2].
    cbn [fst snd] in *. destruct IH as [-> ->]. split; reflexivity.
Qed.

Lemma eqb_not_ltb (x y : float) : (x =? y) = true -> (y <? x) = false.
Proof. intros E. float_order. Qed.

End RandsFacts.

(** C6.  A call of [rands] with four numbers reseeds the deterministic
    generator before it draws: its result, and the deterministic
    generator it leaves, are the same from any two states of the two
    generators. *)
Theorem rands_seeded_reproducible {G : Generator}
        (min max count seed_value : float) (rng1 rng2 : RngState) :
  let evalctx := [Number min; Number max; Number count; Number seed_value] in
  fst (builtin_rands evalctx rng1) = fst (builtin_rands evalctx rng2)
  /\ deterministic_rng (snd (builtin_rands evalctx rng1))
     = deterministic_rng (snd (builtin_rands evalctx rng2)).
Proof.
  cbv zeta. unfold builtin_rands.
  cbn [numArgs length Nat.eqb orb getArgValue nth is_number type ValueType_eqb negb
       toDouble getDouble Nat.ltb Nat.leb andb].
  destruct (if (max <? min)%float then (max, min) else (min, max)) as [lo hi].
  destruct (lo =? hi)%float; [ split; reflexivity | ].
  set (n := Z.to_nat _).
  pose proof (draw_deterministic n lo hi
                {| deterministic_rng := seed (Double.to_uint seed_value);
                   lessdeterministic_rng := lessdeterministic_rng rng1 |}
                {| deterministic_rng := seed (Double.to_uint seed_value);
                   lessdeterministic_rng := lessdeterministic_rng rng2 |}
                eq_refl) as [Hv Hg].
  destruct (draw n lo hi true _) as [vec1 r1], (draw n lo hi true _) as [vec2 r2].
  cbn [fst snd] in *. subst vec2. split; [ reflexivity | exact Hg ].
Qed.

(** C7.  When the first two arguments of [rands] are equal numbers the
    result is [count], cut to a non-negative [int], copies of the first
    one, and no draw is made: the generators are left as the reseeding,
    if there is a fourth argument, leaves them. *)
Theorem rands_degenerate_range {G : Generator}
        (min max count : float) (seed_value : option float) (rng : RngState) :
  (min =? max)%float = true ->
  builtin_rands (Number min :: Number max :: Number count :: seed_argument seed_value) rng
  = (Vector (repeat (Number min) (Z.to_nat (Z.max 0 (Double.to_int count)))),
     reseeded seed_value rng).
Proof.
  intros E. unfold builtin_rands.
  destruct seed_value as [s |];
    cbn [seed_argument reseeded numArgs length Nat.eqb orb getArgValue nth is_number type
         ValueType_eqb negb toDouble getDouble Nat.ltb Nat.leb andb];
    rewrite (eqb_not_ltb E), E; reflexivity.
Qed.

(** rands(7, 7, 3, 42) on the counting generator: three copies of 7,
    and the draw count of the reseeded generator is still 0. *)
Lemma rands_degenerate_range_witness :
  @builtin_rands counting [Number 7; Number 7; Number 3; Number 42] (counters 5 9)
  = (Vector [Number 7; Number 7; Number 7], counters 0 9).
Proof.
  apply (@rands_degenerate_range counting 7 7 3 (Some 42%float) (counters 5 9)).
  reflexivity.
Defined.

(** ** Calls outside the contract *)

Module Mismatch.

Local Open Scope float_scope.





Section WithHost.

Context {H : Host}.

Lemma match_loop_no_table {A : Type} (test : A -> option bool) (rpm : nat)
      (j matchCount : nat) (resultvec returnvec : list Value) :
  match_loop test rpm [] j matchCount resultvec returnvec
  = Some (matchCount, resultvec, returnvec).
Proof. reflexivity. Qed.






End WithHost.

End Mismatch.

(** The tests of a builtin on its arguments, computed on arguments of
    known variants. *)
Ltac ctl :=
  cbn [numArgs length Nat.eqb Nat.leb Nat.ltb getArgValue nth is_number is_vector
       is_string type ValueType_eqb andb orb negb forallb toDouble getDouble toVector
       getVec2 getVec3 tl fst snd arity_ok types_ok silently].






(** ** search *)

Module SearchFacts.

Section Loops.

Context {A : Type}.
Variable t : A -> bool.

Let total (e : A) : option bool := Some (t e).

(** At 1 the inner loop stops at the first match and appends its
    position to [returnvec]. *)
Lemma match_loop_first (table : list A) :
  forall j matchCount resultvec returnvec,
    match_loop total 1 table j matchCount resultvec returnvec
    = Some match positions t table j with
           | [] => (matchCount, resultvec, returnvec)
           | p :: _ => (S matchCount, resultvec, returnvec ++ [Number (Double.of_nat p)])
           end.
Proof.
  induction table as [| e table IH]; intros j mc rv ret; cbn [match_loop positions total].
  - reflexivity.
  - destruct (t e); [ reflexivity | apply IH ].
Qed.

(** At 0 the inner loop collects every match in [resultvec]. *)
Lemma match_loop_all (table : list A) :
  forall j matchCount resultvec returnvec,
    match_loop total 0 table j matchCount resultvec returnvec
    = Some (matchCount + length (positions t table j),
            resultvec ++ indices (positions t table j), returnvec).
Proof.
  induction table as [| e table IH]; intros j mc rv ret; cbn [match_loop positions total].
  - cbn. rewrite Nat.add_0_r, app_nil_r. reflexivity.
  - destruct (t e).
    + cbn [Nat.eqb Nat.ltb Nat.leb andb]. rewrite IH. cbn [length indices map].
      rewrite <- app_assoc, Nat.add_succ_r. reflexivity.
    + apply IH.
Qed.

(** Above 1 the inner loop collects matches in [resultvec] until
    [matchCount] reaches the bound. *)
Lemma match_loop_capped (rpm : nat) (table : list A) :
  (1 < rpm)%nat ->
  forall j matchCount resultvec returnvec,
    (matchCount < rpm)%nat ->
    match_loop total rpm table j matchCount resultvec returnvec
    = Some (matchCount + length (firstn (rpm - matchCount) (positions t table j)),
            resultvec ++ indices (firstn (rpm - matchCount) (positions t table j)),
            returnvec).
Proof.
  intros Hrpm.
  assert (E1 : (rpm =? 1)%nat = false) by (apply Nat.eqb_neq; lia).
  assert (L1 : (1 <? rpm)%nat = true) by (apply Nat.ltb_lt; lia).
  induction table as [| e table IH]; intros j mc rv ret Hmc;
    cbn [match_loop positions total].
  - rewrite firstn_nil. cbn. rewrite Nat.add_0_r, app_nil_r. reflexivity.
  - destruct (t e); [ | apply IH; exact Hmc ].
    rewrite E1, L1. cbn [andb].
    destruct (rpm - mc)%nat as [| k] eqn:Ek; [ lia | ].
    cbn [firstn length indices map].
    destruct (rpm <=? S mc)%nat eqn:Hstop.
    + apply Nat.leb_le in Hstop. assert (k = 0%nat) by lia. subst k.
      cbn. rewrite Nat.add_1_r. reflexivity.
    + apply Nat.leb_gt in Hstop. rewrite IH by lia.
      replace (rpm - S mc)%nat with k by lia.
      rewrite <- app_assoc, Nat.add_succ_r. reflexivity.
Qed.

(** One needle element, from the loop's start: what it leaves in
    [resultvec] and [returnvec], and whether it counted a match. *)
Lemma match_loop_from_start (rpm : nat) (table : list A) (returnvec : list Value) :
  exists matchCount,
    match_loop total rpm table 0 0 [] returnvec
    = Some (matchCount,
            (if (rpm =? 1)%nat then [] else indices (cap rpm (positions t table 0))),
            (if (rpm =? 1)%nat
             then returnvec ++ indices (firstn 1 (positions t table 0))
             else returnvec))
    /\ (matchCount =? 0)%nat
       = match positions t table 0 with [] => true | _ :: _ => false end.
Proof.
  destruct rpm as [| [| rpm]].
  - rewrite match_loop_all. eexists. split; [ reflexivity | ].
    destruct (positions t table 0); reflexivity.
  - rewrite match_loop_first.
    destruct (positions t table 0) as [| p ps]; eexists; split;
      try reflexivity; cbn; rewrite ?app_nil_r; reflexivity.
  - rewrite match_loop_capped by lia. eexists. split; [ reflexivity | ].
    rewrite Nat.sub_0_r. destruct (positions t table 0); reflexivity.
Qed.

End Loops.

(** The inner loop reads [test] on the elements of the table only. *)
Lemma match_loop_ext {A : Type} (test test' : A -> option bool) (rpm : nat)
      (table : list A) :
  (forall e, In e table -> test e = test' e) ->
  forall j matchCount resultvec returnvec,
    match_loop test rpm table j matchCount resultvec returnvec
    = match_loop test' rpm table j matchCount resultvec returnvec.
Proof.
  induction table as [| e table IH]; intros Hext j mc rv ret; [ reflexivity | ].
  cbn [match_loop]. rewrite <- (Hext e) by (left; reflexivity).
  destruct (test e) as [[|] |]; try reflexivity.
  - destruct (rpm =? 1)%nat; [ reflexivity | ].
    destruct (_ && _); [ reflexivity | ].
    apply IH. intros e' He'. apply Hext. right. exact He'.
  - apply IH. intros e' He'. apply Hext. right. exact He'.
Qed.

End SearchFacts.

Module SearchShapes.

(** The outer loop of the text searches, when the comparison is
    defined on every element of the table. *)
Lemma search_glyphs_total {A : Type} (t : glyph -> A -> bool) (rpm : nat)
      (find : list glyph) (table : list A) :
  forall returnvec log,
    search_glyphs (fun g e => Some (t g e)) rpm find table returnvec log
    = Some (returnvec
              ++ search_shape rpm (map (fun g => positions (t g) table 0) find),
            log ++ glyph_warnings find (map (fun g => positions (t g) table 0) find)).
Proof.
  induction find as [| g find IH]; intros ret log.
  - cbn. unfold search_shape. destruct (rpm =? 1)%nat; cbn; rewrite !app_nil_r; reflexivity.
  - cbn [search_glyphs map].
    destruct (SearchFacts.match_loop_from_start (t g) rpm table ret) as [mc [E Hmc]].
    rewrite E, Hmc, IH. clear E Hmc IH.
    unfold search_shape, glyph_warnings.
    cbn [combine flat_map map fst snd].
    set (ps := positions (t g) table 0).
    f_equal. f_equal.
    + destruct rpm as [| [| rpm]]; cbn [Nat.eqb Nat.ltb Nat.leb orb];
        rewrite <- ?app_assoc; reflexivity.
    + destruct ps; rewrite <- ?app_assoc; reflexivity.
Qed.

Lemma search_glyphs_ext {A : Type} (test test' : glyph -> A -> option bool) (rpm : nat)
      (find : list glyph) (table : list A) :
  (forall g e, In e table -> test g e = test' g e) ->
  forall returnvec log,
    search_glyphs test rpm find table returnvec log
    = search_glyphs test' rpm find table returnvec log.
Proof.
  intros Hext. induction find as [| g find IH]; intros ret log; [ reflexivity | ].
  cbn [search_glyphs].
  rewrite (SearchFacts.match_loop_ext (test g) (test' g) rpm table (Hext g)).
  destruct (match_loop _ _ _ _ _ _ _) as [[[mc rv] ret'] |]; [ apply IH | reflexivity ].
Qed.

Lemma element_matches_total (col : nat) (find_value search_element : Value) :
  element_matches col find_value search_element
  = Some (element_test col find_value search_element).
Proof.
  unfold element_matches, element_test.
  destruct ((col =? 0)%nat && Val.eqb find_value search_element); [ reflexivity | ].
  cbn [orb]. destruct (col <? length (toVector search_element))%nat eqn:Hc;
    [ | reflexivity ].
  apply Nat.ltb_lt in Hc.
  destruct (nth_error (toVector search_element) col) as [cell |] eqn:Hn.
  - rewrite (nth_error_nth _ _ Undefined Hn). reflexivity.
  - apply nth_error_None in Hn. lia.
Qed.

Section WithHost.

Context {H : Host}.

Lemma first_glyph_matches_total (col : nat) (g : glyph) (row : Value) :
  (col < length (toVector row))%nat ->
  first_glyph_matches col g row = Some (first_glyph_test col g row).
Proof.
  intros Hc. unfold first_glyph_matches, first_glyph_test.
  destruct (nth_error (toVector row) col) as [cell |] eqn:Hn.
  - rewrite (nth_error_nth _ _ Undefined Hn). destruct (toString cell); reflexivity.
  - apply nth_error_None in Hn. lia.
Qed.

End WithHost.

(** The outer loop of the vector needle. *)
Lemma vector_loop_shape (rpm col : nat) (find table : list Value) :
  forall returnvec log,
    vector_loop find rpm col table returnvec log
    = Some (returnvec
              ++ vector_needle_shape rpm
                   (map (fun v => positions (element_test col v) table 0) find),
            log ++ element_warnings rpm find
                     (map (fun v => positions (element_test col v) table 0) find)).
Proof.
  induction find as [| v find IH]; intros ret log.
  - cbn. unfold vector_needle_shape, search_shape.
    destruct (rpm =? 1)%nat; cbn; rewrite !app_nil_r; reflexivity.
  - cbn [vector_loop map].
    rewrite (SearchFacts.match_loop_ext (element_matches col v)
               (fun e => Some (element_test col v e)) rpm table
               (fun e _ => element_matches_total col v e)).
    destruct (SearchFacts.match_loop_from_start (element_test col v) rpm table ret)
      as [mc [E Hmc]].
    rewrite E, Hmc, IH. clear E Hmc IH.
    unfold vector_needle_shape, search_shape, element_warnings.
    cbn [combine flat_map map fst snd].
    set (ps := positions (element_test col v) table 0).
    f_equal. f_equal.
    + destruct rpm as [| [| rpm]]; cbn [Nat.eqb Nat.ltb Nat.leb orb andb].
      * destruct ps; rewrite <- ?app_assoc; reflexivity.
      * destruct ps; cbn [firstn indices map]; rewrite <- ?app_assoc; reflexivity.
      * destruct ps; rewrite <- ?app_assoc; reflexivity.
    + destruct ps; cbn [andb]; rewrite ?andb_false_r, ?andb_true_r, <- ?app_assoc;
        try reflexivity.
      destruct ((rpm =? 1)%nat && (is_number v || is_string v));
        rewrite <- ?app_assoc; reflexivity.
Qed.

(** The loop of the number needle. *)
Lemma number_loop_taken (findThis : Value) (rpm col : nat) (table : list Value) :
  forall j matchCount returnvec,
    (rpm = 0 \/ matchCount < rpm)%nat ->
    number_loop findThis rpm col table j matchCount returnvec
    = Some (returnvec
              ++ indices (if (rpm =? 0)%nat
                          then positions (element_test col findThis) table j
                          else firstn (rpm - matchCount)
                                 (positions (element_test col findThis) table j))).
Proof.
  induction table as [| e table IH]; intros j mc ret Hmc; cbn [number_loop positions].
  - rewrite firstn_nil. destruct (rpm =? 0)%nat; cbn; rewrite app_nil_r; reflexivity.
  - rewrite element_matches_total.
    destruct (element_test col findThis e); [ | apply IH; exact Hmc ].
    destruct rpm as [| rpm].
    + cbn [Nat.eqb negb andb]. rewrite IH by (left; reflexivity).
      cbn [Nat.eqb indices map]. rewrite <- app_assoc. reflexivity.
    + cbn [Nat.eqb negb andb].
      destruct Hmc as [Hmc | Hmc]; [ discriminate | ].
      destruct (S rpm - mc)%nat as [| k] eqn:Ek; [ lia | ].
      cbn [firstn indices map].
      destruct (S rpm <=? S mc)%nat eqn:Hstop.
      * apply Nat.leb_le in Hstop. assert (k = 0%nat) by lia. subst k. reflexivity.
      * apply Nat.leb_gt in Hstop. rewrite IH by (right; lia).
        cbn [Nat.eqb]. replace (S rpm - S mc)%nat with k by lia.
        rewrite <- app_assoc. reflexivity.
Qed.

Lemma number_loop_shape (findThis : Value) (rpm col : nat) (table : list Value) :
  number_loop findThis rpm col table 0 0 []
  = Some (number_needle_shape rpm (positions (element_test col findThis) table 0)).
Proof.
  rewrite number_loop_taken by lia. unfold number_needle_shape, cap.
  rewrite Nat.sub_0_r. reflexivity.
Qed.

End SearchShapes.

(** At 1 the number needle's result has the shape of the policy, and
    away from 1 the vector needle's has. *)
Lemma number_needle_shape_at_1 (matches : list nat) :
  number_needle_shape 1 matches = search_shape 1 [matches].
Proof.
  unfold number_needle_shape, search_shape, cap. cbn. rewrite app_nil_r. reflexivity.
Qed.

Lemma vector_needle_shape_away_from_1 (rpm : nat) (per_needle : list (list nat)) :
  rpm <> 1%nat -> vector_needle_shape rpm per_needle = search_shape rpm per_needle.
Proof.
  intros Hrpm. unfold vector_needle_shape.
  destruct (rpm =? 1)%nat eqn:E; [ apply Nat.eqb_eq in E; contradiction | reflexivity ].
Qed.

(** C3, as the source has it.  With [rpm] the third argument (1 when
    absent) and [col] the fourth (0 when absent):
    - a text needle, against a text or against a table each of whose
      rows has the column [col], gives the shape of the policy: at 1 a
      flat sequence of the first match of each code point that has one,
      otherwise one capped sub-sequence for each code point;
    - a vector needle gives that shape too, but at 1 a needle element
      without a match leaves an empty vector in the sequence;
    - a number needle gives the flat sequence of its capped matches at
      every [rpm]. *)
Theorem search_result_shape {H : Host} (needle table : Value) (rest : list Value) :
  let evalctx := needle :: table :: rest in
  let rpm := returns_per_match_arg evalctx in
  let col := index_col_arg evalctx in
  match needle with
  | String find =>
      match table with
      | String text =>
          let per := map (fun g => positions (Pos.eqb g) text 0) find in
          builtin_search evalctx
          = Returns (Vector (search_shape rpm per)) (glyph_warnings find per)
      | _ =>
          (forall row, In row (toVector table) -> (col < length (toVector row))%nat) ->
          let per := map (fun g => positions (first_glyph_test col g) (toVector table) 0)
                         find in
          builtin_search evalctx
          = Returns (Vector (search_shape rpm per)) (glyph_warnings find per)
      end
  | Vector find =>
      let per := map (fun v => positions (element_test col v) (toVector table) 0) find in
      builtin_search evalctx
      = Returns (Vector (vector_needle_shape rpm per)) (element_warnings rpm find per)
  | Number _ =>
      builtin_search evalctx
      = silently (Vector (number_needle_shape rpm
                            (positions (element_test col needle) (toVector table) 0)))
  | Undefined =>
      builtin_search evalctx = Returns Undefined [WarnSearchNonePerformed Undefined]
  end.
Proof.
  cbv zeta. unfold builtin_search.
  generalize (returns_per_match_arg (needle :: table :: rest)) as rpm.
  generalize (index_col_arg (needle :: table :: rest)) as col.
  intros col rpm.
  cbn [numArgs length Nat.ltb Nat.leb getArgValue nth].
  assert (Hvec : forall find tbl,
             (forall row, In row tbl -> (col < length (toVector row))%nat) ->
             search_result (search_vec find tbl rpm col)
             = Returns
                 (Vector (search_shape rpm
                            (map (fun g => positions (first_glyph_test col g) tbl 0) find)))
                 (glyph_warnings find
                    (map (fun g => positions (first_glyph_test col g) tbl 0) find))).
  { intros find tbl Hrows. unfold search_vec.
    rewrite (SearchShapes.search_glyphs_ext
               (first_glyph_matches col)
               (fun g e => Some (first_glyph_test col g e)) rpm find tbl)
      by (intros g e He; apply SearchShapes.first_glyph_matches_total, Hrows, He).
    rewrite SearchShapes.search_glyphs_total. reflexivity. }
  destruct needle as [| d | find | find].
  - reflexivity.
  - rewrite SearchShapes.number_loop_shape. reflexivity.
  - destruct table as [| d | text | rows]; try (intros Hrows; apply Hvec; exact Hrows).
    unfold search_str. rewrite SearchShapes.search_glyphs_total. reflexivity.
  - rewrite SearchShapes.vector_loop_shape. reflexivity.
Qed.

(** search("ab", [["a",1],["b",2],["a",3]], 0): one sub-sequence for
    each code point. *)
Lemma search_result_shape_witness :
  @builtin_search plain_host
    [String [97; 98]%positive;
     Vector [Vector [String [97%positive]; Number 1];
             Vector [String [98%positive]; Number 2];
             Vector [String [97%positive]; Number 3]];
     Number 0]
  = Returns (Vector [Vector [Number 0; Number 2]; Vector [Number 1]]) [].
Proof.
  apply (@search_result_shape plain_host
           (String [97; 98]%positive)
           (Vector [Vector [String [97%positive]; Number 1];
                    Vector [String [98%positive]; Number 2];
                    Vector [String [97%positive]; Number 3]])
           [Number 0]).
  intros row [<- | [<- | [<- | []]]]; cbv; lia.
Defined.

(** C3 as the specification words it fails on two of the three needle
    modes: search(3, [3,3], 0) is the flat [0,1], not [[0,1]], and
    search([9], [3], 1) is [[]], not []. *)
Lemma search_shape_counterexample :
  (@builtin_search plain_host [Number 3; Vector [Number 3; Number 3]; Number 0]
   = silently (Vector [Number 0; Number 1])
   /\ Vector [Number 0; Number 1] <> Vector (search_shape 0 [[0; 1]%nat]))
  /\
  (@builtin_search plain_host [Vector [Number 9]; Vector [Number 3]; Number 1]
   = Returns (Vector [Vector []]) [WarnSearchTermNotFound (Number 9)]
   /\ Vector [Vector []] <> Vector (search_shape 1 [[]])).
Proof.
  repeat split; try reflexivity; cbv; discriminate.
Qed.

(** ** lookup: the bracket *)

Module TableFacts.

Local Open Scope float_scope.

Lemma no_nan_row (rows : list Row) (r : Row) :
  no_nan (map fst rows) -> In r rows -> is_nan (fst r) = false.
Proof. intros Hn Hr. apply Hn. apply in_map. exact Hr. Qed.

Lemma no_nan_incl (rows rows' : list Row) :
  (forall r, In r rows' -> In r rows) ->
  no_nan (map fst rows) -> no_nan (map fst rows').
Proof.
  intros Hincl Hn x Hx. apply in_map_iff in Hx as [r [<- Hr]].
  apply (no_nan_row rows); auto.
Qed.

Lemma find_app_some {A : Type} (f : A -> bool) (l l' : list A) (x : A) :
  find f l = Some x -> find f (l ++ l') = Some x.
Proof.
  induction l as [| y l IH]; cbn; [ discriminate | ].
  destruct (f y); [ auto | exact IH ].
Qed.

Lemma find_app_none {A : Type} (f : A -> bool) (l l' : list A) :
  (forall x, In x l -> f x = false) -> find f (l ++ l') = find f l'.
Proof.
  induction l as [| y l IH]; cbn; intros Hf; [ reflexivity | ].
  rewrite (Hf y) by (left; reflexivity). apply IH. intros x Hx. apply Hf. right. exact Hx.
Qed.

Lemma find_filter {A : Type} (f g : A -> bool) (l : list A) :
  (forall x, In x l -> g x = true -> f x = true) ->
  find g (filter f l) = find g l.
Proof.
  induction l as [| y l IH]; cbn; intros Hfg; [ reflexivity | ].
  assert (IH' : find g (filter f l) = find g l)
    by (apply IH; intros x Hx; apply Hfg; right; exact Hx).
  destruct (g y) eqn:Hg.
  - rewrite (Hfg y (or_introl eq_refl) Hg). cbn. rewrite Hg. reflexivity.
  - destruct (f y); cbn; rewrite ?Hg; exact IH'.
Qed.

Lemma lowest_snoc (x : Row) (xs : list Row) (y : Row) :
  lowest x (xs ++ [y]) = lower (lowest x xs) y.
Proof. unfold lowest. rewrite fold_left_app. reflexivity. Qed.

Lemma highest_snoc (x : Row) (xs : list Row) (y : Row) :
  highest x (xs ++ [y]) = higher (highest x xs) y.
Proof. unfold highest. rewrite fold_left_app. reflexivity. Qed.

Lemma lowest_in (x : Row) (xs : list Row) : In (lowest x xs) (x :: xs).
Proof.
  induction xs as [| y xs IH] using rev_ind; [ left; reflexivity | ].
  rewrite lowest_snoc. unfold lower. rewrite app_comm_cons.
  destruct (fst y <? fst (lowest x xs)); apply in_or_app;
    [ right; left; reflexivity | left; exact IH ].
Qed.

Lemma highest_in (x : Row) (xs : list Row) : In (highest x xs) (x :: xs).
Proof.
  induction xs as [| y xs IH] using rev_ind; [ left; reflexivity | ].
  rewrite highest_snoc. unfold higher. rewrite app_comm_cons.
  destruct (fst (highest x xs) <? fst y); apply in_or_app;
    [ right; left; reflexivity | left; exact IH ].
Qed.

Lemma no_nan_snoc (x : Row) (xs : list Row) (y : Row) :
  no_nan (map fst (x :: xs ++ [y])) ->
  no_nan (map fst (x :: xs)) /\ is_nan (fst y) = false.
Proof.
  intros Hn. split.
  - apply (no_nan_incl (x :: xs ++ [y])); [ | exact Hn ].
    intros r Hr. rewrite app_comm_cons. apply in_or_app. left. exact Hr.
  - apply (no_nan_row (x :: xs ++ [y])); [ exact Hn | ].
    rewrite app_comm_cons. apply in_or_app. right. left. reflexivity.
Qed.

(** No row is below the lowest one. *)
Lemma lowest_least (x : Row) (xs : list Row) :
  no_nan (map fst (x :: xs)) ->
  forall r, In r (x :: xs) -> (fst (lowest x xs) <=? fst r) = true.
Proof.
  induction xs as [| y xs IH] using rev_ind; intros Hn r Hr.
  - destruct Hr as [<- | []]. apply OrderFacts.leb_refl, (no_nan_row [x]); auto.
    left. reflexivity.
  - apply no_nan_snoc in Hn as [Hn Hy]. specialize (IH Hn).
    assert (Hm : is_nan (fst (lowest x xs)) = false)
      by (apply (no_nan_row (x :: xs)); [ exact Hn | apply lowest_in ]).
    rewrite lowest_snoc. unfold lower.
    rewrite app_comm_cons in Hr. apply in_app_or in Hr as [Hr | [<- | []]].
    + specialize (IH r Hr).
      destruct (fst y <? fst (lowest x xs)) eqn:E; [ | exact IH ].
      eapply OrderFacts.leb_trans; [ apply OrderFacts.ltb_leb; exact E | exact IH ].
    + destruct (fst y <? fst (lowest x xs)) eqn:E.
      * apply OrderFacts.leb_refl; exact Hy.
      * apply OrderFacts.not_ltb_leb; assumption.
Qed.

(** No row is above the highest one. *)
Lemma highest_greatest (x : Row) (xs : list Row) :
  no_nan (map fst (x :: xs)) ->
  forall r, In r (x :: xs) -> (fst r <=? fst (highest x xs)) = true.
Proof.
  induction xs as [| y xs IH] using rev_ind; intros Hn r Hr.
  - destruct Hr as [<- | []]. apply OrderFacts.leb_refl, (no_nan_row [x]); auto.
    left. reflexivity.
  - apply no_nan_snoc in Hn as [Hn Hy]. specialize (IH Hn).
    assert (Hm : is_nan (fst (highest x xs)) = false)
      by (apply (no_nan_row (x :: xs)); [ exact Hn | apply highest_in ]).
    rewrite highest_snoc. unfold higher.
    rewrite app_comm_cons in Hr. apply in_app_or in Hr as [Hr | [<- | []]].
    + specialize (IH r Hr).
      destruct (fst (highest x xs) <? fst y) eqn:E; [ | exact IH ].
      eapply OrderFacts.leb_trans; [ exact IH | apply OrderFacts.ltb_leb; exact E ].
    + destruct (fst (highest x xs) <? fst y) eqn:E.
      * apply OrderFacts.leb_refl; exact Hy.
      * apply OrderFacts.not_ltb_leb; assumption.
Qed.

Lemma eqb_refl (x : float) : is_nan x = false -> (x =? x) = true.
Proof. intros Hx. float_order. Qed.

Lemma ltb_not_eqb (x y z : float) :
  (x <? y) = true -> (y <=? z) = true -> (z =? x) = false.
Proof. intros Hxy Hyz. float_order. Qed.

Lemma gtb_not_eqb (x y z : float) :
  (y <? x) = true -> (z <=? y) = true -> (z =? x) = false.
Proof. intros Hxy Hyz. float_order. Qed.

(** The lowest row is the first row of its position. *)
Lemma lowest_first (x : Row) (xs : list Row) :
  no_nan (map fst (x :: xs)) ->
  find (fun r => fst r =? fst (lowest x xs)) (x :: xs) = Some (lowest x xs).
Proof.
  induction xs as [| y xs IH] using rev_ind; intros Hn.
  - cbn. rewrite eqb_refl; [ reflexivity | ].
    apply (no_nan_row [x]); [ exact Hn | left; reflexivity ].
  - apply no_nan_snoc in Hn as [Hn Hy]. specialize (IH Hn).
    pose proof (lowest_least Hn) as Hleast.
    rewrite lowest_snoc. unfold lower. rewrite app_comm_cons.
    destruct (fst y <? fst (lowest x xs)) eqn:E.
    + rewrite find_app_none.
      * cbn. rewrite eqb_refl by exact Hy. reflexivity.
      * intros r Hr. apply (ltb_not_eqb E). apply Hleast. exact Hr.
    + apply find_app_some. exact IH.
Qed.

(** The highest row is the first row of its position. *)
Lemma highest_first (x : Row) (xs : list Row) :
  no_nan (map fst (x :: xs)) ->
  find (fun r => fst r =? fst (highest x xs)) (x :: xs) = Some (highest x xs).
Proof.
  induction xs as [| y xs IH] using rev_ind; intros Hn.
  - cbn. rewrite eqb_refl; [ reflexivity | ].
    apply (no_nan_row [x]); [ exact Hn | left; reflexivity ].
  - apply no_nan_snoc in Hn as [Hn Hy]. specialize (IH Hn).
    pose proof (highest_greatest Hn) as Hgreatest.
    rewrite highest_snoc. unfold higher. rewrite app_comm_cons.
    destruct (fst (highest x xs) <? fst y) eqn:E.
    + rewrite find_app_none.
      * cbn. rewrite eqb_refl by exact Hy. reflexivity.
      * intros r Hr. apply (gtb_not_eqb E). apply Hgreatest. exact Hr.
    + apply find_app_some. exact IH.
Qed.

End TableFacts.

Module BracketFacts.

Import TableFacts.
Local Open Scope float_scope.

Lemma filter_all {A : Type} (f : A -> bool) (l : list A) :
  (forall x, In x l -> f x = true) -> filter f l = l.
Proof.
  induction l as [| y l IH]; cbn; intros Hf; [ reflexivity | ].
  rewrite (Hf y) by (left; reflexivity). f_equal. apply IH.
  intros x Hx. apply Hf. right. exact Hx.
Qed.

Lemma nearest_below_snoc (p : float) (rows : list Row) (y : Row) :
  nearest_below p (rows ++ [y])
  = if fst y <=? p
    then Some match nearest_below p rows with Some l => higher l y | None => y end
    else nearest_below p rows.
Proof.
  unfold nearest_below. rewrite filter_app. cbn [filter].
  destruct (fst y <=? p); [ | rewrite app_nil_r; reflexivity ].
  destruct (filter (fun r : float * float => fst r <=? p) rows) as [| x xs];
    [ reflexivity | ].
  cbn [app]. rewrite highest_snoc. reflexivity.
Qed.

Lemma nearest_above_snoc (p : float) (rows : list Row) (y : Row) :
  nearest_above p (rows ++ [y])
  = if p <=? fst y
    then Some match nearest_above p rows with Some h => lower h y | None => y end
    else nearest_above p rows.
Proof.
  unfold nearest_above. rewrite filter_app. cbn [filter].
  destruct (p <=? fst y); [ | rewrite app_nil_r; reflexivity ].
  destruct (filter (fun r : float * float => p <=? fst r) rows) as [| x xs];
    [ reflexivity | ].
  cbn [app]. rewrite lowest_snoc. reflexivity.
Qed.

Lemma nearest_below_none (p : float) (rows : list Row) :
  nearest_below p rows = None -> forall r, In r rows -> (fst r <=? p) = false.
Proof.
  unfold nearest_below. intros E r Hr.
  destruct (filter (fun r : float * float => fst r <=? p) rows) as [| x xs] eqn:F; [ | discriminate ].
  destruct (fst r <=? p) eqn:Hp; [ | reflexivity ].
  assert (Hin : In r (filter (fun r => fst r <=? p) rows))
    by (apply filter_In; split; assumption).
  rewrite F in Hin. destruct Hin.
Qed.

Lemma nearest_above_none (p : float) (rows : list Row) :
  nearest_above p rows = None -> forall r, In r rows -> (p <=? fst r) = false.
Proof.
  unfold nearest_above. intros E r Hr.
  destruct (filter (fun r : float * float => p <=? fst r) rows) as [| x xs] eqn:F; [ | discriminate ].
  destruct (p <=? fst r) eqn:Hp; [ | reflexivity ].
  assert (Hin : In r (filter (fun r => p <=? fst r) rows))
    by (apply filter_In; split; assumption).
  rewrite F in Hin. destruct Hin.
Qed.

Lemma leb_eqb_trans (x y z : float) :
  (x <=? y) = true -> (z =? y) = true -> (x <=? z) = true.
Proof. intros Hxy Hzy. float_order. Qed.

Lemma eqb_leb_trans (x y z : float) :
  (y <=? x) = true -> (z =? y) = true -> (z <=? x) = true.
Proof. intros Hxy Hzy. float_order. Qed.

(** The nearest row at or below [p]: a row of the table at or below
    [p], below which no such row is, and the first row of its
    position. *)
Lemma nearest_below_spec (p : float) (rows : list Row) (l : Row) :
  no_nan (map fst rows) ->
  nearest_below p rows = Some l ->
  In l rows /\ (fst l <=? p) = true
  /\ (forall r, In r rows -> (fst r <=? p) = true -> (fst r <=? fst l) = true)
  /\ find (fun r => fst r =? fst l) rows = Some l.
Proof.
  unfold nearest_below. intros Hn E.
  destruct (filter (fun r => fst r <=? p) rows) as [| x xs] eqn:F; [ discriminate | ].
  injection E as <-.
  assert (Hsub : forall r, In r (x :: xs) -> In r rows /\ (fst r <=? p) = true)
    by (intros r Hr; rewrite <- F in Hr; apply filter_In in Hr; exact Hr).
  assert (Hn' : no_nan (map fst (x :: xs)))
    by (apply (no_nan_incl rows); [ intros r Hr; apply Hsub; exact Hr | exact Hn ]).
  destruct (Hsub _ (highest_in x xs)) as [Hin Hle].
  repeat split; try assumption.
  - intros r Hr Hp. apply highest_greatest; [ exact Hn' | ].
    rewrite <- F. apply filter_In. split; assumption.
  - rewrite <- (highest_first Hn'), <- F. symmetry. apply find_filter.
    intros r Hr Hg. eapply eqb_leb_trans; eassumption.
Qed.

Lemma nearest_above_spec (p : float) (rows : list Row) (h : Row) :
  no_nan (map fst rows) ->
  nearest_above p rows = Some h ->
  In h rows /\ (p <=? fst h) = true
  /\ (forall r, In r rows -> (p <=? fst r) = true -> (fst h <=? fst r) = true)
  /\ find (fun r => fst r =? fst h) rows = Some h.
Proof.
  unfold nearest_above. intros Hn E.
  destruct (filter (fun r => p <=? fst r) rows) as [| x xs] eqn:F; [ discriminate | ].
  injection E as <-.
  assert (Hsub : forall r, In r (x :: xs) -> In r rows /\ (p <=? fst r) = true)
    by (intros r Hr; rewrite <- F in Hr; apply filter_In in Hr; exact Hr).
  assert (Hn' : no_nan (map fst (x :: xs)))
    by (apply (no_nan_incl rows); [ intros r Hr; apply Hsub; exact Hr | exact Hn ]).
  destruct (Hsub _ (lowest_in x xs)) as [Hin Hle].
  repeat split; try assumption.
  - intros r Hr Hp. apply lowest_least; [ exact Hn' | ].
    rewrite <- F. apply filter_In. split; assumption.
  - rewrite <- (lowest_first Hn'), <- F. symmetry. apply find_filter.
    intros r Hr Hg. eapply leb_eqb_trans; eassumption.
Qed.

End BracketFacts.

Module ScanFacts.

Import TableFacts BracketFacts.
Local Open Scope float_scope.

Lemma getVec2_row (y : Row) : getVec2 (row_value y) = Some y.
Proof. destruct y; reflexivity. Qed.

(** One turn of the loop takes the bracket of the rows read so far to
    the bracket of these rows and the row it reads. *)
Lemma lookup_step_bracket (first : Row) (p : float) (rows : list Row) (y : Row) :
  In first rows ->
  no_nan (p :: map fst (rows ++ [y])) ->
  lookup_step p (bracket_of first p rows) (row_value y)
  = bracket_of first p (rows ++ [y]).
Proof.
  intros Hfirst Hn.
  assert (Hp : is_nan p = false) by (apply Hn; left; reflexivity).
  assert (Hrows : no_nan (map fst rows)).
  { intros x Hx. apply Hn. right. rewrite map_app. apply in_or_app. left. exact Hx. }
  assert (Hy : is_nan (fst y) = false).
  { apply Hn. right. rewrite map_app. apply in_or_app. right. left. reflexivity. }
  assert (Hf : is_nan (fst first) = false) by (apply (no_nan_row rows first Hrows Hfirst)).
  unfold lookup_step. rewrite getVec2_row. destruct y as [yp yv]. cbn [fst snd] in *.
  unfold bracket_of. rewrite nearest_below_snoc, nearest_above_snoc. cbn [fst snd].
  clear Hn.
  destruct (nearest_below p rows) as [l |] eqn:Eb, (nearest_above p rows) as [h |] eqn:Ea.
  - destruct (nearest_below_spec p rows Hrows Eb) as [Hl [Hlp _]].
    destruct (nearest_above_spec p rows Hrows Ea) as [Hh [Hhp _]].
    pose proof (no_nan_row rows l Hrows Hl) as Hln.
    pose proof (no_nan_row rows h Hrows Hh) as Hhn.
    clear Eb Ea Hrows Hfirst Hl Hh Hf.
    unfold higher, lower. cbn [fst snd low_p low_v high_p high_v].
    destruct l as [lp lv], h as [hp hv]. cbn [fst snd] in *. order_cases.
  - destruct (nearest_below_spec p rows Hrows Eb) as [Hl [Hlp _]].
    pose proof (nearest_above_none p rows Ea first Hfirst) as Hfa.
    pose proof (no_nan_row rows l Hrows Hl) as Hln.
    clear Eb Ea Hrows Hfirst Hl.
    unfold higher, lower. cbn [fst snd low_p low_v high_p high_v].
    destruct l as [lp lv], first as [fp fv]. cbn [fst snd] in *. order_cases.
  - destruct (nearest_above_spec p rows Hrows Ea) as [Hh [Hhp _]].
    pose proof (nearest_below_none p rows Eb first Hfirst) as Hfb.
    pose proof (no_nan_row rows h Hrows Hh) as Hhn.
    clear Eb Ea Hrows Hfirst Hh.
    unfold higher, lower. cbn [fst snd low_p low_v high_p high_v].
    destruct h as [hp hv], first as [fp fv]. cbn [fst snd] in *. order_cases.
  - pose proof (nearest_below_none p rows Eb first Hfirst) as Hfb.
    pose proof (nearest_above_none p rows Ea first Hfirst) as Hfa.
    clear Eb Ea Hrows Hfirst.
    exfalso. order_cases.
Qed.

(** The loop over the rows after the first leaves the bracket of the
    whole table. *)
Lemma lookup_scan_bracket (first : Row) (p : float) (rest : list Row) :
  forall pre,
    no_nan (p :: map fst (first :: pre ++ rest)) ->
    lookup_scan p (bracket_of first p (first :: pre)) (map row_value rest)
    = bracket_of first p (first :: pre ++ rest).
Proof.
  induction rest as [| y rest IH]; intros pre Hn.
  - rewrite app_nil_r. reflexivity.
  - cbn [map lookup_scan].
    rewrite lookup_step_bracket.
    + change (y :: rest) with ([y] ++ rest). rewrite app_assoc.
      rewrite <- app_comm_cons. apply IH.
      rewrite <- app_assoc. exact Hn.
    + left. reflexivity.
    + intros x [<- | Hx]; [ apply Hn; left; reflexivity | ].
      apply Hn. right. rewrite map_app in Hx. cbn [map] in Hx |- *.
      destruct Hx as [<- | Hx]; [ left; reflexivity | right ].
      rewrite map_app. apply in_app_or in Hx as [Hx | Hx]; apply in_or_app;
        [ left; exact Hx | right ].
      destruct Hx as [<- | []]. left. reflexivity.
Qed.

Lemma bracket_of_first (first : Row) (p : float) :
  bracket_of first p [first]
  = {| low_p := fst first; low_v := snd first;
       high_p := fst first; high_v := snd first |}.
Proof.
  unfold bracket_of, nearest_below, nearest_above. cbn [filter].
  destruct (fst first <=? p), (p <=? fst first); reflexivity.
Qed.

End ScanFacts.

Module LookupFinal.

Import TableFacts BracketFacts ScanFacts.
Local Open Scope float_scope.

Lemma eqb_trans_r (a b x : float) :
  is_nan x = false -> (a =? b) = true -> (x =? a) = (x =? b).
Proof. intros Hx Hab. float_order. Qed.

Lemma find_same_position (rows : list Row) (a b : float) :
  no_nan (map fst rows) -> (a =? b) = true ->
  find (fun r => fst r =? a) rows = find (fun r => fst r =? b) rows.
Proof.
  intros Hn Hab. induction rows as [| r rows IH]; [ reflexivity | ].
  cbn [find].
  rewrite (@eqb_trans_r a b (fst r) (@no_nan_row (r :: rows) r Hn (or_introl eq_refl)) Hab).
  rewrite IH; [ reflexivity | ].
  apply (@no_nan_incl (r :: rows)); [ intros x Hx; right; exact Hx | exact Hn ].
Qed.

(** Two rows that are each the first of their position, at positions
    that are equal, are one row. *)
Lemma same_row (rows : list Row) (x y : Row) :
  no_nan (map fst rows) ->
  find (fun r => fst r =? fst x) rows = Some x ->
  find (fun r => fst r =? fst y) rows = Some y ->
  (fst x =? fst y) = true -> x = y.
Proof.
  intros Hn Hx Hy Hxy. rewrite (@find_same_position rows _ _ Hn Hxy) in Hx. congruence.
Qed.

Lemma same_row_at (rows : list Row) (p : float) (x r : Row) :
  no_nan (map fst rows) ->
  find (fun r => fst r =? fst x) rows = Some x ->
  at_position p rows = Some r ->
  (fst x =? p) = true -> x = r.
Proof.
  unfold at_position. intros Hn Hx Hr Hxp.
  rewrite (@find_same_position rows _ _ Hn Hxp) in Hx. congruence.
Qed.

Lemma leb_antisym (x y : float) :
  (x <=? y) = true -> (y <=? x) = true -> (x =? y) = true.
Proof. intros Hxy Hyx. float_order. Qed.

Lemma leb_not_eqb (x y : float) :
  (x <=? y) = true -> (x =? y) = false -> (x <? y) = true.
Proof. intros Hxy Hne. float_order. Qed.

Lemma geb_not_eqb (x y : float) :
  (y <=? x) = true -> (x =? y) = false -> (y <? x) = true.
Proof. intros Hxy Hne. float_order. Qed.

Lemma ltb_not_leb (x y : float) : (x <? y) = true -> (y <=? x) = false.
Proof. intros Hxy. float_order. Qed.

Lemma not_leb_ltb (x y : float) :
  is_nan x = false -> is_nan y = false -> (x <=? y) = false -> (y <? x) = true.
Proof. intros Hx Hy Hxy. float_order. Qed.

Lemma eqb_geb (x y : float) : (x =? y) = true -> (y <=? x) = true.
Proof. intros Hxy. float_order. Qed.

End LookupFinal.

Section LookupTheorem.

Local Open Scope float_scope.

(** A row at a NaN position changes no bracket: every comparison with
    its position fails. *)
Lemma lookup_step_nan_position (p : float) (b : Bracket) (y : Row) :
  has_position y = false -> lookup_step p b (row_value y) = b.
Proof.
  unfold has_position. intros Hy. apply negb_false_iff, DoubleFacts.is_nan_key in Hy.
  unfold lookup_step. rewrite ScanFacts.getVec2_row.
  destruct y as [yp yv]. cbn [fst] in Hy.
  rewrite !DoubleFacts.leb_key, Hy.
  destruct (Double.key p); reflexivity.
Qed.

Lemma lookup_scan_comparable (p : float) (rest : list Row) :
  forall b, lookup_scan p b (map row_value rest)
            = lookup_scan p b (map row_value (filter has_position rest)).
Proof.
  induction rest as [| y rest IH]; intros b; [ reflexivity | ].
  cbn [map lookup_scan filter]. destruct (has_position y) eqn:E.
  - cbn [map lookup_scan]. apply IH.
  - rewrite lookup_step_nan_position by exact E. apply IH.
Qed.

(** The claim on a table none of whose positions is NaN. *)
Lemma lookup_interpolates_comparable (p : float) (first : Row) (rest : list Row) (args : list Value) :
  no_nan (p :: map fst (first :: rest)) ->
  exists result,
    builtin_lookup (Number p :: Vector (map row_value (first :: rest)) :: args)
    = silently (Number result)
    /\ ((p <=? fst (lowest first rest)) = true -> result = snd (lowest first rest))
    /\ ((fst (highest first rest) <=? p) = true -> result = snd (highest first rest))
    /\ (forall r, at_position p (first :: rest) = Some r -> result = snd r)
    /\ ((fst (lowest first rest) <? p) = true ->
        (p <? fst (highest first rest)) = true ->
        at_position p (first :: rest) = None ->
        exists l h,
          nearest_below p (first :: rest) = Some l
          /\ nearest_above p (first :: rest) = Some h
          /\ (fst l <? p) = true /\ (p <? fst h) = true
          /\ result = interpolate p l h).
Proof.
  intros Hn.
  assert (Hp : is_nan p = false) by (apply Hn; left; reflexivity).
  assert (Hrows : no_nan (map fst (first :: rest)))
    by (intros x Hx; apply Hn; right; exact Hx).
  cbn [map].
  rewrite (@LookupRows.builtin_lookup_scan p (fst first) (snd first) (row_value first)
             (map row_value rest) args)
    by (destruct first; reflexivity).
  cbv zeta.
  rewrite <- (ScanFacts.bracket_of_first first p).
  rewrite (@ScanFacts.lookup_scan_bracket first p rest [] Hn). cbn [app].
  eexists. split; [ reflexivity | ].
  set (rows := first :: rest) in *.
  assert (Hfirst : In first rows) by (left; reflexivity).
  pose proof (TableFacts.lowest_in first rest) as Llo.
  pose proof (TableFacts.highest_in first rest) as Lhi.
  pose proof (@TableFacts.lowest_least first rest Hrows) as Lleast.
  pose proof (@TableFacts.highest_greatest first rest Hrows) as Lgreatest.
  pose proof (@TableFacts.lowest_first first rest Hrows) as Lfirst.
  pose proof (@TableFacts.highest_first first rest Hrows) as Hfirst'.
  fold rows in Llo, Lhi, Lleast, Lgreatest, Lfirst, Hfirst'.
  set (lo := lowest first rest) in *. set (hi := highest first rest) in *.
  clearbody lo hi.
  pose proof (@TableFacts.no_nan_row rows lo Hrows Llo) as Hlon.
  pose proof (@TableFacts.no_nan_row rows hi Hrows Lhi) as Hhin.
  pose proof (@TableFacts.no_nan_row rows first Hrows Hfirst) as Hfn.
  unfold bracket_of. cbn [low_p low_v high_p high_v].
  destruct (nearest_below p rows) as [l |] eqn:Eb, (nearest_above p rows) as [h |] eqn:Ea.
  - destruct (@BracketFacts.nearest_below_spec p rows l Hrows Eb) as [Hl [Hlp [Hlmax Hlfirst]]].
    destruct (@BracketFacts.nearest_above_spec p rows h Hrows Ea) as [Hh [Hhp [Hhmin Hhfirst]]].
    repeat split.
    + intros Ha.
      rewrite (@OrderFacts.leb_trans p (fst lo) (fst l) Ha (Lleast l Hl)).
      rewrite (@LookupFinal.same_row rows h lo Hrows Hhfirst Lfirst
                 (@LookupFinal.leb_antisym (fst h) (fst lo) (Hhmin lo Llo Ha) (Lleast h Hh))).
      reflexivity.
    + intros Hb.
      assert (El : l = hi).
      { apply (@LookupFinal.same_row rows l hi Hrows Hlfirst Hfirst').
        apply LookupFinal.leb_antisym; [ apply Lgreatest, Hl | apply Hlmax; assumption ]. }
      subst l.
      destruct (p <=? fst hi) eqn:E.
      * rewrite (@LookupFinal.same_row rows h hi Hrows Hhfirst Hfirst'); [ reflexivity | ].
        apply LookupFinal.leb_antisym; [ apply Lgreatest, Hh | ].
        eapply OrderFacts.leb_trans; eassumption.
      * rewrite (@OrderFacts.leb_trans (fst h) (fst hi) p (Lgreatest h Hh) Hb).
        reflexivity.
    + intros r Hr. unfold at_position in Hr.
      destruct (find_some _ _ Hr) as [Hrin Hrp].
      pose proof (OrderFacts.eqb_leb Hrp) as Hr1.
      pose proof (LookupFinal.eqb_geb Hrp) as Hr2.
      rewrite (@OrderFacts.leb_trans p (fst r) (fst l) Hr2 (Hlmax r Hrin Hr1)).
      rewrite (@LookupFinal.same_row_at rows p h r Hrows Hhfirst Hr); [ reflexivity | ].
      apply LookupFinal.leb_antisym; [ | exact Hhp ].
      eapply OrderFacts.leb_trans; [ apply Hhmin; eassumption | exact Hr1 ].
    + intros Hlo Hhi Hnone. exists l, h. unfold at_position in Hnone.
      pose proof (find_none _ _ Hnone) as Hne.
      pose proof (LookupFinal.leb_not_eqb Hlp (Hne l Hl)) as Hl1.
      pose proof (LookupFinal.geb_not_eqb Hhp (Hne h Hh)) as Hh1.
      rewrite (LookupFinal.ltb_not_leb Hl1), (LookupFinal.ltb_not_leb Hh1).
      repeat split; assumption || reflexivity.
  - destruct (@BracketFacts.nearest_below_spec p rows l Hrows Eb) as [Hl [Hlp [Hlmax Hlfirst]]].
    pose proof (@BracketFacts.nearest_above_none p rows Ea) as Hnone_a.
    repeat split.
    + intros Ha. rewrite (Hnone_a lo Llo) in Ha. discriminate.
    + intros Hb.
      assert (El : l = hi).
      { apply (@LookupFinal.same_row rows l hi Hrows Hlfirst Hfirst').
        apply LookupFinal.leb_antisym; [ apply Lgreatest, Hl | apply Hlmax; assumption ]. }
      subst l.
      rewrite (Hnone_a hi Lhi).
      rewrite (OrderFacts.ltb_leb (LookupFinal.not_leb_ltb Hp Hfn (Hnone_a first Hfirst))).
      reflexivity.
    + intros r Hr. unfold at_position in Hr.
      destruct (find_some _ _ Hr) as [Hrin Hrp].
      pose proof (LookupFinal.eqb_geb Hrp) as Hr2. rewrite (Hnone_a r Hrin) in Hr2. discriminate.
    + intros Hlo Hhi Hnone.
      pose proof (OrderFacts.ltb_leb Hhi) as F. rewrite (Hnone_a hi Lhi) in F. discriminate.
  - destruct (@BracketFacts.nearest_above_spec p rows h Hrows Ea) as [Hh [Hhp [Hhmin Hhfirst]]].
    pose proof (@BracketFacts.nearest_below_none p rows Eb) as Hnone_b.
    rewrite (OrderFacts.ltb_leb (LookupFinal.not_leb_ltb Hfn Hp (Hnone_b first Hfirst))).
    repeat split.
    + intros Ha.
      rewrite (@LookupFinal.same_row rows h lo Hrows Hhfirst Lfirst
                 (@LookupFinal.leb_antisym (fst h) (fst lo) (Hhmin lo Llo Ha) (Lleast h Hh))).
      reflexivity.
    + intros Hb. rewrite (Hnone_b hi Lhi) in Hb. discriminate.
    + intros r Hr. unfold at_position in Hr.
      destruct (find_some _ _ Hr) as [Hrin Hrp].
      pose proof (OrderFacts.eqb_leb Hrp) as Hr1. rewrite (Hnone_b r Hrin) in Hr1.
      discriminate.
    + intros Hlo Hhi Hnone.
      pose proof (OrderFacts.ltb_leb Hlo) as F. rewrite (Hnone_b lo Llo) in F. discriminate.
  - exfalso.
    pose proof (@BracketFacts.nearest_below_none p rows Eb first Hfirst) as F1.
    pose proof (@BracketFacts.nearest_above_none p rows Ea first Hfirst) as F2.
    clear - Hp Hfn F1 F2. float_order.
Qed.


(** C4, as the source has it.  For a table of rows that are pairs of
    numbers, when neither [p] nor the position of the first row is NaN,
    the rows after the first whose position is NaN are passed over, and
    on the other rows:
    - at or below the lowest position the result is the value of the
      first row of that position, and at or above the highest position
      the value of the first row of that one;
    - at a position of the table the result is the value of the first
      row of that position;
    - strictly between the lowest and the highest position, and at no
      position of the table, the result is the interpolation between
      the nearest row below [p] and the nearest row above it. *)
Theorem lookup_interpolates (p : float) (first : Row) (rest : list Row)
        (args : list Value) :
  is_nan p = false -> is_nan (fst first) = false ->
  let rows := filter has_position rest in
  exists result,
    builtin_lookup (Number p :: Vector (map row_value (first :: rest)) :: args)
    = silently (Number result)
    /\ ((p <=? fst (lowest first rows)) = true -> result = snd (lowest first rows))
    /\ ((fst (highest first rows) <=? p) = true -> result = snd (highest first rows))
    /\ (forall r, at_position p (first :: rows) = Some r -> result = snd r)
    /\ ((fst (lowest first rows) <? p) = true ->
        (p <? fst (highest first rows)) = true ->
        at_position p (first :: rows) = None ->
        exists l h,
          nearest_below p (first :: rows) = Some l
          /\ nearest_above p (first :: rows) = Some h
          /\ (fst l <? p) = true /\ (p <? fst h) = true
          /\ result = interpolate p l h).
Proof.
  intros Hp Hfirst rows.
  assert (Hn : no_nan (p :: map fst (first :: rows))).
  { intros x [<- | [<- | Hx]]; try assumption.
    apply in_map_iff in Hx as [r [<- Hr]]. apply filter_In in Hr as [_ Hr].
    unfold has_position in Hr. apply negb_true_iff in Hr. exact Hr. }
  destruct (@lookup_interpolates_comparable p first rows args Hn) as [result [Hcall Hrest]].
  exists result. split; [ | exact Hrest ].
  rewrite <- Hcall. cbn [map].
  destruct first as [p0 v0].
  rewrite !(@LookupRows.builtin_lookup_scan p p0 v0 (row_value (p0, v0)) _ args eq_refl).
  cbv zeta. unfold rows. rewrite <- lookup_scan_comparable. reflexivity.
Qed.

End LookupTheorem.

(** lookup(1.5, [[0,0], [2,20], [NaN,7], [1,100]]) *)
Lemma lookup_interpolates_witness :
  let rows := filter has_position [(2, 20); (nan, 7); (1, 100)]%float in
  exists result,
    builtin_lookup [Number 1.5;
                    Vector (map row_value [(0, 0); (2, 20); (nan, 7); (1, 100)]%float)]
    = silently (Number result)
    /\ ((1.5 <=? fst (lowest (0, 0) rows))%float = true ->
        result = snd (lowest (0, 0)%float rows))
    /\ ((fst (highest (0, 0) rows) <=? 1.5)%float = true ->
        result = snd (highest (0, 0)%float rows))
    /\ (forall r, at_position 1.5 ((0, 0)%float :: rows) = Some r -> result = snd r)
    /\ ((fst (lowest (0, 0) rows) <? 1.5)%float = true ->
        (1.5 <? fst (highest (0, 0) rows))%float = true ->
        at_position 1.5 ((0, 0)%float :: rows) = None ->
        exists l h,
          nearest_below 1.5 ((0, 0)%float :: rows) = Some l
          /\ nearest_above 1.5 ((0, 0)%float :: rows) = Some h
          /\ (fst l <? 1.5)%float = true /\ (1.5 <? fst h)%float = true
          /\ result = interpolate 1.5 l h).
Proof.
  apply (@lookup_interpolates 1.5 (0, 0)%float [(2, 20); (nan, 7); (1, 100)]%float []);
    reflexivity.
Defined.

(** C4 as the specification words it fails on a table with a NaN
    position: 5 is a position of [[NaN,7], [5,1]], whose value is 1,
    and lookup(5, ...) is NaN. *)
Lemma lookup_nan_position_counterexample :
  builtin_lookup [Number 5; Vector (map row_value [(nan, 7); (5, 1)]%float)]
  = silently (Number nan)
  /\ at_position 5 [(nan, 7); (5, 1)]%float = Some (5, 1)%float
  /\ (nan =? 1)%float = false.
Proof.
  repeat split; reflexivity.
Qed.

(** ** sin and cos *)

Module TrigFacts.

Local Open Scope float_scope.







Lemma all_range_sound (f : Z -> bool) (p : positive) :
  forall b, all_range p f b = true ->
            forall n, (b <= n < b + Zpos p)%Z -> f n = true.
Proof.
  induction p as [p IH | p IH |]; intros b Hall n Hn; cbn [all_range] in Hall.
  - apply andb_true_iff in Hall as [Hall H2]. apply andb_true_iff in Hall as [H0 H1].
    destruct (Z.eq_dec n b) as [-> | Hb]; [ exact H0 | ].
    destruct (Z_lt_le_dec n (b + 1 + Zpos p)) as [L | L].
    + apply (IH (b + 1)%Z H1). lia.
    + apply (IH (b + 1 + Zpos p)%Z H2). lia.
  - apply andb_true_iff in Hall as [H1 H2].
    destruct (Z_lt_le_dec n (b + Zpos p)) as [L | L].
    + apply (IH b H1). lia.
    + apply (IH (b + Zpos p)%Z H2). lia.
  - assert (n = b) as -> by lia. exact Hall.
Qed.

(** Every whole number of degrees up to [degree_bound] in magnitude,
    one by one. *)
Lemma integer_degrees_checked :
  all_range (Z.to_pos (2 * degree_bound + 1)) reduced_ok (- degree_bound) = true.
Proof. vm_compute. reflexivity. Qed.

Lemma reduce_integer_degrees (n : Z) :
  (- degree_bound <= n <= degree_bound)%Z ->
  reduce_degrees (Double.of_Z n) = Some (Double.of_Z (n mod 360))
  /\ (0 <=? Double.of_Z (n mod 360)) && (Double.of_Z (n mod 360) <? 360) = true.
Proof.
  intros Hn.
  assert (Hok : reduced_ok n = true).
  { apply (@all_range_sound reduced_ok _ _ integer_degrees_checked).
    rewrite Z2Pos.id by (unfold degree_bound; lia). lia. }
  unfold reduced_ok in Hok.
  destruct (reduce_degrees (Double.of_Z n)) as [r |]; [ | discriminate ].
  apply andb_true_iff in Hok as [Hok H360]. apply andb_true_iff in Hok as [Heq H0].
  apply FloatAxioms.Leibniz.eqb_spec in Heq. subst r. rewrite H0, H360. split; reflexivity.
Qed.

Section WithLibm.

Context {M : math.Libm}.

Lemma builtin_sin_cos_reduced (x r : float) :
  reduce_degrees x = Some r ->
  builtin_sin [Number x] = Number (sin_reduced r)
  /\ builtin_cos [Number x] = Number (cos_reduced r).
Proof.
  intros E. unfold builtin_sin, builtin_cos.
  cbn [numArgs length Nat.eqb getArgValue nth is_number type ValueType_eqb toDouble getDouble].
  rewrite E. split; reflexivity.
Qed.

(** [sin] and [cos] of a whole number of degrees are computed from
    the double [n mod 360]. *)
Lemma sin_cos_integer_degrees (n : Z) :
  (- degree_bound <= n <= degree_bound)%Z ->
  builtin_sin [Number (Double.of_Z n)] = Number (sin_reduced (Double.of_Z (n mod 360)))
  /\ builtin_cos [Number (Double.of_Z n)] = Number (cos_reduced (Double.of_Z (n mod 360))).
Proof.
  intros Hn. apply builtin_sin_cos_reduced. apply reduce_integer_degrees. exact Hn.
Qed.

End WithLibm.

End TrigFacts.

Section TrigTheorem.

Context {M : math.Libm}.


End TrigTheorem.


(** The threshold is 2^52 revolutions, not 2^52 degrees: the number
    4503599627370870 = 360 * 12509998964919 + 30 is above 2^52, its
    reduction is exactly 30, and its sine is 0.5 with every libm. *)
Lemma sin_above_2_52_degrees {M : math.Libm} :
  (4503599627370496 <=? 4503599627370870)%float = true
  /\ reduce_degrees 4503599627370870%float = Some 30%float
  /\ builtin_sin [Number 4503599627370870] = Number 0.5.
Proof.
  repeat split; reflexivity.
Qed.



(* ================================================================= *)
(** * Part III: further properties of the builtins *)
(* ================================================================= *)

(** ** abs and sign *)

Module AbsFacts.

Local Open Scope float_scope.

Lemma SFabs_idempotent (f : spec_float) : SFabs (SFabs f) = SFabs f.
Proof. destruct f; reflexivity. Qed.

Lemma SFabs_opp (f : spec_float) : SFabs (SFopp f) = SFabs f.
Proof. destruct f; reflexivity. Qed.

Lemma abs_idempotent (x : float) : abs (abs x) = abs x.
Proof.
  apply Prim2SF_inj. rewrite !FloatAxioms.abs_spec. apply SFabs_idempotent.
Qed.

Lemma abs_opp (x : float) : abs (- x) = abs x.
Proof.
  apply Prim2SF_inj. rewrite !FloatAxioms.abs_spec, FloatAxioms.opp_spec. apply SFabs_opp.
Qed.

Lemma abs_not_negative (x : float) : (abs x <? 0) = false.
Proof.
  rewrite FloatAxioms.ltb_spec, FloatAxioms.abs_spec.
  destruct (Prim2SF x) as [s | s | | s m e]; reflexivity.
Qed.

Lemma SFeqb_finite_refl (s : bool) (m : positive) (e : Z) :
  SFeqb (S754_finite s m e) (S754_finite s m e) = true.
Proof.
  unfold SFeqb, SFcompare. rewrite Z.compare_refl.
  change (PosDef.Pos.compare_cont Eq m m) with (Pos.compare m m).
  rewrite Pos.compare_refl. destruct s; reflexivity.
Qed.

(** [fabs] is above 0 on every double but NaN and the two zeros. *)
Lemma abs_positive (x : float) : (0 <? abs x) = negb (is_nan x) && negb (x =? 0).
Proof.
  unfold is_nan. rewrite FloatAxioms.ltb_spec, FloatAxioms.abs_spec, !FloatAxioms.eqb_spec.
  change (Prim2SF 0) with (S754_zero false).
  destruct (Prim2SF x) as [s | s | | s m e]; try reflexivity.
  - destruct s; reflexivity.
  - rewrite SFeqb_finite_refl. destruct s; reflexivity.
Qed.

End AbsFacts.

Section AbsSign.

Local Open Scope float_scope.

(** X1.  [abs] does not see the sign of its argument, and applying it
    twice is applying it once: abs(-x) = abs(x) and
    abs(abs(x)) = abs(x), for every double, NaN, the zeros and the
    infinities included. *)
Theorem abs_even_idempotent (x : float) :
  builtin_abs [Number (- x)] = builtin_abs [Number x]
  /\ builtin_abs [builtin_abs [Number x]] = builtin_abs [Number x].
Proof.
  unfold builtin_abs, Double.fabs.
  cbn [numArgs length Nat.eqb getArgValue nth is_number type ValueType_eqb toDouble getDouble].
  rewrite AbsFacts.abs_opp, AbsFacts.abs_idempotent. split; reflexivity.
Qed.

(** X2.  [sign] of [abs] is never -1: sign(abs(x)) is 0 when [x] is NaN
    or a zero, and 1 otherwise. *)
Theorem sign_of_abs (x : float) :
  builtin_sign [builtin_abs [Number x]]
  = Number (if is_nan x || (x =? 0) then 0 else 1).
Proof.
  unfold builtin_sign, builtin_abs, Double.fabs.
  cbn [numArgs length Nat.eqb getArgValue nth is_number type ValueType_eqb toDouble getDouble].
  rewrite AbsFacts.abs_not_negative, AbsFacts.abs_positive.
  destruct (is_nan x), (x =? 0); reflexivity.
Qed.

End AbsSign.

Module SignFacts.

Local Open Scope float_scope.

Lemma opp_below_zero (x : float) : (- x <? 0) = (0 <? x).
Proof.
  rewrite !FloatAxioms.ltb_spec, FloatAxioms.opp_spec.
  change (Prim2SF 0) with (S754_zero false).
  destruct (Prim2SF x) as [s | s | | s m e]; try destruct s; reflexivity.
Qed.

Lemma opp_above_zero (x : float) : (0 <? - x) = (x <? 0).
Proof.
  rewrite !FloatAxioms.ltb_spec, FloatAxioms.opp_spec.
  change (Prim2SF 0) with (S754_zero false).
  destruct (Prim2SF x) as [s | s | | s m e]; try destruct s; reflexivity.
Qed.

Lemma not_both_sides (x : float) : (x <? 0) = true -> (0 <? x) = false.
Proof. intros E. float_order. Qed.

End SignFacts.

Section SignTheorem.

Local Open Scope float_scope.

(** X26.  [sign] mirrors under negation: sign(-x) is -1 where sign(x)
    is 1, 1 where sign(x) is -1, and 0 where sign(x) is 0 (a zero or
    NaN). *)
Theorem sign_mirrored (x : float) :
  builtin_sign [Number (- x)]
  = Number (if 0 <? x then -1 else if x <? 0 then 1 else 0)
  /\ (builtin_sign [Number x] = Number 1 <-> builtin_sign [Number (- x)] = Number (-1))
  /\ (builtin_sign [Number x] = Number 0 <-> builtin_sign [Number (- x)] = Number 0).
Proof.
  unfold builtin_sign.
  cbn [numArgs length Nat.eqb getArgValue nth is_number type ValueType_eqb toDouble getDouble].
  rewrite SignFacts.opp_below_zero, SignFacts.opp_above_zero.
  split; [ reflexivity | ].
  destruct (x <? 0) eqn:N.
  - rewrite (SignFacts.not_both_sides N). split; split; intros E; discriminate E.
  - destruct (0 <? x); split; split; intros E; try reflexivity; discriminate E.
Qed.

End SignTheorem.

(** ** min and max: the two modes *)

Module MinMaxModes.

Local Open Scope float_scope.

(** On numbers the scan of the arguments and the scan of a vector do
    the same. *)
Lemma min_scan_element (xs : list float) (val : float) :
  min_scan val (map Number xs) = min_element (Number val) (map Number xs).
Proof.
  revert val. induction xs as [| x xs IH]; intros val; [ reflexivity | ].
  cbn [map min_scan min_element is_number type ValueType_eqb negb toDouble getDouble].
  rewrite IH. unfold Val.ltb. cbn [ltgt fst].
  destruct (x <? val); reflexivity.
Qed.

Lemma max_scan_element (xs : list float) (val : float) :
  max_scan val (map Number xs) = max_element (Number val) (map Number xs).
Proof.
  revert val. induction xs as [| x xs IH]; intros val; [ reflexivity | ].
  cbn [map max_scan max_element is_number type ValueType_eqb negb toDouble getDouble].
  rewrite IH. unfold Val.gtb. cbn [ltgt snd].
  destruct (val <? x); reflexivity.
Qed.

Lemma min_element_in (rest : list Value) (first : Value) :
  In (min_element first rest) (first :: rest).
Proof.
  revert first. induction rest as [| v rest IH]; intros first; [ left; reflexivity | ].
  cbn [min_element]. specialize (IH (if Val.ltb v first then v else first)).
  destruct IH as [E | I].
  - rewrite <- E. destruct (Val.ltb v first); [ right; left | left ]; reflexivity.
  - right; right; exact I.
Qed.

Lemma max_element_in (rest : list Value) (first : Value) :
  In (max_element first rest) (first :: rest).
Proof.
  revert first. induction rest as [| v rest IH]; intros first; [ left; reflexivity | ].
  cbn [max_element]. specialize (IH (if Val.gtb v first then v else first)).
  destruct IH as [E | I].
  - rewrite <- E. destruct (Val.gtb v first); [ right; left | left ]; reflexivity.
  - right; right; exact I.
Qed.

(** Values of different variants do not compare. *)
Lemma ltgt_other_type (v m : Value) :
  ValueType_eqb (type v) (type m) = false -> ltgt v m = (false, false).
Proof.
  destruct v, m; cbn [type ValueType_eqb]; intros E; try discriminate; reflexivity.
Qed.

Lemma min_element_first (first : Value) (others : list Value) :
  Forall (fun v => ValueType_eqb (type v) (type first) = false) others ->
  min_element first others = first.
Proof.
  induction 1 as [| v others Hv _ IH]; [ reflexivity | ].
  cbn [min_element]. unfold Val.ltb. rewrite (@ltgt_other_type v first Hv). exact IH.
Qed.

Lemma max_element_first (first : Value) (others : list Value) :
  Forall (fun v => ValueType_eqb (type v) (type first) = false) others ->
  max_element first others = first.
Proof.
  induction 1 as [| v others Hv _ IH]; [ reflexivity | ].
  cbn [max_element]. unfold Val.gtb. rewrite (@ltgt_other_type v first Hv). exact IH.
Qed.

End MinMaxModes.

(** X3.  The two modes of [min] and [max] agree on numbers: the call
    with one vector of numbers returns what the call with these numbers
    as its arguments returns, the empty vector and the empty argument
    list, which both give [Undefined], included. *)
Theorem min_max_modes_agree (xs : list float) :
  builtin_min [Vector (map Number xs)] = builtin_min (map Number xs)
  /\ builtin_max [Vector (map Number xs)] = builtin_max (map Number xs).
Proof.
  unfold builtin_min, builtin_max.
  destruct xs as [| x [| y xs]]; [ split; reflexivity | split; reflexivity | ].
  cbn [numArgs length map Nat.leb Nat.eqb andb getArgValue nth is_vector is_number type
       ValueType_eqb toVector toDouble getDouble tl].
  change (Number y :: map Number xs) with (map Number (y :: xs)).
  rewrite MinMaxModes.min_scan_element, MinMaxModes.max_scan_element.
  split; reflexivity.
Qed.

(** X4.  [min] and [max] of one vector that is not empty return one of
    its elements, whatever the variants of the elements are. *)
Theorem min_max_vector_member (v : list Value) :
  v <> [] ->
  In (builtin_min [Vector v]) v /\ In (builtin_max [Vector v]) v.
Proof.
  intros Hv. destruct v as [| first others]; [ contradiction | ].
  unfold builtin_min, builtin_max.
  cbn [numArgs length Nat.leb Nat.eqb andb getArgValue nth is_vector type ValueType_eqb
       toVector].
  split; [ apply MinMaxModes.min_element_in | apply MinMaxModes.max_element_in ].
Qed.

(** min([3, 1, 2]) and max([3, 1, 2]) are elements of [3, 1, 2]. *)
Lemma min_max_vector_member_witness :
  In (builtin_min [Vector [Number 3; Number 1; Number 2]]) [Number 3; Number 1; Number 2]
  /\ In (builtin_max [Vector [Number 3; Number 1; Number 2]]) [Number 3; Number 1; Number 2].
Proof.
  apply (@min_max_vector_member [Number 3; Number 1; Number 2]). discriminate.
Defined.

(** X5.  In the vector mode an element of another variant than the
    first one never replaces it: when no later element is of the first
    element's variant, [min] and [max] both return the first element. *)
Theorem min_max_vector_first_incomparable (first : Value) (others : list Value) :
  Forall (fun v => ValueType_eqb (type v) (type first) = false) others ->
  builtin_min [Vector (first :: others)] = first
  /\ builtin_max [Vector (first :: others)] = first.
Proof.
  intros Hothers. unfold builtin_min, builtin_max.
  cbn [numArgs length Nat.leb Nat.eqb andb getArgValue nth is_vector type ValueType_eqb
       toVector].
  rewrite (@MinMaxModes.min_element_first first others Hothers),
    (@MinMaxModes.max_element_first first others Hothers).
  split; reflexivity.
Qed.

(** min(["a", 1, 2]) and max(["a", 1, 2]) are "a". *)
Lemma min_max_vector_first_incomparable_witness :
  builtin_min [Vector [String [97%positive]; Number 1; Number 2]] = String [97%positive]
  /\ builtin_max [Vector [String [97%positive]; Number 1; Number 2]] = String [97%positive].
Proof.
  apply (@min_max_vector_first_incomparable (String [97%positive]) [Number 1; Number 2]).
  repeat constructor.
Defined.

(** ** rands: sizes and streams *)

Module RandsStreams.

Section WithGenerator.

Context {G : Generator}.
Local Open Scope float_scope.

Lemma draw_length (numresults : nat) (min max : float) (deterministic : bool) :
  forall rng : RngState,
    length (fst (draw numresults min max deterministic rng)) = numresults
    /\ Forall (fun v => is_number v = true) (fst (draw numresults min max deterministic rng)).
Proof.
  induction numresults as [| k IH]; intros rng; cbn [draw].
  - split; [ reflexivity | constructor ].
  - destruct deterministic.
    + destruct (uniform_real min max (deterministic_rng rng)) as [x g].
      specialize (IH {| deterministic_rng := g;
                        lessdeterministic_rng := lessdeterministic_rng rng |}).
      destruct (draw k min max true _) as [vec r]. cbn [fst] in *.
      destruct IH as [L F]. split; [ cbn [length]; rewrite L; reflexivity | ].
      constructor; [ reflexivity | exact F ].
    + destruct (uniform_real min max (lessdeterministic_rng rng)) as [x g].
      specialize (IH {| deterministic_rng := deterministic_rng rng;
                        lessdeterministic_rng := g |}).
      destruct (draw k min max false _) as [vec r]. cbn [fst] in *.
      destruct IH as [L F]. split; [ cbn [length]; rewrite L; reflexivity | ].
      constructor; [ reflexivity | exact F ].
Qed.

(** Drawing from one generator leaves the other one as it is. *)
Lemma draw_other_stream (numresults : nat) (min max : float) (deterministic : bool) :
  forall rng : RngState,
    if deterministic
    then lessdeterministic_rng (snd (draw numresults min max true rng))
         = lessdeterministic_rng rng
    else deterministic_rng (snd (draw numresults min max false rng))
         = deterministic_rng rng.
Proof.
  destruct deterministic.
  - induction numresults as [| k IH]; intros rng; cbn [draw]; [ reflexivity | ].
    destruct (uniform_real min max (deterministic_rng rng)) as [x g].
    specialize (IH {| deterministic_rng := g;
                      lessdeterministic_rng := lessdeterministic_rng rng |}).
    destruct (draw k min max true _) as [vec r]. cbn [snd lessdeterministic_rng] in *.
    exact IH.
  - induction numresults as [| k IH]; intros rng; cbn [draw]; [ reflexivity | ].
    destruct (uniform_real min max (lessdeterministic_rng rng)) as [x g].
    specialize (IH {| deterministic_rng := deterministic_rng rng;
                      lessdeterministic_rng := g |}).
    destruct (draw k min max false _) as [vec r]. cbn [snd deterministic_rng] in *.
    exact IH.
Qed.

(** [m + n] draws are [m] draws and then [n] draws from the state the
    first ones leave. *)
Lemma draw_app (m n : nat) (min max : float) (deterministic : bool) :
  forall rng : RngState,
    draw (m + n) min max deterministic rng
    = (fst (draw m min max deterministic rng)
         ++ fst (draw n min max deterministic (snd (draw m min max deterministic rng))),
       snd (draw n min max deterministic (snd (draw m min max deterministic rng)))).
Proof.
  induction m as [| m IH]; intros rng.
  - cbn [Nat.add draw fst snd app]. destruct (draw n min max deterministic rng); reflexivity.
  - cbn [Nat.add draw]. destruct deterministic.
    + destruct (uniform_real min max (deterministic_rng rng)) as [x g].
      rewrite IH.
      destruct (draw m min max true _) as [v1 r1]. cbn [fst snd].
      destruct (draw n min max true r1) as [v2 r2]. reflexivity.
    + destruct (uniform_real min max (lessdeterministic_rng rng)) as [x g].
      rewrite IH.
      destruct (draw m min max false _) as [v1 r1]. cbn [fst snd].
      destruct (draw n min max false r1) as [v2 r2]. reflexivity.
Qed.

Lemma firstn_app_exact {A : Type} (m : nat) (l1 l2 : list A) :
  length l1 = m -> firstn m (l1 ++ l2) = l1.
Proof.
  intros <-. rewrite firstn_app, Nat.sub_diag, firstn_all. cbn [firstn].
  apply app_nil_r.
Qed.

Lemma draw_prefix (m n : nat) (min max : float) (deterministic : bool) (rng : RngState) :
  (m <= n)%nat ->
  fst (draw m min max deterministic rng)
  = firstn m (fst (draw n min max deterministic rng)).
Proof.
  intros L. replace n with (m + (n - m))%nat by lia.
  rewrite draw_app. cbn [fst].
  pose proof (draw_length m min max deterministic rng) as [Lm _].
  symmetry. apply firstn_app_exact. exact Lm.
Qed.

Lemma repeat_prefix {A : Type} (x : A) (m n : nat) :
  (m <= n)%nat -> repeat x m = firstn m (repeat x n).
Proof.
  intros L. replace n with (m + (n - m))%nat by lia.
  rewrite repeat_app. symmetry. apply firstn_app_exact, repeat_length.
Qed.

(** Within the contract [rands] returns a vector. *)
Lemma rands_vector (evalctx : EvalContext) (rng : RngState) :
  ((length evalctx =? 3)%nat || (length evalctx =? 4)%nat)
  && forallb is_number evalctx = true ->
  type (fst (builtin_rands evalctx rng)) = VECTOR.
Proof.
  unfold builtin_rands.
  destruct evalctx as [| [| a | ? | ?] [| [| b | ? | ?] [| [| c | ? | ?] [| v3 [| v4 rest]]]]];
    try discriminate.
  - intros _.
    cbn [numArgs length Nat.eqb orb getArgValue nth is_number type
         ValueType_eqb negb toDouble getDouble Nat.ltb Nat.leb andb].
    destruct (if b <? a then (b, a) else (a, b)) as [lo hi].
    destruct (lo =? hi); [ reflexivity | ].
    destruct (draw _ lo hi false rng); reflexivity.
  - destruct v3 as [| s | ? | ?]; try discriminate. intros _.
    cbn [numArgs length Nat.eqb orb getArgValue nth is_number type
         ValueType_eqb negb toDouble getDouble Nat.ltb Nat.leb andb].
    destruct (if b <? a then (b, a) else (a, b)) as [lo hi].
    destruct (lo =? hi); [ reflexivity | ].
    destruct (draw _ lo hi true _); reflexivity.
Qed.

End WithGenerator.

End RandsStreams.

Section RandsTheorems.

Context {G : Generator}.
Local Open Scope float_scope.

(** X6.  A call of [rands] with three or four numbers returns a vector
    of numbers whose length is the third argument cut to an [int], and
    0 when that is negative. *)
Theorem rands_result_size (min max count : float) (seed_value : option float)
        (rng : RngState) :
  exists vec,
    fst (builtin_rands (Number min :: Number max :: Number count
                          :: seed_argument seed_value) rng) = Vector vec
    /\ length vec = rands_count count
    /\ Forall (fun v => is_number v = true) vec.
Proof.
  unfold builtin_rands, rands_count.
  destruct seed_value as [s |];
    cbn [seed_argument numArgs length Nat.eqb orb getArgValue nth is_number type
         ValueType_eqb negb toDouble getDouble Nat.ltb Nat.leb andb];
    destruct (if max <? min then (max, min) else (min, max)) as [lo hi];
    set (n := Z.to_nat _);
    (destruct (lo =? hi);
     [ exists (repeat (Number lo) n); cbn [fst]; split; [ reflexivity | ];
       split; [ apply repeat_length | ];
       apply Forall_forall; intros v Hv; apply repeat_spec in Hv; subst v; reflexivity
     | ]).
  - pose proof (RandsStreams.draw_length n lo hi true
                  {| deterministic_rng := seed (Double.to_uint s);
                     lessdeterministic_rng := lessdeterministic_rng rng |}) as [L F].
    destruct (draw n lo hi true _) as [vec r]. cbn [fst] in *.
    exists vec. auto.
  - pose proof (RandsStreams.draw_length n lo hi false rng) as [L F].
    destruct (draw n lo hi false _) as [vec r]. cbn [fst] in *.
    exists vec. auto.
Qed.

(** X7.  The two generators are separate streams: a call of [rands]
    that has not three arguments leaves the less deterministic
    generator as it is, and a call that has not four arguments leaves
    the deterministic generator as it is.  A call one of whose
    arguments is not a number changes neither generator: a fourth
    argument that is not a number does not reseed. *)
Theorem rands_streams_independent (evalctx : EvalContext) (rng : RngState) :
  (numArgs evalctx <> 3%nat ->
   lessdeterministic_rng (snd (builtin_rands evalctx rng)) = lessdeterministic_rng rng)
  /\ (numArgs evalctx <> 4%nat ->
      deterministic_rng (snd (builtin_rands evalctx rng)) = deterministic_rng rng)
  /\ (forallb is_number evalctx = false ->
      builtin_rands evalctx rng = (Undefined, rng)).
Proof.
  unfold builtin_rands.
  destruct evalctx as [| v0 [| v1 [| v2 [| v3 [| v4 rest]]]]];
    try (split; [ | split ]; intros _; reflexivity).
  - (* three arguments *)
    split; [ intros N; contradiction N; reflexivity | split ].
    + intros _.
      cbn [numArgs length Nat.eqb orb getArgValue nth Nat.ltb Nat.leb andb].
      destruct (negb (is_number v0)); [ reflexivity | ].
      destruct (negb (is_number v1)); [ reflexivity | ].
      destruct (if toDouble v1 <? toDouble v0 then _ else _) as [lo hi].
      destruct (negb (is_number v2)); [ reflexivity | ].
      destruct (lo =? hi); [ reflexivity | ].
      set (n := Z.to_nat _).
      pose proof (RandsStreams.draw_other_stream n lo hi false rng) as D. cbv beta iota in D.
      destruct (draw n lo hi false rng) as [vec r]. exact D.
    + cbn [numArgs length Nat.eqb orb getArgValue nth Nat.ltb Nat.leb andb forallb].
      destruct (is_number v0); [ | reflexivity ].
      destruct (is_number v1); [ | cbn [negb]; reflexivity ].
      destruct (if toDouble v1 <? toDouble v0 then _ else _) as [lo hi].
      destruct (is_number v2); [ discriminate | reflexivity ].
  - (* four arguments *)
    split; [ intros _ | split; [ intros N; contradiction N; reflexivity | ] ].
    + cbn [numArgs length Nat.eqb orb getArgValue nth Nat.ltb Nat.leb andb].
      destruct (negb (is_number v0)); [ reflexivity | ].
      destruct (negb (is_number v1)); [ reflexivity | ].
      destruct (if toDouble v1 <? toDouble v0 then _ else _) as [lo hi].
      destruct (negb (is_number v2)); [ reflexivity | ].
      destruct (negb (is_number v3)); [ reflexivity | ].
      destruct (lo =? hi); [ reflexivity | ].
      set (n := Z.to_nat _).
      pose proof (RandsStreams.draw_other_stream n lo hi true
                    {| deterministic_rng := seed (Double.to_uint (toDouble v3));
                       lessdeterministic_rng := lessdeterministic_rng rng |}) as D.
      cbv beta iota in D.
      destruct (draw n lo hi true _) as [vec r]. exact D.
    + cbn [numArgs length Nat.eqb orb getArgValue nth Nat.ltb Nat.leb andb forallb].
      destruct (is_number v0); [ | reflexivity ].
      destruct (is_number v1); [ | cbn [negb]; reflexivity ].
      destruct (if toDouble v1 <? toDouble v0 then _ else _) as [lo hi].
      destruct (is_number v2); [ | reflexivity ].
      destruct (is_number v3); [ discriminate | reflexivity ].
Qed.

(** X8.  The order of the two bounds does not matter when one of them
    is below the other: rands(a, b, ...) and rands(b, a, ...) return
    the same vector and leave the same generators. *)
Theorem rands_bounds_symmetric (a b count : float) (seed_value : option float)
        (rng : RngState) :
  (a <? b) || (b <? a) = true ->
  builtin_rands (Number a :: Number b :: Number count :: seed_argument seed_value) rng
  = builtin_rands (Number b :: Number a :: Number count :: seed_argument seed_value) rng.
Proof.
  intros Hab. unfold builtin_rands.
  assert (E : (if b <? a then (b, a) else (a, b)) = (if a <? b then (a, b) else (b, a))).
  { destruct (a <? b) eqn:E1, (b <? a) eqn:E2; try reflexivity; try discriminate.
    exfalso. revert E1 E2. clear. intros E1 E2. float_order. }
  destruct seed_value as [s |];
    cbn [seed_argument numArgs length Nat.eqb orb getArgValue nth is_number type
         ValueType_eqb negb toDouble getDouble Nat.ltb Nat.leb andb];
    rewrite E; reflexivity.
Qed.

(** X9.  Calls of [rands] without a seed continue one stream: a call
    for as many numbers as two successive calls ask for returns the
    numbers of the first call followed by those of the second, and
    leaves the generators as the second call does. *)
Theorem rands_unseeded_continues (a b cm cn ct : float) (rng : RngState) :
  rands_count ct = (rands_count cm + rands_count cn)%nat ->
  let first := builtin_rands [Number a; Number b; Number cm] rng in
  let second := builtin_rands [Number a; Number b; Number cn] (snd first) in
  builtin_rands [Number a; Number b; Number ct] rng
  = (Vector (toVector (fst first) ++ toVector (fst second)), snd second).
Proof.
  intros Hc. cbv zeta. unfold builtin_rands.
  cbn [numArgs length Nat.eqb orb getArgValue nth is_number type
       ValueType_eqb negb toDouble getDouble Nat.ltb Nat.leb andb].
  destruct (if b <? a then (b, a) else (a, b)) as [lo hi].
  fold (rands_count ct) (rands_count cm) (rands_count cn). rewrite Hc.
  destruct (lo =? hi).
  - cbn [fst snd toVector]. rewrite repeat_app. reflexivity.
  - rewrite RandsStreams.draw_app.
    destruct (draw (rands_count cm) lo hi false rng) as [v1 r1]. cbn [fst snd toVector].
    destruct (draw (rands_count cn) lo hi false r1) as [v2 r2]. reflexivity.
Qed.

(** X10.  Calls of [rands] with a seed restart the stream: with the
    same bounds and seed, the call for fewer numbers returns the first
    numbers of the call for more, from any states of the generators. *)
Theorem rands_seeded_prefix (a b cn ct s : float) (rng1 rng2 : RngState) :
  (rands_count cn <= rands_count ct)%nat ->
  toVector (fst (builtin_rands [Number a; Number b; Number cn; Number s] rng1))
  = firstn (rands_count cn)
      (toVector (fst (builtin_rands [Number a; Number b; Number ct; Number s] rng2))).
Proof.
  intros Hc. unfold builtin_rands.
  cbn [numArgs length Nat.eqb orb getArgValue nth is_number type
       ValueType_eqb negb toDouble getDouble Nat.ltb Nat.leb andb].
  destruct (if b <? a then (b, a) else (a, b)) as [lo hi].
  fold (rands_count ct) (rands_count cn).
  destruct (lo =? hi).
  - cbn [fst toVector]. apply RandsStreams.repeat_prefix. exact Hc.
  - pose proof (draw_deterministic (rands_count ct) lo hi
                  {| deterministic_rng := seed (Double.to_uint s);
                     lessdeterministic_rng := lessdeterministic_rng rng1 |}
                  {| deterministic_rng := seed (Double.to_uint s);
                     lessdeterministic_rng := lessdeterministic_rng rng2 |}
                  eq_refl) as [Hv _].
    pose proof (@RandsStreams.draw_prefix _ (rands_count cn) (rands_count ct) lo hi true
                  {| deterministic_rng := seed (Double.to_uint s);
                     lessdeterministic_rng := lessdeterministic_rng rng1 |} Hc) as P.
    destruct (draw (rands_count cn) lo hi true _) as [v1 r1].
    destruct (draw (rands_count ct) lo hi true
                {| deterministic_rng := seed (Double.to_uint s);
                   lessdeterministic_rng := lessdeterministic_rng rng2 |}) as [v2 r2].
    cbn [fst toVector] in *. rewrite P, Hv. reflexivity.
Qed.

End RandsTheorems.

(** rands(1, 9, 2) and rands(9, 1, 2) on the counting generator. *)
Lemma rands_bounds_symmetric_witness :
  @builtin_rands counting [Number 1; Number 9; Number 2] (counters 0 0)
  = @builtin_rands counting [Number 9; Number 1; Number 2] (counters 0 0).
Proof.
  apply (@rands_bounds_symmetric counting 1 9 2 None (counters 0 0)).
  reflexivity.
Defined.

(** rands(1, 9, 5) is rands(1, 9, 2) and then rands(1, 9, 3). *)
Lemma rands_unseeded_continues_witness :
  @builtin_rands counting [Number 1; Number 9; Number 5] (counters 0 0)
  = (Vector (toVector (fst (@builtin_rands counting [Number 1; Number 9; Number 2]
                              (counters 0 0)))
             ++ toVector (fst (@builtin_rands counting [Number 1; Number 9; Number 3]
                                 (snd (@builtin_rands counting
                                         [Number 1; Number 9; Number 2] (counters 0 0)))))),
     snd (@builtin_rands counting [Number 1; Number 9; Number 3]
            (snd (@builtin_rands counting [Number 1; Number 9; Number 2] (counters 0 0))))).
Proof.
  apply (@rands_unseeded_continues counting 1 9 2 3 5 (counters 0 0)).
  reflexivity.
Defined.

(** rands(1, 9, 2, 42) is the first two numbers of rands(1, 9, 5, 42). *)
Lemma rands_seeded_prefix_witness :
  toVector (fst (@builtin_rands counting [Number 1; Number 9; Number 2; Number 42]
                   (counters 0 0)))
  = firstn (rands_count 2)
      (toVector (fst (@builtin_rands counting [Number 1; Number 9; Number 5; Number 42]
                        (counters 7 7)))).
Proof.
  apply (@rands_seeded_prefix counting 1 9 2 5 42 (counters 0 0) (counters 7 7)).
  vm_compute. lia.
Defined.

(** ** sin and cos: the exact values *)

Section SpecialAngles.

Context {M : math.Libm}.

(** X11.  The constants of [sin] and [cos] are reached at every whole
    number of revolutions: for a whole number [n] of degrees up to
    [degree_bound] in magnitude, [sin] is exactly 0.5 where [n] is 30
    or 150 modulo 360 and -0.5 where it is 210 or 330, [cos] is
    exactly 0.5 where [n] is 60 or 300 and -0.5 where it is 120 or
    240, and at 45, 135, 225 and 315 both are [M_SQRT1_2] with the
    sign of the quadrant, with every libm. *)
Theorem sin_cos_special_angles (n : Z) :
  (- degree_bound <= n <= degree_bound)%Z ->
  let r := (n mod 360)%Z in
  let x := Number (Double.of_Z n) in
  (r = 30%Z \/ r = 150%Z -> builtin_sin [x] = Number 0.5)
  /\ (r = 210%Z \/ r = 330%Z -> builtin_sin [x] = Number (- 0.5)%float)
  /\ (r = 45%Z \/ r = 135%Z -> builtin_sin [x] = Number Double.M_SQRT1_2)
  /\ (r = 225%Z \/ r = 315%Z -> builtin_sin [x] = Number (- Double.M_SQRT1_2)%float)
  /\ (r = 60%Z \/ r = 300%Z -> builtin_cos [x] = Number 0.5)
  /\ (r = 120%Z \/ r = 240%Z -> builtin_cos [x] = Number (- 0.5)%float)
  /\ (r = 45%Z \/ r = 315%Z -> builtin_cos [x] = Number Double.M_SQRT1_2)
  /\ (r = 135%Z \/ r = 225%Z -> builtin_cos [x] = Number (- Double.M_SQRT1_2)%float).
Proof.
  intros Hn. cbv zeta.
  destruct (@TrigFacts.sin_cos_integer_degrees M n Hn) as [-> ->].
  repeat split; intros [-> | ->]; reflexivity.
Qed.

End SpecialAngles.

(** sin(750) is 0.5: 750 is 30 modulo 360. *)
Lemma sin_cos_special_angles_witness :
  @builtin_sin identity_libm [Number (Double.of_Z 750)] = Number 0.5.
Proof.
  apply (proj1 (@sin_cos_special_angles identity_libm 750
                  ltac:(unfold degree_bound; lia))).
  left. reflexivity.
Defined.

(** ** Calls within the contract *)

Module Contract.

Section WithLibm.

Context {M : math.Libm}.

Lemma unary_number (g : float -> float) (evalctx : EvalContext) :
  (length evalctx =? 1)%nat && is_number (nth 0 evalctx Undefined) = true ->
  type (unary g evalctx) = NUMBER.
Proof.
  destruct evalctx as [| [| d | s | l] [| b rest]]; try discriminate. reflexivity.
Qed.

End WithLibm.

End Contract.

Ltac by_shape :=
  let a := fresh "a" in let b := fresh "b" in let c := fresh "c" in
  intros evalctx;
  destruct evalctx as [| a [| b [| c ?]]];
  try destruct a; try destruct b;
  ctl; try discriminate; intros _; try reflexivity.

(** X12.  Within its contract a builtin of one result variant returns
    a value of that variant, never [Undefined], and prints nothing: a
    number for the numeric builtins and [len], a text for [str], a
    vector for [rands], [concat] and [version]; and [version] does so
    with any arguments. *)
Theorem contract_result_type {M : math.Libm} {G : Generator} {H : Host}
        (f : Builtin) (stack : list (list glyph)) (evalctx : EvalContext)
        (rng : RngState) (ty : ValueType) :
  well_typed f evalctx = true \/ f = f_version ->
  result_type f = Some ty ->
  exists v rng',
    evaluate f stack evalctx rng = (silently v, rng') /\ type v = ty.
Proof.
  unfold well_typed, evaluate. intros [W | ->] R;
    [ | injection R as <-; eexists; eexists; split; reflexivity ].
  destruct f; cbn [result_type] in R; try discriminate;
    injection R as <-; cbn [arity_ok types_ok] in W.
  all: try solve [ eexists; eexists; split; reflexivity ].
  all: try solve [ eexists; eexists; split; [ reflexivity | ];
                   apply Contract.unary_number; exact W ].
  all: try solve [ eexists; eexists; split; [ reflexivity | ];
                   revert evalctx W;
                   unfold builtin_sin, builtin_cos, builtin_atan2, builtin_pow,
                     builtin_length, builtin_log;
                   by_shape; destruct (reduce_degrees _); reflexivity ].
  pose proof (RandsStreams.rands_vector evalctx rng W) as T.
  destruct (builtin_rands evalctx rng) as [v rng']. exists v, rng'.
  split; [ reflexivity | exact T ].
Qed.

(** pow(2, 3) is a number. *)
Lemma contract_result_type_witness :
  exists v rng',
    @evaluate identity_libm counting plain_host f_pow [] [Number 2; Number 3] (counters 0 0)
    = (silently v, rng') /\ type v = NUMBER.
Proof.
  apply (@contract_result_type identity_libm counting plain_host f_pow []
           [Number 2; Number 3] (counters 0 0) NUMBER); [ left | ]; reflexivity.
Defined.

(** ** concat, str and len *)

Module CollectionFacts.

Lemma flat_map_length {A B : Type} (f : A -> list B) (l : list A) :
  length (flat_map f l) = list_sum (map (fun a => length (f a)) l).
Proof.
  induction l as [| a l IH]; [ reflexivity | ].
  cbn [flat_map map list_sum]. rewrite length_app, IH. reflexivity.
Qed.

End CollectionFacts.

Section CollectionTheorems.

Context {H : Host}.

(** X13.  [concat] flattens one level, and only one: the elements of
    its vector arguments are taken as they are, vectors among them
    too, so that [concat] of vectors is the concatenation of their
    element lists; and the [concat] of the results of several calls of
    [concat] is the [concat] of all their arguments in order. *)
Theorem concat_of_concats (groups : list EvalContext) (vectors : list (list Value)) :
  builtin_concat (map Vector vectors) = Vector (List.concat vectors)
  /\ builtin_concat (map builtin_concat groups) = builtin_concat (List.concat groups).
Proof.
  split.
  - unfold builtin_concat. f_equal.
    induction vectors as [| v vectors IH]; [ reflexivity | ].
    cbn [map flat_map List.concat is_vector type ValueType_eqb toVector].
    rewrite IH. reflexivity.
  - unfold builtin_concat. f_equal.
    induction groups as [| g groups IH]; [ reflexivity | ].
    cbn [map flat_map List.concat is_vector type ValueType_eqb toVector].
    rewrite flat_map_app, IH. reflexivity.
Qed.

(** X14.  [len] of [concat]: the sizes of the arguments that are
    vectors, and 1 for every other argument, added up. *)
Theorem len_of_concat (evalctx : EvalContext) :
  builtin_length [builtin_concat evalctx]
  = Number (Double.of_nat (list_sum (map concat_size evalctx))).
Proof.
  unfold builtin_length, builtin_concat.
  cbn [numArgs length Nat.eqb getArgValue nth is_vector type ValueType_eqb toVector].
  rewrite CollectionFacts.flat_map_length. do 3 f_equal.
  apply map_ext. intros v. unfold concat_size. destruct (is_vector v); reflexivity.
Qed.

(** X15.  [str] of the results of several calls of [str] is the [str]
    of all their arguments in order: a text is printed as it is. *)
Theorem str_of_strs (groups : list EvalContext) :
  builtin_str (map builtin_str groups) = builtin_str (List.concat groups).
Proof.
  unfold builtin_str. f_equal.
  induction groups as [| g groups IH]; [ reflexivity | ].
  cbn [map flat_map List.concat toString].
  rewrite flat_map_app, IH. reflexivity.
Qed.

End CollectionTheorems.

(** ** lookup: the outcomes *)

(** X16.  The outcomes of [lookup].  With a number and a second
    argument whose vector view is empty (an empty vector, or a value
    that is no vector) the call reads out of bounds; with a first row
    that is a pair of numbers it returns a number; in every other case
    it returns [Undefined] and prints nothing. *)
Theorem lookup_outcome (evalctx : EvalContext) :
  match evalctx with
  | Number p :: table :: _ =>
      match toVector table with
      | [] => builtin_lookup evalctx = OutOfBounds
      | row0 :: _ =>
          if is_pair row0
          then exists y, builtin_lookup evalctx = silently (Number y)
          else builtin_lookup evalctx = silently Undefined
      end
  | _ => builtin_lookup evalctx = silently Undefined
  end.
Proof.
  unfold builtin_lookup.
  destruct evalctx as [| v [| table rest]]; [ reflexivity | destruct v; reflexivity | ].
  cbn [numArgs length Nat.ltb Nat.leb getArgValue nth].
  destruct v as [| p | s | l]; try reflexivity.
  cbn [getDouble]. destruct (toVector table) as [| row0 rows] eqn:T; [ reflexivity | ].
  cbn [nth_error tl]. unfold is_pair.
  destruct (getVec2 row0) as [[p0 v0] |] eqn:E.
  - rewrite (@LookupRows.getVec2_length row0 (p0, v0) E). cbn [Nat.ltb Nat.leb].
    repeat match goal with |- context [if ?c then _ else _] => destruct c end;
      eexists; reflexivity.
  - match goal with |- context [if ?c then _ else _] => destruct c end; reflexivity.
Qed.

(** ** search: faults and indices *)

Module SearchFaults.

Section WithHost.

Context {H : Host}.

Lemma search_vec_defined (find : list glyph) (table : list Value) (rpm col : nat) :
  forallb (fun row => (col <? length (toVector row))%nat) table = true ->
  search_vec find table rpm col <> None.
Proof.
  intros Hrows. unfold search_vec.
  rewrite (@SearchShapes.search_glyphs_ext _
             (first_glyph_matches col)
             (fun g e => Some (first_glyph_test col g e)) rpm find table).
  - rewrite SearchShapes.search_glyphs_total. discriminate.
  - intros g e He. apply SearchShapes.first_glyph_matches_total.
    rewrite forallb_forall in Hrows. apply Nat.ltb_lt. apply Hrows. exact He.
Qed.

End WithHost.

Lemma short_row_exists (table : list Value) (col : nat) :
  forallb (fun row => (col <? length (toVector row))%nat) table = false ->
  exists row, In row table /\ (length (toVector row) <= col)%nat.
Proof.
  induction table as [| row table IH]; [ discriminate | ].
  cbn [forallb]. intros E. apply andb_false_iff in E as [E | E].
  - exists row. split; [ left; reflexivity | apply Nat.ltb_ge; exact E ].
  - destruct (IH E) as [r [Hin Hr]]. exists r. split; [ right; exact Hin | exact Hr ].
Qed.

End SearchFaults.

Module Positions.

Section WithTest.

Context {A : Type}.
Variable t : A -> bool.
Variable d : A.

(** [positions] lists the positions, counted from [j], of the
    elements that [t] accepts. *)
Lemma positions_in (table : list A) :
  forall j p,
    In p (positions t table j)
    <-> (j <= p < j + length table)%nat /\ t (nth (p - j) table d) = true.
Proof.
  induction table as [| e table IH]; intros j p; cbn [positions length].
  - split; [ contradiction | intros [Hp _]; lia ].
  - assert (Hrest : In p (positions t table (S j))
                    <-> (j < p < j + S (length table))%nat
                        /\ t (nth (p - j) (e :: table) d) = true).
    { rewrite IH. split; intros [Hp Ht]; (split; [ lia | ]).
      - destruct (p - j)%nat as [| k] eqn:E; [ lia | ].
        cbn [nth]. replace k with (p - S j)%nat by lia. exact Ht.
      - destruct (p - j)%nat as [| k] eqn:E; [ lia | ].
        cbn [nth] in Ht. replace (p - S j)%nat with k by lia. exact Ht. }
    destruct (t e) eqn:Te.
    + cbn [In]. rewrite Hrest. split.
      * intros [<- | [Hp Ht]].
        -- split; [ lia | ]. rewrite Nat.sub_diag. exact Te.
        -- split; [ lia | exact Ht ].
      * intros [Hp Ht]. destruct (Nat.eq_dec j p) as [E | N]; [ left; exact E | ].
        right. split; [ lia | exact Ht ].
    + rewrite Hrest. split.
      * intros [Hp Ht]. split; [ lia | exact Ht ].
      * intros [Hp Ht]. split; [ | exact Ht ].
        destruct (Nat.eq_dec j p) as [E | N]; [ | lia ].
        subst p. rewrite Nat.sub_diag in Ht. cbn [nth] in Ht. congruence.
Qed.

Lemma positions_from (table : list A) :
  forall j, Forall (fun p => (j <= p)%nat) (positions t table j).
Proof.
  intros j. apply Forall_forall. intros p Hp.
  apply positions_in in Hp. destruct Hp as [Hp _]. lia.
Qed.

Lemma positions_sorted (table : list A) :
  forall j, StronglySorted lt (positions t table j).
Proof.
  induction table as [| e table IH]; intros j; cbn [positions]; [ constructor | ].
  destruct (t e); [ | apply IH ].
  constructor; [ apply IH | ].
  eapply Forall_impl; [ | apply (positions_from table (S j)) ].
  intros p Hp. cbv beta in Hp. lia.
Qed.

End WithTest.

Lemma firstn_in {A : Type} (n : nat) (l : list A) (x : A) :
  In x (firstn n l) -> In x l.
Proof.
  intros Hx. rewrite <- (firstn_skipn n l). apply in_or_app. left. exact Hx.
Qed.

Lemma firstn_sorted (n : nat) (l : list nat) :
  StronglySorted lt l -> StronglySorted lt (firstn n l).
Proof.
  revert l. induction n as [| n IH]; intros l Hl; [ constructor | ].
  destruct l as [| x l]; [ constructor | ].
  apply StronglySorted_inv in Hl as [Hl Hx]. cbn [firstn].
  constructor; [ apply IH; exact Hl | ].
  rewrite Forall_forall in *. intros y Hy. apply Hx.
  apply (@firstn_in _ n l y Hy).
Qed.

Lemma cap_sorted (rpm : nat) (l : list nat) :
  StronglySorted lt l -> StronglySorted lt (cap rpm l).
Proof.
  unfold cap. destruct (rpm =? 0)%nat; [ trivial | apply firstn_sorted ].
Qed.

Lemma cap_in (rpm : nat) (l : list nat) (p : nat) : In p (cap rpm l) -> In p l.
Proof.
  unfold cap. destruct (rpm =? 0)%nat; [ trivial | apply (@firstn_in _ rpm l p) ].
Qed.

Lemma cap_length (rpm : nat) (l : list nat) :
  length (cap rpm l) = if (rpm =? 0)%nat then length l else Nat.min rpm (length l).
Proof.
  unfold cap. destruct (rpm =? 0)%nat; [ reflexivity | apply length_firstn ].
Qed.

End Positions.

Section SearchTheorems.

Context {H : Host}.

(** X17.  [search] reads out of bounds in one case only: the needle is
    a text that is not empty, the table is no text, and a row of the
    table has no column [index_col_num].  A number needle, a vector
    needle and a text searched in a text never fault. *)
Theorem search_fault_needs_short_row (evalctx : EvalContext) :
  builtin_search evalctx = OutOfBounds ->
  exists find row,
    getArgValue evalctx 0 = String find /\ find <> []
    /\ is_string (getArgValue evalctx 1) = false
    /\ In row (toVector (getArgValue evalctx 1))
    /\ (length (toVector row) <= index_col_arg evalctx)%nat.
Proof.
  unfold builtin_search.
  generalize (returns_per_match_arg evalctx) as rpm.
  generalize (index_col_arg evalctx) as col. intros col rpm.
  destruct evalctx as [| needle [| table rest]]; try discriminate.
  cbn [numArgs length Nat.ltb Nat.leb getArgValue nth].
  assert (Hvec : forall find tbl,
             search_result (search_vec find tbl rpm col) = OutOfBounds ->
             find <> [] /\ exists row, In row tbl /\ (length (toVector row) <= col)%nat).
  { intros find tbl E. split.
    - intros ->. discriminate.
    - destruct (forallb (fun row => (col <? length (toVector row))%nat) tbl) eqn:F.
      + pose proof (@SearchFaults.search_vec_defined _ find tbl rpm col F) as D.
        destruct (search_vec find tbl rpm col) as [[ret log] |]; [ discriminate | ].
        contradiction D; reflexivity.
      + apply SearchFaults.short_row_exists. exact F. }
  destruct needle as [| d | find | find].
  - discriminate.
  - rewrite SearchShapes.number_loop_shape. discriminate.
  - destruct table as [| d | text | rows];
      try (intros E; destruct (Hvec _ _ E) as [Hf [row [Hin Hr]]];
           exists find, row; repeat split; assumption).
    unfold search_str. rewrite SearchShapes.search_glyphs_total. discriminate.
  - rewrite SearchShapes.vector_loop_shape. discriminate.
Qed.

(** X18.  A text needle that is not empty, searched in a vector whose
    first row has no column [index_col_num], reads out of bounds, at
    every number of returns per match. *)
Theorem search_short_first_row_faults (g : glyph) (find : list glyph)
        (row0 : Value) (rows rest : list Value) :
  let evalctx := String (g :: find) :: Vector (row0 :: rows) :: rest in
  (length (toVector row0) <= index_col_arg evalctx)%nat ->
  builtin_search evalctx = OutOfBounds.
Proof.
  cbv zeta. unfold builtin_search.
  generalize (returns_per_match_arg (String (g :: find) :: Vector (row0 :: rows) :: rest))
    as rpm.
  generalize (index_col_arg (String (g :: find) :: Vector (row0 :: rows) :: rest)) as col.
  intros col rpm Hshort.
  cbn [numArgs length Nat.ltb Nat.leb getArgValue nth toVector].
  unfold search_vec. cbn [search_glyphs match_loop].
  unfold first_glyph_matches at 1.
  apply nth_error_None in Hshort. rewrite Hshort. reflexivity.
Qed.

(** X19.  The indices a number needle returns: they are strictly
    increasing positions of the table whose element matches; at 0
    returns per match every matching position is among them, and at
    another number of returns they are the first ones, as many as asked
    for or as there are. *)
Theorem search_number_needle_indices (d : float) (table : Value) (rest : list Value) :
  let evalctx := Number d :: table :: rest in
  let rpm := returns_per_match_arg evalctx in
  let col := index_col_arg evalctx in
  let rows := toVector table in
  exists js,
    builtin_search evalctx = silently (Vector (indices js))
    /\ StronglySorted lt js
    /\ (forall j, In j js ->
                  (j < length rows)%nat
                  /\ element_test col (Number d) (nth j rows Undefined) = true)
    /\ (rpm = 0%nat ->
        forall j, (j < length rows)%nat ->
                  element_test col (Number d) (nth j rows Undefined) = true -> In j js)
    /\ (rpm <> 0%nat ->
        js = firstn rpm (positions (element_test col (Number d)) rows 0)).
Proof.
  cbv zeta. unfold builtin_search.
  generalize (returns_per_match_arg (Number d :: table :: rest)) as rpm.
  generalize (index_col_arg (Number d :: table :: rest)) as col. intros col rpm.
  cbn [numArgs length Nat.ltb Nat.leb getArgValue nth].
  rewrite SearchShapes.number_loop_shape. unfold number_needle_shape.
  set (ps := positions (element_test col (Number d)) (toVector table) 0).
  exists (cap rpm ps). split; [ reflexivity | ].
  split; [ apply Positions.cap_sorted;
           apply (@Positions.positions_sorted _ (element_test col (Number d)) Undefined) | ].
  split; [ | split ].
  - intros j Hj. apply Positions.cap_in in Hj.
    apply (@Positions.positions_in _ (element_test col (Number d)) Undefined) in Hj.
    rewrite Nat.sub_0_r in Hj. destruct Hj as [Hj Ht]. split; [ lia | exact Ht ].
  - intros -> j Hj Ht. unfold cap. cbn [Nat.eqb].
    apply (@Positions.positions_in _ (element_test col (Number d)) Undefined).
    rewrite Nat.sub_0_r. split; [ lia | exact Ht ].
  - intros Hrpm. unfold cap.
    destruct (rpm =? 0)%nat eqn:E; [ apply Nat.eqb_eq in E; contradiction | reflexivity ].
Qed.

End SearchTheorems.

(** search("a", [[]]) faults, and its one row has no column 0. *)
Lemma search_fault_needs_short_row_witness :
  exists find row,
    getArgValue [String [97%positive]; Vector [Vector []]] 0 = String find /\ find <> []
    /\ is_string (getArgValue [String [97%positive]; Vector [Vector []]] 1) = false
    /\ In row (toVector (getArgValue [String [97%positive]; Vector [Vector []]] 1))
    /\ (length (toVector row)
        <= index_col_arg [String [97%positive]; Vector [Vector []]])%nat.
Proof.
  apply (@search_fault_needs_short_row plain_host
           [String [97%positive]; Vector [Vector []]]).
  reflexivity.
Defined.

(** search("a", [[], ["a"]]) faults on its first row. *)
Lemma search_short_first_row_faults_witness :
  @builtin_search plain_host
    [String [97%positive]; Vector [Vector []; Vector [String [97%positive]]]]
  = OutOfBounds.
Proof.
  apply (@search_short_first_row_faults plain_host 97%positive [] (Vector [])
           [Vector [String [97%positive]]] []).
  cbn. lia.
Defined.

(** ** parent_module *)

(** X20.  [parent_module] never reads outside the stack of modules.
    With [n] the index asked for and [s] the size of the stack: a
    negative [n] and an [n] of [s] or more give [Undefined] and a
    warning that names [n]; otherwise the call returns, and prints
    nothing, the name [n] places below the top of the stack.  A call
    outside the contract returns [Undefined] and prints nothing. *)
Theorem parent_module_outcome (stack : list (list glyph)) (evalctx : EvalContext) :
  let s := Z.of_nat (length stack) in
  match parent_index evalctx with
  | None => builtin_parent_module stack evalctx = silently Undefined
  | Some n =>
      if (n <? 0)%Z
      then builtin_parent_module stack evalctx
           = Returns Undefined [WarnParentModuleNegative n]
      else if (s <=? n)%Z
      then builtin_parent_module stack evalctx
           = Returns Undefined [WarnParentModuleTooLarge n]
      else exists name,
             nth_error (rev stack) (Z.to_nat n) = Some name
             /\ builtin_parent_module stack evalctx = silently (String name)
  end.
Proof.
  cbv zeta.
  assert (Hidx : forall n, (n <? 0)%Z = false -> (Z.of_nat (length stack) <=? n)%Z = false ->
                 exists name,
                   nth_error (rev stack) (Z.to_nat n) = Some name
                   /\ nth_error stack (Z.to_nat (Z.of_nat (length stack) - 1 - n))
                      = Some name).
  { intros n H0 H1. apply Z.ltb_ge in H0. apply Z.leb_gt in H1.
    destruct (nth_error stack (Z.to_nat (Z.of_nat (length stack) - 1 - n)))
      as [name |] eqn:E.
    - exists name. split; [ | reflexivity ].
      rewrite nth_error_rev.
      destruct (Nat.ltb_spec (Z.to_nat n) (length stack)) as [L | L]; [ | lia ].
      rewrite <- E. f_equal. lia.
    - apply nth_error_None in E. lia. }
  unfold builtin_parent_module, parent_index.
  destruct evalctx as [| v [| w rest]].
  - cbn [numArgs length Nat.eqb].
    destruct (_ <? 0)%Z eqn:H0; [ reflexivity | ].
    destruct (_ <=? _)%Z eqn:H1; [ reflexivity | ].
    destruct (Hidx _ H0 H1) as [name [Hr Hn]]. exists name. rewrite Hn.
    split; [ exact Hr | reflexivity ].
  - destruct v as [| d | s | l]; try reflexivity.
    cbn [numArgs length Nat.eqb getArgValue nth is_number type ValueType_eqb negb toDouble
         getDouble].
    destruct (_ <? 0)%Z eqn:H0; [ reflexivity | ].
    destruct (_ <=? _)%Z eqn:H1; [ reflexivity | ].
    destruct (Hidx _ H0 H1) as [name [Hr Hn]]. exists name. rewrite Hn.
    split; [ exact Hr | reflexivity ].
  - destruct v as [| d | s | l]; reflexivity.
Qed.

(** ** norm and cross *)

Module SqrtFacts.

Local Open Scope float_scope.

Lemma SFsqrt_not_negative (f : spec_float) :
  SFltb (SFsqrt prec emax f) (S754_zero false) = false.
Proof.
  destruct f as [s | s | | s m e]; try (destruct s; reflexivity); try reflexivity.
  destruct s; [ reflexivity | ].
  unfold SFsqrt.
  destruct (SFsqrt_core_binary prec emax (Z.pos m) e) as [[mz ez] lz].
  unfold binary_round_aux.
  destruct (shr_fexp prec emax mz ez lz) as [mrs' e'].
  destruct (shr_fexp prec emax _ e' SpecFloat.loc_Exact) as [mrs'' e''].
  destruct (shr_m mrs''); try reflexivity.
  destruct (e'' <=? emax - prec)%Z; reflexivity.
Qed.

Lemma sqrt_not_negative (x : float) : (PrimFloat.sqrt x <? 0) = false.
Proof.
  rewrite FloatAxioms.ltb_spec, FloatAxioms.sqrt_spec. apply SFsqrt_not_negative.
Qed.

End SqrtFacts.

(** X21.  A number that [norm] returns is not below 0, and the call
    has printed nothing. *)
Theorem norm_not_negative (evalctx : EvalContext) (r : float) (log : list Diagnostic) :
  builtin_norm evalctx = (Number r, log) -> (r <? 0)%float = false /\ log = [].
Proof.
  unfold builtin_norm.
  destruct (numArgs evalctx =? 1)%nat; [ | discriminate ].
  destruct (is_vector (getArgValue evalctx 0)); [ | discriminate ].
  destruct (norm_sum 0 (toVector (getArgValue evalctx 0))) as [sum |]; [ | discriminate ].
  intros E. injection E as <- <-. split; [ apply SqrtFacts.sqrt_not_negative | reflexivity ].
Qed.

(** norm([3, 4]). *)
Lemma norm_not_negative_witness :
  (PrimFloat.sqrt (0 + 3 * 3 + 4 * 4) <? 0)%float = false /\ @nil Diagnostic = [].
Proof.
  apply (@norm_not_negative [Vector [Number 3; Number 4]]
           (PrimFloat.sqrt (0 + 3 * 3 + 4 * 4)) []).
  reflexivity.
Defined.

Module CrossFacts.

(** One turn of the checking loop of [builtin_cross]. *)
Lemma cross_check_cons (e0 e1 : Value) (v0 v1 : list Value) :
  (finite_number e0 && finite_number e1 = true ->
   cross_check (e0 :: v0) (e1 :: v1) = cross_check v0 v1)
  /\ (finite_number e0 && finite_number e1 = false ->
      exists w, cross_check (e0 :: v0) (e1 :: v1) = Some w).
Proof.
  destruct e0 as [| d0 | s0 | l0], e1 as [| d1 | s1 | l1];
    cbn [cross_check is_number type ValueType_eqb negb orb andb toDouble getDouble
         finite_number finite];
    try (split; [ discriminate | intros _; eexists; reflexivity ]);
    try (rewrite andb_false_r; split; [ discriminate | intros _; eexists; reflexivity ]).
  unfold finite.
  destruct (is_nan d0), (is_nan d1), (is_infinity d0), (is_infinity d1);
    cbn [negb andb orb]; split; intros E; try discriminate; try reflexivity;
    eexists; reflexivity.
Qed.

End CrossFacts.

Ltac split_operands :=
  repeat match goal with
         | |- context [match ?v with Undefined => _ | _ => _ end] => is_var v; destruct v
         | |- context [match ?v with [] => _ | _ => _ end] => is_var v; destruct v
         end.

Ltac not_operands E :=
  unfold cross_operands; split_operands; try reflexivity;
  cbn [finite_number] in E; cbn [forallb];
  apply andb_false_iff in E as [-> | ->]; cbn [andb]; rewrite ?andb_false_r; reflexivity.

(** X22.  The outcomes of [cross].  On two vectors of three finite
    numbers the call returns their cross product, each operation
    rounded, and prints nothing; on every other argument list it
    returns [Undefined] and prints exactly one warning. *)
Theorem cross_outcome (evalctx : EvalContext) :
  match cross_operands evalctx with
  | Some (a, b) => builtin_cross evalctx = (cross_product a b, [])
  | None => exists w, builtin_cross evalctx = (Undefined, [w])
  end.
Proof.
  unfold builtin_cross.
  destruct evalctx as [| x [| y [| z rest]]];
    try (unfold cross_operands; split_operands; eexists; reflexivity).
  cbn [numArgs length Nat.eqb negb getArgValue nth].
  destruct x as [| dx | sx | v0];
    try (unfold cross_operands; eexists; reflexivity).
  destruct y as [| dy | sy | v1];
    try (unfold cross_operands; split_operands; eexists; reflexivity).
  cbn [is_vector type ValueType_eqb negb orb toVector].
  destruct v0 as [| x0 [| x1 [| x2 [| x3 v0]]]];
    try (unfold cross_operands; split_operands; eexists; reflexivity).
  destruct v1 as [| y0 [| y1 [| y2 [| y3 v1]]]];
    try (unfold cross_operands; split_operands; eexists; reflexivity).
  cbn [length Nat.eqb negb orb].
  destruct (CrossFacts.cross_check_cons x0 y0 [x1; x2] [y1; y2]) as [A0 B0].
  destruct (CrossFacts.cross_check_cons x1 y1 [x2] [y2]) as [A1 B1].
  destruct (CrossFacts.cross_check_cons x2 y2 [] []) as [A2 B2].
  destruct (finite_number x0 && finite_number y0) eqn:E0.
  2:{ destruct (B0 eq_refl) as [w ->].
      assert (cross_operands [Vector [x0; x1; x2]; Vector [y0; y1; y2]] = None) as ->
        by not_operands E0.
      eexists; reflexivity. }
  rewrite (A0 eq_refl).
  destruct (finite_number x1 && finite_number y1) eqn:E1.
  2:{ destruct (B1 eq_refl) as [w ->].
      assert (cross_operands [Vector [x0; x1; x2]; Vector [y0; y1; y2]] = None) as ->
        by not_operands E1.
      eexists; reflexivity. }
  rewrite (A1 eq_refl).
  destruct (finite_number x2 && finite_number y2) eqn:E2.
  2:{ destruct (B2 eq_refl) as [w ->].
      assert (cross_operands [Vector [x0; x1; x2]; Vector [y0; y1; y2]] = None) as ->
        by not_operands E2.
      eexists; reflexivity. }
  rewrite (A2 eq_refl). cbn [cross_check].
  apply andb_true_iff in E0 as [F0 G0], E1 as [F1 G1], E2 as [F2 G2].
  destruct x0; try discriminate; destruct x1; try discriminate;
    destruct x2; try discriminate; destruct y0; try discriminate;
    destruct y1; try discriminate; destruct y2; try discriminate.
  cbn [finite_number] in *. unfold cross_operands. cbn [forallb].
  rewrite F0, F1, F2, G0, G1, G2. reflexivity.
Qed.

(** ** NaN arguments *)

Module NaNFacts.

Local Open Scope float_scope.

(** Binary64 as the model has it holds one NaN. *)
Lemma is_nan_eq (x : float) : is_nan x = true -> x = nan.
Proof.
  intros Hx. apply DoubleFacts.is_nan_key in Hx. apply Prim2SF_inj.
  unfold Double.key, Double.SFkey in Hx.
  destruct (Prim2SF x) as [s | s | | s m e]; try discriminate; reflexivity.
Qed.

Lemma ltb_nan_r (x : float) : (x <? nan) = false.
Proof.
  rewrite FloatAxioms.ltb_spec. change (Prim2SF nan) with S754_nan.
  destruct (Prim2SF x) as [s | s | | s m e]; try destruct s; reflexivity.
Qed.

Lemma ltb_nan_l (x : float) : (nan <? x) = false.
Proof. rewrite FloatAxioms.ltb_spec. reflexivity. Qed.

Lemma leb_nan_r (x : float) : (x <=? nan) = false.
Proof.
  rewrite FloatAxioms.leb_spec. change (Prim2SF nan) with S754_nan.
  destruct (Prim2SF x) as [s | s | | s m e]; try destruct s; reflexivity.
Qed.

Lemma leb_nan_l (x : float) : (nan <=? x) = false.
Proof. rewrite FloatAxioms.leb_spec. reflexivity. Qed.

Lemma sub_nan_l (y : float) : nan - y = nan.
Proof. apply Prim2SF_inj. rewrite FloatAxioms.sub_spec. reflexivity. Qed.

Lemma div_nan_l (y : float) : nan / y = nan.
Proof. apply Prim2SF_inj. rewrite FloatAxioms.div_spec. reflexivity. Qed.

Lemma add_nan_l (y : float) : nan + y = nan.
Proof. apply Prim2SF_inj. rewrite FloatAxioms.add_spec. reflexivity. Qed.

Lemma add_nan_r (x : float) : x + nan = nan.
Proof.
  apply Prim2SF_inj. rewrite FloatAxioms.add_spec. change (Prim2SF nan) with S754_nan.
  destruct (Prim2SF x) as [s | s | | s m e]; reflexivity.
Qed.

Lemma mul_nan_l (y : float) : nan * y = nan.
Proof. apply Prim2SF_inj. rewrite FloatAxioms.mul_spec. reflexivity. Qed.

Lemma mul_nan_r (x : float) : x * nan = nan.
Proof.
  apply Prim2SF_inj. rewrite FloatAxioms.mul_spec. change (Prim2SF nan) with S754_nan.
  destruct (Prim2SF x) as [s | s | | s m e]; reflexivity.
Qed.

(** A NaN argument changes neither running value. *)
Lemma max_scan_skips_nan (pre post : list Value) :
  forall val, max_scan val (pre ++ Number nan :: post) = max_scan val (pre ++ post).
Proof.
  induction pre as [| v pre IH]; intros val.
  - cbn [app max_scan is_number type ValueType_eqb negb toDouble getDouble].
    rewrite ltb_nan_r. reflexivity.
  - cbn [app max_scan]. destruct (negb (is_number v)); [ reflexivity | apply IH ].
Qed.

Lemma min_scan_skips_nan (pre post : list Value) :
  forall val, min_scan val (pre ++ Number nan :: post) = min_scan val (pre ++ post).
Proof.
  induction pre as [| v pre IH]; intros val.
  - cbn [app min_scan is_number type ValueType_eqb negb toDouble getDouble].
    rewrite ltb_nan_l. reflexivity.
  - cbn [app min_scan]. destruct (negb (is_number v)); [ reflexivity | apply IH ].
Qed.

(** No number replaces a running value that is NaN. *)
Lemma max_scan_from_nan (xs : list float) : max_scan nan (map Number xs) = Number nan.
Proof.
  induction xs as [| x xs IH]; [ reflexivity | ].
  cbn [map max_scan is_number type ValueType_eqb negb toDouble getDouble].
  rewrite ltb_nan_l. exact IH.
Qed.

Lemma min_scan_from_nan (xs : list float) : min_scan nan (map Number xs) = Number nan.
Proof.
  induction xs as [| x xs IH]; [ reflexivity | ].
  cbn [map min_scan is_number type ValueType_eqb negb toDouble getDouble].
  rewrite ltb_nan_r. exact IH.
Qed.

(** No row moves the bracket of a NaN key. *)
Lemma lookup_scan_nan (rows : list Value) :
  forall b, lookup_scan nan b rows = b.
Proof.
  induction rows as [| row rows IH]; intros b; [ reflexivity | ].
  cbn [lookup_scan]. rewrite <- (IH b) at 2. f_equal.
  unfold lookup_step. destruct (getVec2 row) as [[this_p this_v] |]; [ | reflexivity ].
  rewrite leb_nan_r, leb_nan_l. reflexivity.
Qed.

(** Once the sum of [norm] is NaN it stays NaN. *)
Lemma norm_sum_from_nan (v : list Value) :
  Forall (fun e => is_number e = true) v -> norm_sum nan v = Some nan.
Proof.
  induction 1 as [| e v He _ IH]; [ reflexivity | ].
  cbn [norm_sum]. rewrite He, add_nan_l. exact IH.
Qed.

Lemma norm_sum_nan (pre post : list Value) :
  Forall (fun e => is_number e = true) (pre ++ Number nan :: post) ->
  forall sum, norm_sum sum (pre ++ Number nan :: post) = Some nan.
Proof.
  induction pre as [| e pre IH]; intros Hall sum.
  - cbn [app norm_sum is_number type ValueType_eqb toDouble getDouble].
    rewrite mul_nan_l, add_nan_r. apply norm_sum_from_nan.
    apply Forall_inv_tail in Hall. exact Hall.
  - cbn [app norm_sum]. cbn [app] in Hall. rewrite (Forall_inv Hall).
    apply IH. apply Forall_inv_tail in Hall. exact Hall.
Qed.

End NaNFacts.

Section NaNTheorems.

Local Open Scope float_scope.

(** X23.  NaN among the numbers of [min] and [max]: as the first
    argument it is the result, whatever numbers follow; as a later
    argument it is passed over, and the call returns what it returns
    without it. *)
Theorem min_max_nan (x d0 : float) (xs : list float) (pre post : list Value) :
  is_nan x = true ->
  (builtin_max (Number x :: map Number xs) = Number x
   /\ builtin_min (Number x :: map Number xs) = Number x)
  /\ (builtin_max (Number d0 :: pre ++ Number x :: post)
      = builtin_max (Number d0 :: pre ++ post)
      /\ builtin_min (Number d0 :: pre ++ Number x :: post)
         = builtin_min (Number d0 :: pre ++ post)).
Proof.
  intros Hx. apply NaNFacts.is_nan_eq in Hx. subst x.
  rewrite !MinMax.builtin_max_number, !MinMax.builtin_min_number.
  rewrite NaNFacts.max_scan_from_nan, NaNFacts.min_scan_from_nan.
  rewrite NaNFacts.max_scan_skips_nan, NaNFacts.min_scan_skips_nan.
  repeat split; reflexivity.
Qed.

(** X24.  [lookup] of a NaN key in a table whose first row is a pair
    of numbers is NaN: no row moves the bracket, neither end of it
    compares with the key, and the interpolation is done with NaN. *)
Theorem lookup_nan_key (p : float) (row0 : Value) (rows rest : list Value) :
  is_nan p = true ->
  is_pair row0 = true ->
  builtin_lookup (Number p :: Vector (row0 :: rows) :: rest) = silently (Number p).
Proof.
  intros Hp. apply NaNFacts.is_nan_eq in Hp. subst p.
  unfold is_pair. destruct (getVec2 row0) as [[p0 v0] |] eqn:E; [ intros _ | discriminate ].
  rewrite (@LookupRows.builtin_lookup_scan nan p0 v0 row0 rows rest E). cbv zeta.
  rewrite NaNFacts.lookup_scan_nan. cbn [low_p low_v high_p high_v].
  rewrite NaNFacts.leb_nan_l, NaNFacts.leb_nan_r.
  rewrite NaNFacts.sub_nan_l, NaNFacts.div_nan_l, NaNFacts.mul_nan_r, NaNFacts.add_nan_l.
  reflexivity.
Qed.

(** X25.  [norm] of a vector of numbers one of which is NaN is NaN,
    and the call prints nothing. *)
Theorem norm_nan (x : float) (pre post : list Value) :
  is_nan x = true ->
  Forall (fun e => is_number e = true) (pre ++ post) ->
  builtin_norm [Vector (pre ++ Number x :: post)] = (Number x, []).
Proof.
  intros Hx Hall. apply NaNFacts.is_nan_eq in Hx. subst x.
  unfold builtin_norm.
  cbn [numArgs length Nat.eqb getArgValue nth is_vector type ValueType_eqb toVector].
  rewrite NaNFacts.norm_sum_nan; [ reflexivity | ].
  apply Forall_app in Hall as [Hpre Hpost].
  apply Forall_app. split; [ exact Hpre | constructor; [ reflexivity | exact Hpost ] ].
Qed.

End NaNTheorems.

(** max(NaN, 1, 2) is NaN, and max(1, NaN, 2) is max(1, 2). *)
Lemma min_max_nan_witness :
  (builtin_max (Number nan :: map Number [1; 2]%float) = Number nan
   /\ builtin_min (Number nan :: map Number [1; 2]%float) = Number nan)
  /\ (builtin_max (Number 1 :: [] ++ Number nan :: [Number 2])
      = builtin_max (Number 1 :: [] ++ [Number 2])
      /\ builtin_min (Number 1 :: [] ++ Number nan :: [Number 2])
         = builtin_min (Number 1 :: [] ++ [Number 2])).
Proof.
  apply (@min_max_nan nan 1 [1; 2]%float [] [Number 2]). reflexivity.
Defined.

(** lookup(NaN, [[0, 10], [1, 20]]) is NaN. *)
Lemma lookup_nan_key_witness :
  builtin_lookup [Number nan; Vector [Vector [Number 0; Number 10];
                                      Vector [Number 1; Number 20]]]
  = silently (Number nan).
Proof.
  apply (@lookup_nan_key nan (Vector [Number 0; Number 10]) [Vector [Number 1; Number 20]] []);
    reflexivity.
Defined.

(** norm([3, NaN, 4]) is NaN. *)
Lemma norm_nan_witness :
  builtin_norm [Vector ([Number 3] ++ Number nan :: [Number 4])] = (Number nan, []).
Proof.
  apply (@norm_nan nan [Number 3] [Number 4]); [ reflexivity | repeat constructor ].
Defined.
